(** * baton-airbyte: token lifecycle, pagination and permission resolution

    A shallow embedding of the Airbyte connector
    (package [airbyte]: the API client; package [connector]: the
    organization, workspace and user resource builders) together with the
    properties of its specification.

    Conventions.
    - Go strings are byte sequences: [string] (a list of 8-bit [ascii]).
    - [uint64] values are [Z] with the wrap-around modulo [2^64] written out.
    - [time.Time] instants are [Z], in nanoseconds since the Unix epoch.
    - Functions that return [(T, error)] return [Res T].
    - The client, the remote endpoints, the clock and the package-level
      workspace index live in an explicit [State] threaded through the code.
    - Functions of Go's standard library and of baton-sdk whose code is not
      part of the repository are the fields of the class [Externals]. *)

From Stdlib Require Import ZArith Lia Ascii String List Bool.
From stdpp Require Import base option list strings gmap.

Local Open Scope string_scope.
Local Open Scope Z_scope.

(* ===================================================================== *)
(** * Go strings *)
(* ===================================================================== *)

Module GoStrings.

(** [strings.Cut(s, sep)] for a one-byte separator: the text before and
    after the first occurrence, [None] when [sep] does not occur. *)
Fixpoint Cut (sep : ascii) (s : string) : option (string * string) :=
  match s with
  | EmptyString => None
  | String a rest =>
      if Ascii.eqb a sep then Some (EmptyString, rest)
      else match Cut sep rest with
           | Some (before, after) => Some (String a before, after)
           | None => None
           end
  end.

(** [strings.Split(s, sep)] for a one-byte separator: one more piece than
    there are separators; the empty string gives one empty piece. *)
Fixpoint Split (sep : ascii) (s : string) : list string :=
  match s with
  | EmptyString => [EmptyString]
  | String a rest =>
      if Ascii.eqb a sep then EmptyString :: Split sep rest
      else match Split sep rest with
           | piece :: pieces => String a piece :: pieces
           | [] => [String a EmptyString]
           end
  end.

(** [strings.Contains(s, string(c))]. *)
Fixpoint ContainsByte (c : ascii) (s : string) : bool :=
  match s with
  | EmptyString => false
  | String a rest => Ascii.eqb a c || ContainsByte c rest
  end.

(** [strings.Count(s, string(c))]. *)
Fixpoint CountByte (c : ascii) (s : string) : nat :=
  match s with
  | EmptyString => O
  | String a rest => ((if Ascii.eqb a c then 1 else 0) + CountByte c rest)%nat
  end.

(** [strings.HasPrefix]. *)
Definition HasPrefix (s p : string) : bool := String.prefix p s.

(** [slices.Contains] on a slice of strings. *)
Definition Contains (l : list string) (x : string) : bool :=
  existsb (String.eqb x) l.

(** Lower-casing of one byte of the ASCII range. *)
Definition lower_byte (a : ascii) : ascii :=
  let n := nat_of_ascii a in
  if ((65 <=? n) && (n <=? 90))%nat then ascii_of_nat (n + 32) else a.

(** [strings.ToLower] restricted to ASCII text, where it is byte-wise. *)
Fixpoint ToLowerASCII (s : string) : string :=
  match s with
  | EmptyString => EmptyString
  | String a rest => String (lower_byte a) (ToLowerASCII rest)
  end.

End GoStrings.

(** [uint64] arithmetic. *)
Definition uint64_modulus : Z := 2 ^ 64.
Definition uint64_add (a b : Z) : Z := (a + b) mod uint64_modulus.

(* ===================================================================== *)
(** * pkg/airbyte/models.go *)
(* ===================================================================== *)

Record Workspace := {
  Workspace_ID : string;
  Workspace_OrganizationId : string;
  Workspace_Name : string;
}.

Record TokenResponse := { AccessToken : string }.

Record JWTClaims := {
  Issuer : string;
  Subject : string;
  ExpiresAt : Z;
  Roles : list string;
}.

Record User := {
  User_ID : string;
  User_Email : string;
  User_Name : string;
}.

Record Organization := {
  Organization_ID : string;
  Organization_Name : string;
  Organization_Email : string;
}.

Record Permission := {
  Permission_ID : string;
  Permission_PermissionType : string;
  Permission_UserID : string;
  Permission_ScopeID : string;
  Permission_Scope : string;
}.

(** [APIResponse[T]]: the wrapper of the public API. *)
Record APIResponse (T : Type) := {
  Data : T;
  Previous : string;
  Next : string;
}.
Arguments Data {T} _.
Arguments Previous {T} _.
Arguments Next {T} _.

(** [WorkspaceResponse]: the notification settings play no role in the
    connector and are left out. *)
Record WorkspaceResponse := {
  WorkspaceResponse_ID : string;
  WorkspaceResponse_Name : string;
  WorkspaceResponse_DataResidency : string;
}.

(** [WorkspaceReadResponse], with the fields the connector reads. *)
Record WorkspaceReadResponse := {
  WorkspaceRead_WorkspaceId : string;
  WorkspaceRead_CustomerId : string;
  WorkspaceRead_OrganizationId : string;
  WorkspaceRead_Name : string;
  WorkspaceRead_Slug : string;
  WorkspaceRead_Tombstone : bool;
}.

Record WorkspaceReadListResponse := {
  Workspaces : list WorkspaceReadResponse;
}.

Record PermissionRead := {
  PermissionRead_PermissionID : string;
  PermissionRead_PermissionType : string;
  PermissionRead_UserID : string;
  PermissionRead_WorkspaceID : string;
  PermissionRead_OrganizationID : string;
}.

(** The two permission fields are pointers: [None] is [nil]. *)
Record WorkspaceUserAccessInfoReadResponse := {
  AccessInfo_UserID : string;
  AccessInfo_UserEmail : string;
  AccessInfo_UserName : string;
  AccessInfo_WorkspaceID : string;
  WorkspacePermission : option PermissionRead;
  OrganizationPermission : option PermissionRead;
}.

Record WorkspaceUserAccessInfoReadListResponse := {
  UsersWithAccess : list WorkspaceUserAccessInfoReadResponse;
}.

(* ===================================================================== *)
(** * Errors and results *)
(* ===================================================================== *)

(** A Go [error]: a message, possibly wrapping a cause ([%w]). *)
Inductive Error :=
| Err (msg : string)
| Wrap (context : string) (cause : Error).

(** The result of a function that returns [(T, error)]. *)
Inductive Res (A : Type) :=
| Ok (a : A)
| Fail (e : Error).
Arguments Ok {A} _.
Arguments Fail {A} _.

Definition is_ok {A} (r : Res A) : bool :=
  match r with Ok _ => true | Fail _ => false end.

(* ===================================================================== *)
(** * net/url: query strings *)
(* ===================================================================== *)

Module URL.

(** [url.URL], with the fields that [url.Parse] fills in. *)
Record URL := {
  Scheme : string;
  Opaque : string;
  Host : string;
  Path : string;
  RawQuery : string;
  Fragment : string;
}.

Definition ishex (c : ascii) : bool :=
  let n := nat_of_ascii c in
  (((48 <=? n) && (n <=? 57)) || ((97 <=? n) && (n <=? 102))
   || ((65 <=? n) && (n <=? 70)))%nat.

Definition unhex (c : ascii) : nat :=
  let n := nat_of_ascii c in
  if ((48 <=? n) && (n <=? 57))%nat then (n - 48)%nat
  else if ((97 <=? n) && (n <=? 102))%nat then (n - 97 + 10)%nat
  else if ((65 <=? n) && (n <=? 70))%nat then (n - 65 + 10)%nat
  else O.

(** [url.QueryUnescape]: [%XY] becomes the byte [XY], [+] a space; a [%]
    that is not followed by two hexadecimal digits is an error. *)
Fixpoint QueryUnescape (s : string) : option string :=
  match s with
  | EmptyString => Some EmptyString
  | String c rest =>
      if Ascii.eqb c "%" then
        match rest with
        | String a (String b rest') =>
            if ishex a && ishex b
            then String (ascii_of_nat (unhex a * 16 + unhex b)) <$> QueryUnescape rest'
            else None
        | _ => None
        end
      else if Ascii.eqb c "+" then String " " <$> QueryUnescape rest
      else String c <$> QueryUnescape rest
  end.

(** One [key=value] piece of a query, as [parseQuery] treats it: a piece
    with a semicolon, an empty piece, and a piece whose key or value does
    not unescape are dropped. *)
Definition parsePair (piece : string) : option (string * string) :=
  if GoStrings.ContainsByte ";" piece then None
  else if String.eqb piece "" then None
  else
    let '(key, value) :=
      match GoStrings.Cut "=" piece with
      | Some kv => kv
      | None => (piece, EmptyString)
      end in
    match QueryUnescape key with
    | None => None
    | Some key' =>
        match QueryUnescape value with
        | None => None
        | Some value' => Some (key', value')
        end
    end.

(** [url.Values], in the order the pairs were appended. *)
Definition Values := list (string * string).

(** [u.Query()]: [ParseQuery(u.RawQuery)] with its error discarded, so
    the accepted pairs are kept. *)
Definition Query (u : URL) : Values :=
  omap parsePair (GoStrings.Split "&" (RawQuery u)).

(** [Values.Get]: the first value of the key, or the empty string. *)
Fixpoint Get (v : Values) (key : string) : string :=
  match v with
  | [] => EmptyString
  | (k, x) :: rest => if String.eqb k key then x else Get rest key
  end.

End URL.

(* ===================================================================== *)
(** * baton-sdk value objects *)
(* ===================================================================== *)

(** [v2.ResourceType]: only its id is read by the connector. *)
Record ResourceType := { ResourceType_Id : string }.

Record ResourceId := {
  ResourceId_ResourceType : string;
  ResourceId_Resource : string;
}.

Inductive Annotation :=
| ChildResourceType (resourceTypeId : string)
| UserTrait (email : string) (profile : list (string * string)).

(** [v2.Resource]; [ParentResourceId] is a pointer, [None] is [nil]. *)
Record Resource := {
  Resource_Id : ResourceId;
  Resource_ParentResourceId : option ResourceId;
  Resource_DisplayName : string;
  Resource_Annotations : list Annotation;
}.

(** [v2.Entitlement] of kind permission. *)
Record Entitlement := {
  Entitlement_Resource : Resource;
  Entitlement_Slug : string;
  Entitlement_DisplayName : string;
  Entitlement_Description : string;
  Entitlement_GrantableTo : list ResourceType;
}.

(** [v2.Grant]: a principal holds the entitlement named by the permission
    on the resource. *)
Record Grant := {
  Grant_Resource : Resource;
  Grant_Entitlement : string;
  Grant_Principal : ResourceId;
}.

(** [pagination.PageState]. *)
Record PageState := {
  PageState_Token : string;
  PageState_ResourceTypeID : string;
  PageState_ResourceID : string;
}.

(** [pagination.Token]. *)
Record Token := { Token_Size : Z; Token_Token : string }.

Module rs.

(** Options of [rs.NewResource]. *)
Inductive ResourceOption :=
| WithAnnotation (a : Annotation)
| WithParentResourceID (parent : option ResourceId).

Definition applyOption (r : Resource) (o : ResourceOption) : Resource :=
  match o with
  | WithAnnotation a =>
      {| Resource_Id := Resource_Id r;
         Resource_ParentResourceId := Resource_ParentResourceId r;
         Resource_DisplayName := Resource_DisplayName r;
         Resource_Annotations := (Resource_Annotations r ++ [a])%list |}
  | WithParentResourceID parent =>
      {| Resource_Id := Resource_Id r;
         Resource_ParentResourceId := parent;
         Resource_DisplayName := Resource_DisplayName r;
         Resource_Annotations := Resource_Annotations r |}
  end.

(** [rs.NewResource(name, resourceType, objectID, opts...)] for a string
    object id: the resource id pairs the type id with the object id, and
    the options are applied in order. *)
Definition NewResource (name : string) (rt : ResourceType) (objectID : string)
    (opts : list ResourceOption) : Res Resource :=
  Ok (fold_left applyOption opts
        {| Resource_Id := {| ResourceId_ResourceType := ResourceType_Id rt;
                             ResourceId_Resource := objectID |};
           Resource_ParentResourceId := None;
           Resource_DisplayName := name;
           Resource_Annotations := [] |}).

(** [rs.NewUserResource]: a resource with a user trait annotation. *)
Definition NewUserResource (name : string) (rt : ResourceType) (objectID : string)
    (email : string) (profile : list (string * string)) : Res Resource :=
  NewResource name rt objectID [WithAnnotation (UserTrait email profile)].

End rs.

Module grant.
(** [grant.NewGrant(resource, entitlementName, principal)]. *)
Definition NewGrant (resource : Resource) (entitlementName : string)
    (principal : ResourceId) : Grant :=
  {| Grant_Resource := resource;
     Grant_Entitlement := entitlementName;
     Grant_Principal := principal |}.
End grant.

Module ent.
(** [ent.NewPermissionEntitlement] with the three options the connector
    passes. *)
Definition NewPermissionEntitlement (resource : Resource) (name : string)
    (grantableTo : ResourceType) (displayName description : string) : Entitlement :=
  {| Entitlement_Resource := resource;
     Entitlement_Slug := name;
     Entitlement_DisplayName := displayName;
     Entitlement_Description := description;
     Entitlement_GrantableTo := [grantableTo] |}.
End ent.

(* ===================================================================== *)
(** * Code outside the repository *)
(* ===================================================================== *)

(** Library functions the connector calls and whose code is not part of
    the repository, and the three resource types, which the repository
    declares in a file that is not among the sources. Every property below
    holds for any implementation of them. *)
Class Externals := {
  (** [url.Parse]; [None] when it returns an error. *)
  url_Parse : string -> option URL.URL;
  (** [base64.RawURLEncoding.DecodeString]. *)
  base64_RawURLEncoding_DecodeString : string -> Res (list Byte.byte);
  (** [json.Unmarshal] into a [JWTClaims]. *)
  json_Unmarshal_JWTClaims : list Byte.byte -> Res JWTClaims;
  (** [strings.ToLower]. *)
  strings_ToLower : string -> string;
  (** [pagination.Bag] and its methods. *)
  Bag : Type;
  Bag_Unmarshal : string -> Res Bag;
  Bag_Current : Bag -> option PageState;
  Bag_Push : PageState -> Bag -> Bag;
  Bag_PageToken : Bag -> string;
  Bag_NextToken : string -> Bag -> Res string;
  (** The resource types of the connector. *)
  organizationResourceType : ResourceType;
  workspaceResourceType : ResourceType;
  userResourceType : ResourceType;
}.

(* ===================================================================== *)
(** * The client and its environment *)
(* ===================================================================== *)

(** The resource paths of the Airbyte API (the constants of the client). *)
Inductive Endpoint :=
| getAccessTokenPath
| listWorkspacesPath
| listUsersPath
| listOrganizationsPath
| listPermissionsPath
| listWorkspacesByOrganizationPath
| listUsersWithAccessInfoPath.

#[global] Instance Endpoint_eq_dec : EqDecision Endpoint.
Proof. solve_decision. Defined.

(** The response struct a request to each path is decoded into. Slices of
    pointers are taken to hold no [nil]. *)
Definition RespT (e : Endpoint) : Type :=
  match e with
  | getAccessTokenPath => TokenResponse
  | listWorkspacesPath => APIResponse (list WorkspaceResponse)
  | listUsersPath => APIResponse (list User)
  | listOrganizationsPath => APIResponse (list Organization)
  | listPermissionsPath => APIResponse (list Permission)
  | listWorkspacesByOrganizationPath => WorkspaceReadListResponse
  | listUsersWithAccessInfoPath => WorkspaceUserAccessInfoReadListResponse
  end.

(** A value of a query or body parameter. *)
Inductive Param :=
| PStr (s : string)
| PUint (n : Z)
| PPagination (pageSize rowOffset : Z).

(** A request handed to the HTTP client. *)
Record Request := {
  Request_Method : string;
  Request_Path : Endpoint;
  Request_Query : list (string * Param);
  Request_Body : list (string * Param);
  Request_Authorization : option string;
}.

(** The world outside the process: what the HTTP client answers to the
    [k]-th request on each path (an error, or the decoded response), what
    the [k]-th reading of the clock gives, and the record of the requests
    made and clock readings taken so far. A run of the client against a
    server is a run in the world that lists the answers of that server and
    the readings of the clock in their order. *)
Record World := {
  replies : forall e : Endpoint, nat -> Res (RespT e);
  clock : nat -> Z;
  sent : list Request;
  ticks : nat;
}.

(** The number of requests made so far on a path. *)
Definition calls (e : Endpoint) (w : World) : nat :=
  length (filter (fun r => Request_Path r = e) (sent w)).

(** [airbyte.Client]; the HTTP client is part of the [World]. *)
Record Client := {
  baseURL : string;
  accessToken : string;
  clientID : string;
  clientSecret : string;
  tokenExpiry : Z;
}.

(** The state a call runs in. [workspacesWithOrgIDMap] is the package-level
    variable of the connector; a [nil] map reads like an empty one. *)
Record State := {
  st_client : Client;
  st_world : World;
  workspacesWithOrgIDMap : gmap string string;
}.

Definition set_client (c : Client) (s : State) : State :=
  {| st_client := c; st_world := st_world s;
     workspacesWithOrgIDMap := workspacesWithOrgIDMap s |}.

Definition set_world (w : World) (s : State) : State :=
  {| st_client := st_client s; st_world := w;
     workspacesWithOrgIDMap := workspacesWithOrgIDMap s |}.

Definition set_index (m : gmap string string) (s : State) : State :=
  {| st_client := st_client s; st_world := st_world s;
     workspacesWithOrgIDMap := m |}.

(** Computations that read and change the state and may fail; the state
    changes made before a failure stay. *)
Definition M (A : Type) : Type := State -> Res A * State.

Definition ret {A} (a : A) : M A := fun s => (Ok a, s).

Definition bind {A B} (m : M A) (k : A -> M B) : M B :=
  fun s =>
    match m s with
    | (Ok a, s') => k a s'
    | (Fail e, s') => (Fail e, s')
    end.

(** [if err != nil { return fmt.Errorf(context + ": %w", err) }]. *)
Definition wrapping {A} (context : string) (m : M A) : M A :=
  fun s =>
    match m s with
    | (Ok a, s') => (Ok a, s')
    | (Fail e, s') => (Fail (Wrap context e), s')
    end.

(** A library call that returns [(T, error)] and touches no state. *)
Definition lift {A} (r : Res A) : M A := fun s => (r, s).

Notation "'do' x <- m ; k" := (bind m (fun x => k))
  (at level 10, x name, m at level 100, k at level 200).

(** Durations are in nanoseconds, and a time is the nanoseconds from the
    Unix epoch to its instant. *)
Definition Second : Z := 1000000000.

(** The seconds from the year 1 to the Unix epoch ([unixToInternal] of
    package [time]). *)
Definition unixToInternal : Z := 62135596800.

(** The value an [int64] holds after a sum: the sum modulo [2^64], between
    [-2^63] and [2^63 - 1]. *)
Definition int64_wrap (z : Z) : Z := (z + 2 ^ 63) mod 2 ^ 64 - 2 ^ 63.

(** [time.Unix(sec, 0)]: the time keeps the seconds since the year 1 in
    an [int64], the sum [sec + unixToInternal], which wraps around; its
    instant is the one of the wrapped sum, and [After] compares these
    seconds. *)
Definition time_Unix (sec : Z) : Z :=
  (int64_wrap (sec + unixToInternal) - unixToInternal) * Second.

(** [time.Now()]: the next reading of the clock. *)
Definition time_Now (s : State) : Z * State :=
  let w := st_world s in
  (clock w (ticks w),
   set_world {| replies := replies w; clock := clock w;
                sent := sent w; ticks := S (ticks w) |} s).

(** [c.httpClient.NewRequest] followed by [c.httpClient.Do] with the
    response decoded into the struct of the path: the request is recorded
    and the world gives its outcome. *)
Definition httpDo (req : Request) : M (RespT (Request_Path req)) :=
  fun s =>
    let w := st_world s in
    (replies w (Request_Path req) (calls (Request_Path req) w),
     set_world {| replies := replies w; clock := clock w;
                  sent := (sent w ++ [req])%list; ticks := ticks w |} s).

Section Client.

Context `{Externals}.

(** [GetOffsetForTheNextPageFromURL]. *)
Definition GetOffsetForTheNextPageFromURL (urlPayload : string) : string :=
  if String.eqb urlPayload "" then ""
  else
    match url_Parse urlPayload with
    | None => ""
    | Some u =>
        let offset := URL.Get (URL.Query u) "offset" in
        if String.eqb offset "" then "" else offset
    end.

(** [doRequest] with [skipAuth] set: no authorization header. *)
Definition doRequest_skipAuth (method : string) (e : Endpoint)
    (query body : list (string * Param)) : M (RespT e) :=
  httpDo {| Request_Method := method; Request_Path := e;
            Request_Query := query; Request_Body := body;
            Request_Authorization := None |}.

(** The second half of [GetAccessToken]: the expiry is read from the
    claims, the middle one of the three parts of the token. *)
Definition parseJWTExpiry (tokenResp : TokenResponse) : Res (string * Z) :=
  let parts := GoStrings.Split "." (AccessToken tokenResp) in
  if negb (length parts =? 3)%nat then
    Fail (Err "invalid JWT token format")
  else
    match base64_RawURLEncoding_DecodeString (nth 1 parts "") with
    | Fail e => Fail (Wrap "error decoding JWT claims" e)
    | Ok claimsJSON =>
        match json_Unmarshal_JWTClaims claimsJSON with
        | Fail e => Fail (Wrap "error parsing JWT claims" e)
        | Ok claims =>
            let expiry := time_Unix (ExpiresAt claims) in
            Ok (AccessToken tokenResp, expiry)
        end
    end.

(** The request [GetAccessToken] makes. *)
Definition tokenRequest (c : Client) : Request :=
  {| Request_Method := "POST"; Request_Path := getAccessTokenPath;
     Request_Query := [];
     Request_Body := [("client_id", PStr (clientID c));
                      ("client_secret", PStr (clientSecret c));
                      ("grant_type", PStr "client_credentials")];
     Request_Authorization := None |}.

(** [GetAccessToken]: the token request skips authentication, which cuts
    the call cycle [doRequest], [ensureValidToken], [GetAccessToken]. *)
Definition GetAccessToken : M (string * Z) :=
  fun s =>
    (do tokenResp <- httpDo (tokenRequest (st_client s));
     lift (parseJWTExpiry tokenResp)) s.

(** [ensureValidToken]: [time.Now().Add(30*time.Second).After(c.tokenExpiry)]
    is [tokenExpiry < now + 30s]; the clock is read only when a token is
    held ([||] evaluates its right operand only then). *)
Definition ensureValidToken : M unit :=
  fun s =>
    let refresh : M unit :=
      do fresh <- GetAccessToken;
      fun s' =>
        let '(token, expiry) := fresh in
        let c := st_client s' in
        (Ok tt,
         set_client {| baseURL := baseURL c; accessToken := token;
                       clientID := clientID c; clientSecret := clientSecret c;
                       tokenExpiry := expiry |} s') in
    if String.eqb (accessToken (st_client s)) "" then refresh s
    else
      let '(now, s1) := time_Now s in
      if tokenExpiry (st_client s) <? now + 30 * Second
      then refresh s1
      else (Ok tt, s1).

(** [doRequest]. *)
Definition doRequest (method : string) (e : Endpoint)
    (query body : list (string * Param)) (skipAuth : bool) : M (RespT e) :=
  if skipAuth then doRequest_skipAuth method e query body
  else
    do _ <- ensureValidToken;
    fun s =>
      httpDo {| Request_Method := method; Request_Path := e;
                Request_Query := query; Request_Body := body;
                Request_Authorization :=
                  Some ("Bearer " ++ accessToken (st_client s)) |} s.

(** [ListAllWorkspaces]. *)
Definition ListAllWorkspaces (limit : Z) (offset : string)
    : M (list WorkspaceResponse * string) :=
  let offset := if String.eqb offset "" then "0" else offset in
  let queryParams := [("limit", PUint limit); ("offset", PStr offset)] in
  do resp <- doRequest "GET" listWorkspacesPath queryParams [] false;
  ret (Data resp, GetOffsetForTheNextPageFromURL (Next resp)).

(** [ListUsersByOrganization]. *)
Definition ListUsersByOrganization (orgId : string) : M (list User) :=
  let queryParams := [("organizationId", PStr orgId)] in
  do resp <- doRequest "GET" listUsersPath queryParams [] false;
  ret (Data resp).

(** [ListPermissionsByUserAndOrganization]: the path has no placeholder,
    so [buildResourceURL] uses neither path parameter. *)
Definition ListPermissionsByUserAndOrganization (userId orgId : string)
    : M (list Permission) :=
  do resp <- doRequest "GET" listPermissionsPath [] [] false;
  ret (Data resp).

(** [ListOrganizations]. *)
Definition ListOrganizations : M (list Organization) :=
  do resp <- doRequest "GET" listOrganizationsPath [] [] false;
  ret (Data resp).

(** [ListWorkspacesByOrganization]: [len] is not negative, so its
    conversion to [uint64] keeps the value; the sum is a [uint64] sum. *)
Definition ListWorkspacesByOrganization (orgId : string) (pageSize rowOffset : Z)
    : M (list WorkspaceReadResponse * Z) :=
  let body := [("organizationId", PStr orgId);
               ("pagination", PPagination pageSize rowOffset)] in
  do resp <- doRequest "POST" listWorkspacesByOrganizationPath [] body false;
  if Z.of_nat (length (Workspaces resp)) <? pageSize then
    ret (Workspaces resp, 0)
  else
    let nextRowOffset := uint64_add rowOffset pageSize in
    ret (Workspaces resp, nextRowOffset).

(** [ListUsersWithAccessInfoByWorkspace]. *)
Definition ListUsersWithAccessInfoByWorkspace (workspaceId : string)
    : M (list WorkspaceUserAccessInfoReadResponse) :=
  let body := [("workspaceId", PStr workspaceId)] in
  do resp <- doRequest "POST" listUsersWithAccessInfoPath [] body false;
  ret (UsersWithAccess resp).

End Client.

(* ===================================================================== *)
(** * Package connector *)
(* ===================================================================== *)

(** Computations with a loop whose number of rounds the code does not
    bound: [None] when the fuel given to the loop runs out. *)
Definition MF (A : Type) : Type := State -> option (Res A * State).

Definition liftM {A} (m : M A) : MF A := fun s => Some (m s).

Definition bindF {A B} (m : MF A) (k : A -> MF B) : MF B :=
  fun s =>
    match m s with
    | None => None
    | Some (Ok a, s') => k a s'
    | Some (Fail e, s') => Some (Fail e, s')
    end.

Definition wrappingF {A} (context : string) (m : MF A) : MF A :=
  fun s =>
    match m s with
    | None => None
    | Some (Ok a, s') => Some (Ok a, s')
    | Some (Fail e, s') => Some (Fail (Wrap context e), s')
    end.

Notation "'doF' x <- m ; k" := (bindF m (fun x => k))
  (at level 10, x name, m at level 100, k at level 200).

(** [fmt.Sprintf("%s %s", a, b)]. *)
Definition Sprintf_s_s (a b : string) : string := a ++ " " ++ b.

(** A [for ... range] loop whose body may fail (the function returns the
    error), skip the element ([continue]) or append to [rv]. *)
Fixpoint rangeAppend {A B} (body : A -> M (option B)) (l : list A) (rv : list B)
    : M (list B) :=
  match l with
  | [] => ret rv
  | x :: rest =>
      do r <- body x;
      rangeAppend body rest (match r with Some b => (rv ++ [b])%list | None => rv end)
  end.

Definition OrganizationAdmin := "organization_admin".
Definition OrganizationEditor := "organization_editor".
Definition OrganizationRunner := "organization_runner".
Definition OrganizationReader := "organization_reader".
Definition OrganizationMember := "organization_member".

Definition PublicOrganizationPermissionsTypes : list string :=
  [OrganizationAdmin; OrganizationEditor; OrganizationRunner;
   OrganizationReader; OrganizationMember].

Definition WorkspaceAdmin := "workspace_admin".
Definition WorkspaceEditor := "workspace_editor".
Definition WorkspaceRunner := "workspace_runner".
Definition WorkspaceReader := "workspace_reader".

Definition PublicWorkspacePermissionsTypes : list string :=
  [WorkspaceAdmin; WorkspaceEditor; WorkspaceRunner; WorkspaceReader].

Definition ResourcesPageSize : Z := 50.

Section Connector.

Context `{Externals}.

(** [parsePageToken]. *)
Definition parsePageToken (pagToken : Token) (resourceID : ResourceId)
    : Res (Bag * string) :=
  match Bag_Unmarshal (Token_Token pagToken) with
  | Fail e => Fail e
  | Ok bag =>
      let bag :=
        match Bag_Current bag with
        | None =>
            Bag_Push {| PageState_Token := "";
                        PageState_ResourceTypeID := ResourceId_ResourceType resourceID;
                        PageState_ResourceID := ResourceId_Resource resourceID |} bag
        | Some _ => bag
        end in
      Ok (bag, Bag_PageToken bag)
  end.

(** ** Users *)

(** [userResource]. *)
Definition userResource (user : User) : Res Resource :=
  let profile := [("name", User_Name user); ("email", User_Email user)] in
  rs.NewUserResource (User_Email user) userResourceType (User_ID user)
    (User_Email user) profile.



(** [userBuilder.Entitlements] and [userBuilder.Grants]. *)
Definition userBuilder_Entitlements (resource : Resource) (_ : Token)
    : M (list Entitlement * string) := ret ([], "").

Definition userBuilder_Grants (resource : Resource) (_ : Token)
    : M (list Grant * string) := ret ([], "").

(** ** Organizations *)

(** [orgResource]. *)
Definition orgResource (org : Organization) : Res Resource :=
  rs.NewResource (Organization_Name org) organizationResourceType
    (Organization_ID org) [].

(** The loop of [orgBuilder.List]. *)
Fixpoint orgResources (orgs : list Organization) (resources : list Resource)
    : Res (list Resource) :=
  match orgs with
  | [] => Ok resources
  | org :: rest =>
      let org := {| Organization_ID := Organization_ID org;
                    Organization_Name := Organization_Name org;
                    Organization_Email := "" |} in
      match orgResource org with
      | Fail e =>
          Fail (Wrap ("failed to create resource for organization "
                      ++ Organization_Name org) e)
      | Ok resource => orgResources rest (resources ++ [resource])%list
      end
  end.

(** [orgBuilder.List]. *)
Definition orgBuilder_List (_ : option ResourceId) (_ : Token)
    : M (list Resource * string) :=
  do orgs <- wrapping "airbyte-connector: failed to list organizations"
               ListOrganizations;
  do resources <- lift (orgResources orgs []);
  ret (resources, "").

(** [orgBuilder.Entitlements]. *)
Definition orgBuilder_Entitlements (resource : Resource) (_ : Token)
    : M (list Entitlement * string) :=
  ret (map (fun permissionType =>
              ent.NewPermissionEntitlement resource permissionType
                userResourceType
                (Sprintf_s_s (Resource_DisplayName resource) permissionType)
                (permissionType ++ " role in " ++ Resource_DisplayName resource
                 ++ " Airbyte organization"))
           PublicOrganizationPermissionsTypes, "").

(** The search of [getOrganizationPermissionType]. *)
Fixpoint findOrganizationPermission (organizationID : string)
    (allPermissions : list Permission) : string :=
  match allPermissions with
  | [] => ""
  | permission :: rest =>
      if String.eqb (Permission_Scope permission) "organization"
         && String.eqb (Permission_ScopeID permission) organizationID
      then strings_ToLower (Permission_PermissionType permission)
      else findOrganizationPermission organizationID rest
  end.

(** [getOrganizationPermissionType]. *)
Definition getOrganizationPermissionType (userID organizationID : string)
    : M string :=
  do permissions <-
    wrapping ("airbyte-connector: failed to list permissions for user " ++ userID)
      (ListPermissionsByUserAndOrganization userID organizationID);
  let allPermissions := ([] ++ permissions)%list in
  ret (findOrganizationPermission organizationID allPermissions).

(** The body of the loop of [orgBuilder.Grants]. *)
Definition orgGrant (resource : Resource) (user : User) : M (option Grant) :=
  let orgID := ResourceId_Resource (Resource_Id resource) in
  do permissionType <-
    wrapping ("airbyte-connector: failed to get permission type for user "
              ++ User_ID user ++ " under organization " ++ orgID)
      (getOrganizationPermissionType (User_ID user) orgID);
  if negb (GoStrings.Contains PublicOrganizationPermissionsTypes permissionType)
  then ret None
  else
    do userResource <- lift (userResource user);
    ret (Some (grant.NewGrant resource permissionType (Resource_Id userResource))).

(** [orgBuilder.Grants]. *)
Definition orgBuilder_Grants (resource : Resource) (_ : Token)
    : M (list Grant * string) :=
  let orgID := ResourceId_Resource (Resource_Id resource) in
  do users <-
    wrapping ("airbyte-connector: failed to list users under organization " ++ orgID)
      (ListUsersByOrganization orgID);
  do rv <- rangeAppend (orgGrant resource) users [];
  ret (rv, "").

(** ** Workspaces *)

(** [workspaceResource]. *)
Definition workspaceResource (workspace : Workspace)
    (parentResourceID : option ResourceId) : Res Resource :=
  rs.NewResource (Workspace_Name workspace) workspaceResourceType
    (Workspace_ID workspace)
    [rs.WithAnnotation (ChildResourceType (ResourceType_Id userResourceType));
     rs.WithParentResourceID parentResourceID].

(** The inner loop of [getAllWorkspacesWithParentOrganizationID]: the
    pages of one organization, from [rowOffset] on. *)
Fixpoint listOrganizationWorkspaces (fuel : nat) (orgID : string) (rowOffset : Z)
    (all : list Workspace) : MF (list Workspace) :=
  match fuel with
  | O => fun _ => None
  | S fuel' =>
      doF page <-
        liftM (wrapping "airbyte-connector: failed to list workspaces"
                 (ListWorkspacesByOrganization orgID ResourcesPageSize rowOffset));
      let '(listWorkspaceReadResponse, nextRowOffset) := page in
      let all :=
        (all ++ map (fun workspaceReadResponse =>
                      {| Workspace_ID := WorkspaceRead_WorkspaceId workspaceReadResponse;
                         Workspace_OrganizationId :=
                           WorkspaceRead_OrganizationId workspaceReadResponse;
                         Workspace_Name := WorkspaceRead_Name workspaceReadResponse |})
                   listWorkspaceReadResponse)%list in
      if nextRowOffset =? 0 then liftM (ret all)
      else listOrganizationWorkspaces fuel' orgID nextRowOffset all
  end.

(** The outer loop of [getAllWorkspacesWithParentOrganizationID]. *)
Fixpoint listAllOrganizationsWorkspaces (fuel : nat) (orgs : list Organization)
    (all : list Workspace) : MF (list Workspace) :=
  match orgs with
  | [] => liftM (ret all)
  | org :: rest =>
      doF all <- listOrganizationWorkspaces fuel (Organization_ID org) 0 all;
      listAllOrganizationsWorkspaces fuel rest all
  end.

(** [getAllWorkspacesWithParentOrganizationID]; [fuel] bounds the number
    of pages read for one organization. *)
Definition getAllWorkspacesWithParentOrganizationID (fuel : nat)
    : MF (list Workspace) :=
  doF orgs <- liftM (wrapping "airbyte-connector: failed to list organizations"
                       ListOrganizations);
  listAllOrganizationsWorkspaces fuel orgs [].

(** The loop of [workspaceBuilder.List] that fills the index. *)
Definition populateIndex (all : list Workspace) (m : gmap string string)
    : gmap string string :=
  fold_left (fun m w =>
               if negb (String.eqb (Workspace_OrganizationId w) "")
               then <[Workspace_ID w := Workspace_OrganizationId w]> m
               else m)
            all m.

(** The parent a workspace gets in [workspaceBuilder.List]. *)
Definition parentOf (index : gmap string string) (wsID : string) : option ResourceId :=
  match index !! wsID with
  | Some orgID =>
      if negb (String.eqb orgID "")
      then Some {| ResourceId_ResourceType := ResourceType_Id organizationResourceType;
                   ResourceId_Resource := orgID |}
      else Some {| ResourceId_ResourceType := ResourceType_Id organizationResourceType;
                   ResourceId_Resource := "unknown-parent" |}
  | None =>
      Some {| ResourceId_ResourceType := ResourceType_Id organizationResourceType;
              ResourceId_Resource := "unknown-parent" |}
  end.

(** The loop of [workspaceBuilder.List] over the listed workspaces. *)
Fixpoint workspaceResources (index : gmap string string)
    (l : list WorkspaceResponse) (resources : list Resource) : Res (list Resource) :=
  match l with
  | [] => Ok resources
  | ws :: rest =>
      let parentResourceID := parentOf index (WorkspaceResponse_ID ws) in
      let workspace :=
        {| Workspace_ID := WorkspaceResponse_ID ws;
           Workspace_OrganizationId :=
             match index !! WorkspaceResponse_ID ws with
             | Some orgID => if negb (String.eqb orgID "") then orgID else ""
             | None => ""
             end;
           Workspace_Name := WorkspaceResponse_Name ws |} in
      match workspaceResource workspace parentResourceID with
      | Fail e =>
          Fail (Wrap ("failed to create resource for workspace "
                      ++ Workspace_Name workspace) e)
      | Ok resource => workspaceResources index rest (resources ++ [resource])%list
      end
  end.

(** [workspaceBuilder.List]. *)
Definition workspaceBuilder_List (fuel : nat) (_ : option ResourceId) (pToken : Token)
    : MF (list Resource * string) :=
  doF _ <-
    (if String.eqb (Token_Token pToken) "" then
       doF _ <- liftM (fun s => (Ok tt, set_index ∅ s));
       doF allWorkspacesWithParentOrganizationID <-
         wrappingF "airbyte-connector: getAllWorkspacesWithParentOrganizationID > failed to list workspaces"
           (getAllWorkspacesWithParentOrganizationID fuel);
       liftM (fun s =>
                (Ok tt,
                 set_index (populateIndex allWorkspacesWithParentOrganizationID
                              (workspacesWithOrgIDMap s)) s))
     else liftM (ret tt));
  liftM
    (do parsed <-
       lift (parsePageToken pToken
               {| ResourceId_ResourceType := ResourceType_Id workspaceResourceType;
                  ResourceId_Resource := "" |});
     let '(bag, offsetForCurrentPage) := parsed in
     do listed <-
       wrapping "airbyte-connector: ListAllWorkspaces > failed to list workspaces"
         (ListAllWorkspaces ResourcesPageSize offsetForCurrentPage);
     let '(listWorkspaceResponse, offsetForNextPage) := listed in
     do next <- lift (Bag_NextToken offsetForNextPage bag);
     fun s =>
       (do resources <-
          lift (workspaceResources (workspacesWithOrgIDMap s) listWorkspaceResponse []);
        ret (resources, next)) s).

(** [workspaceBuilder.Entitlements]. *)
Definition workspaceBuilder_Entitlements (resource : Resource) (_ : Token)
    : M (list Entitlement * string) :=
  ret (map (fun permissionType =>
              ent.NewPermissionEntitlement resource permissionType
                workspaceResourceType
                (Sprintf_s_s (Resource_DisplayName resource) permissionType)
                (permissionType ++ " role in " ++ Resource_DisplayName resource
                 ++ " Airbyte workspace"))
           PublicWorkspacePermissionsTypes, "").

(** The table of [workspaceBuilder.Grants] from organization permissions
    to workspace permissions. *)
Definition orgToWorkspacePermMap : gmap string string :=
  <["organization_admin" := WorkspaceAdmin]>
    (<["organization_editor" := WorkspaceEditor]>
       (<["organization_runner" := WorkspaceRunner]>
          (<["organization_reader" := WorkspaceReader]> ∅))).

(** The permission type [workspaceBuilder.Grants] resolves for one user:
    the workspace permission when there is one, else the organization
    permission translated by the table, else the empty string. *)
Definition resolvePermissionType (userResponse : WorkspaceUserAccessInfoReadResponse)
    : string :=
  match WorkspacePermission userResponse with
  | Some wp => strings_ToLower (PermissionRead_PermissionType wp)
  | None =>
      match OrganizationPermission userResponse with
      | Some op =>
          let orgPermType := strings_ToLower (PermissionRead_PermissionType op) in
          match orgToWorkspacePermMap !! orgPermType with
          | Some mappedPerm => mappedPerm
          | None => ""
          end
      | None => ""
      end
  end.

(** The body of the loop of [workspaceBuilder.Grants]. *)
Definition workspaceGrant (resource : Resource)
    (userResponse : WorkspaceUserAccessInfoReadResponse) : M (option Grant) :=
  let permissionType := resolvePermissionType userResponse in
  if negb (GoStrings.Contains PublicWorkspacePermissionsTypes permissionType)
     && negb (GoStrings.Contains PublicOrganizationPermissionsTypes permissionType)
  then ret None
  else
    let user := {| User_ID := AccessInfo_UserID userResponse;
                   User_Email := AccessInfo_UserEmail userResponse;
                   User_Name := AccessInfo_UserName userResponse |} in
    do userResource <- lift (userResource user);
    ret (Some (grant.NewGrant resource permissionType (Resource_Id userResource))).

(** [workspaceBuilder.Grants]. *)
Definition workspaceBuilder_Grants (resource : Resource) (_ : Token)
    : M (list Grant * string) :=
  let wsID := ResourceId_Resource (Resource_Id resource) in
  do listUserswithaccessInfoResponse <-
    wrapping ("airbyte-connector: failed to list users under workspace " ++ wsID)
      (ListUsersWithAccessInfoByWorkspace wsID);
  do rv <- rangeAppend (workspaceGrant resource) listUserswithaccessInfoResponse [];
  ret (rv, "").

End Connector.

(* ===================================================================== *)
(** * An executable instance of the library functions *)
(* ===================================================================== *)

(** The properties of the connector are proved for every instance of
    [Externals]. To run the code on concrete inputs, this module gives one
    instance, written after Go 1.22's [net/url] and [encoding/base64]; its
    JSON reader and its pagination bag cover what the examples need. *)
Module GoModel.

Import GoStrings.

Definition isLetter (c : ascii) : bool :=
  let n := nat_of_ascii c in
  (((97 <=? n) && (n <=? 122)) || ((65 <=? n) && (n <=? 90)))%nat.

Definition isDigit (c : ascii) : bool :=
  let n := nat_of_ascii c in ((48 <=? n) && (n <=? 57))%nat.

Fixpoint all_bytes (p : ascii -> bool) (s : string) : bool :=
  match s with
  | EmptyString => true
  | String a rest => p a && all_bytes p rest
  end.

(** [stringContainsCTLByte]. *)
Definition isCTL (c : ascii) : bool :=
  let n := nat_of_ascii c in ((n <? 32) || (n =? 127))%nat.

(** The scan of [getScheme]: the scheme and what follows its colon, or
    [None] when the text has no scheme. *)
Fixpoint scanScheme (first : bool) (s : string) : option (string * string) :=
  match s with
  | EmptyString => None
  | String c rest =>
      if isLetter c || (negb first && (isDigit c || ContainsByte c "+-."))
      then match scanScheme false rest with
           | Some (scheme, after) => Some (String c scheme, after)
           | None => None
           end
      else if negb first && Ascii.eqb c ":" then Some (EmptyString, rest)
      else None
  end.

(** [strings.LastIndex] for one byte, as a cut. *)
Fixpoint CutLast (sep : ascii) (s : string) : option (string * string) :=
  match s with
  | EmptyString => None
  | String a rest =>
      match CutLast sep rest with
      | Some (before, after) => Some (String a before, after)
      | None => if Ascii.eqb a sep then Some (EmptyString, rest) else None
      end
  end.

(** Every [%] is followed by two hexadecimal digits. *)
Fixpoint escapesOK (s : string) : bool :=
  match s with
  | EmptyString => true
  | String "%" (String a (String b rest)) =>
      URL.ishex a && URL.ishex b && escapesOK rest
  | String "%" _ => false
  | String _ rest => escapesOK rest
  end.

(** [shouldEscape(c, encodeHost)]. *)
Definition shouldEscapeHost (c : ascii) : bool :=
  negb (isLetter c || isDigit c
        || ContainsByte c "!$&'()*+,;=:[]<>"
        || Ascii.eqb c (ascii_of_nat 34)
        || ContainsByte c "-_.~").

(** The bytes [unescape] accepts in a host. *)
Fixpoint hostBytesOK (s : string) : bool :=
  match s with
  | EmptyString => true
  | String "%" (String a (String b rest)) =>
      URL.ishex a && URL.ishex b
      && ((8 <=? URL.unhex a)%nat || (Ascii.eqb a "2" && Ascii.eqb b "5"))
      && hostBytesOK rest
  | String "%" _ => false
  | String c rest =>
      negb ((nat_of_ascii c <? 128)%nat && shouldEscapeHost c) && hostBytesOK rest
  end.

(** [validOptionalPort] on the text after the colon. *)
Definition validPortDigits (p : string) : bool := all_bytes isDigit p.

(** [parseHost]; zone identifiers are read like the rest of the host. *)
Definition parseHostOK (host : string) : bool :=
  (if HasPrefix host "[" then
     match CutLast "]" host with
     | None => false
     | Some (_, EmptyString) => true
     | Some (_, String c port) => Ascii.eqb c ":" && validPortDigits port
     end
   else
     match CutLast ":" host with
     | None => true
     | Some (_, port) => validPortDigits port
     end)
  && hostBytesOK host.

(** [validUserinfo]. *)
Definition validUserinfo (s : string) : bool :=
  all_bytes (fun c => isLetter c || isDigit c
                      || ContainsByte c "-._:~!$&'()*+,;=%@") s.

(** [parseAuthority], as a check. *)
Definition parseAuthorityOK (authority : string) : bool :=
  match CutLast "@" authority with
  | None => parseHostOK authority
  | Some (userinfo, host) =>
      parseHostOK host && validUserinfo userinfo && escapesOK userinfo
  end.

(** The text before the first [/], and the text from it on. *)
Fixpoint splitAtSlash (s : string) : string * string :=
  match s with
  | EmptyString => (EmptyString, EmptyString)
  | String a rest =>
      if Ascii.eqb a "/" then (EmptyString, s)
      else let '(before, after) := splitAtSlash rest in (String a before, after)
  end.

Definition dropLast (s : string) : string :=
  String.substring 0 (String.length s - 1) s.

(** [url.Parse]. *)
Definition Parse (rawURL : string) : option URL.URL :=
  let '(u, frag) :=
    match Cut "#" rawURL with Some p => p | None => (rawURL, EmptyString) end in
  if negb (all_bytes (fun c => negb (isCTL c)) u) then None
  else if String.eqb u "*" then
    if escapesOK frag
    then Some {| URL.Scheme := ""; URL.Opaque := ""; URL.Host := "";
                 URL.Path := "*"; URL.RawQuery := ""; URL.Fragment := frag |}
    else None
  else
    match u with
    | String ":" _ => None
    | _ =>
        let '(scheme, rest) :=
          match scanScheme true u with
          | Some p => p
          | None => (EmptyString, u)
          end in
        let scheme := ToLowerASCII scheme in
        let '(rest, rawQuery) :=
          if String.eqb (String.substring (String.length rest - 1) 1 rest) "?"
             && (CountByte "?" rest =? 1)%nat
          then (dropLast rest, EmptyString)
          else match Cut "?" rest with
               | Some p => p
               | None => (rest, EmptyString)
               end in
        if negb (HasPrefix rest "/") && negb (String.eqb scheme "") then
          if escapesOK frag
          then Some {| URL.Scheme := scheme; URL.Opaque := rest; URL.Host := "";
                       URL.Path := ""; URL.RawQuery := rawQuery;
                       URL.Fragment := frag |}
          else None
        else if negb (HasPrefix rest "/")
                && ContainsByte ":" (fst (splitAtSlash rest)) then None
        else
          let '(authority, path) :=
            if HasPrefix rest "//"
               && (negb (String.eqb scheme "") || negb (HasPrefix rest "///"))
            then
              let '(a, p) :=
                splitAtSlash (String.substring 2 (String.length rest - 2) rest) in
              (Some a, p)
            else (None, rest) in
          if match authority with
             | Some a => parseAuthorityOK a
             | None => true
             end
             && escapesOK path && escapesOK frag
          then Some {| URL.Scheme := scheme; URL.Opaque := "";
                       URL.Host := match authority with
                                   | Some a => match CutLast "@" a with
                                               | Some (_, h) => h
                                               | None => a
                                               end
                                   | None => ""
                                   end;
                       URL.Path := path; URL.RawQuery := rawQuery;
                       URL.Fragment := frag |}
          else None
    end.

(** The value of a byte in the URL-safe base64 alphabet. *)
Definition base64url_value (c : ascii) : option N :=
  let n := N_of_ascii c in
  if ((65 <=? n) && (n <=? 90))%N then Some (n - 65)%N
  else if ((97 <=? n) && (n <=? 122))%N then Some (n - 97 + 26)%N
  else if ((48 <=? n) && (n <=? 57))%N then Some (n - 48 + 52)%N
  else if (n =? 45)%N then Some 62%N
  else if (n =? 95)%N then Some 63%N
  else None.

(** The 6-bit values of the text; carriage returns and line feeds are
    skipped, any other byte outside the alphabet is an error. *)
Fixpoint base64url_values (s : string) : option (list N) :=
  match s with
  | EmptyString => Some []
  | String c rest =>
      if (N_of_ascii c =? 10)%N || (N_of_ascii c =? 13)%N
      then base64url_values rest
      else match base64url_value c, base64url_values rest with
           | Some v, Some vs => Some (v :: vs)
           | _, _ => None
           end
  end.

Definition byte_of_N (n : N) : Byte.byte :=
  byte_of_ascii (ascii_of_N (n mod 256)).

(** Four values give three bytes; two values at the end give one byte
    and three give two; one value alone is an error. *)
Fixpoint base64_bytes (fuel : nat) (vs : list N) : option (list Byte.byte) :=
  match fuel with
  | O => None
  | S fuel' =>
      match vs with
      | [] => Some []
      | [_] => None
      | [a; b] => Some [byte_of_N (a * 4 + b / 16)]
      | [a; b; c] =>
          Some [byte_of_N (a * 4 + b / 16); byte_of_N ((b mod 16) * 16 + c / 4)]
      | a :: b :: c :: d :: rest =>
          match base64_bytes fuel' rest with
          | Some bytes =>
              Some (byte_of_N (a * 4 + b / 16)
                    :: byte_of_N ((b mod 16) * 16 + c / 4)
                    :: byte_of_N ((c mod 4) * 64 + d) :: bytes)
          | None => None
          end
      end
  end.

(** [base64.RawURLEncoding.DecodeString]. *)
Definition DecodeString (s : string) : Res (list Byte.byte) :=
  match base64url_values s with
  | None => Fail (Err "illegal base64 data")
  | Some vs =>
      match base64_bytes (S (length vs)) vs with
      | Some bytes => Ok bytes
      | None => Fail (Err "illegal base64 data")
      end
  end.

(** The decimal number a text of digits denotes. *)
Fixpoint decimal (acc : Z) (s : string) : option Z :=
  match s with
  | EmptyString => Some acc
  | String c rest =>
      if isDigit c then decimal (acc * 10 + Z.of_nat (nat_of_ascii c - 48)) rest
      else None
  end.

(** A reader for claims of the one form [{"exp":N}], [N] in decimal
    digits; any other text is an error. *)
Definition UnmarshalClaims (data : list Byte.byte) : Res JWTClaims :=
  let text := string_of_list_byte data in
  let opening := String "{" (String (ascii_of_nat 34)
                   ("exp" ++ String (ascii_of_nat 34) ":")) in
  if HasPrefix text opening
     && String.eqb (String.substring (String.length text - 1) 1 text) "}"
  then
    let digits :=
      String.substring (String.length opening)
        (String.length text - String.length opening - 1) text in
    match digits, decimal 0 digits with
    | String _ _, Some n =>
        Ok {| Issuer := ""; Subject := ""; ExpiresAt := n; Roles := [] |}
    | _, _ => Fail (Err "invalid claims")
    end
  else Fail (Err "invalid claims").

(** A pagination bag that carries the page token as it is: a stack of
    page states, the token of the top state being the token handed out. *)
Definition SimpleBag := list PageState.

Definition SimpleBag_Unmarshal (token : string) : Res SimpleBag :=
  if String.eqb token "" then Ok []
  else Ok [{| PageState_Token := token; PageState_ResourceTypeID := "";
              PageState_ResourceID := "" |}].

Definition SimpleBag_PageToken (b : SimpleBag) : string :=
  match b with
  | [] => ""
  | top :: _ => PageState_Token top
  end.

Definition SimpleBag_NextToken (pageToken : string) (b : SimpleBag) : Res string :=
  Ok pageToken.

#[global] Instance externals : Externals := {|
  url_Parse := Parse;
  base64_RawURLEncoding_DecodeString := DecodeString;
  json_Unmarshal_JWTClaims := UnmarshalClaims;
  strings_ToLower := ToLowerASCII;
  Bag := SimpleBag;
  Bag_Unmarshal := SimpleBag_Unmarshal;
  Bag_Current := head;
  Bag_Push := cons;
  Bag_PageToken := SimpleBag_PageToken;
  Bag_NextToken := SimpleBag_NextToken;
  organizationResourceType := {| ResourceType_Id := "organization" |};
  workspaceResourceType := {| ResourceType_Id := "workspace" |};
  userResourceType := {| ResourceType_Id := "user" |};
|}.

End GoModel.


(* ===================================================================== *)
(** * Vocabulary of the specification *)
(* ===================================================================== *)

(** The time the next reading of the clock gives. *)
Definition currentTime (s : State) : Z := clock (st_world s) (ticks (st_world s)).

(** The outcome of the next request on a path. *)
Definition nextReply (e : Endpoint) (s : State) : Res (RespT e) :=
  replies (st_world s) e (calls e (st_world s)).

(** The requests made so far. *)
Definition requests (s : State) : list Request := sent (st_world s).

(** The stored credential. *)
Definition credential (s : State) : string * Z :=
  (accessToken (st_client s), tokenExpiry (st_client s)).

(** The outcome of the request on a path that comes [n] requests after
    the next one. *)
Definition replyAhead (e : Endpoint) (n : nat) (s : State) : Res (RespT e) :=
  replies (st_world s) e (calls e (st_world s) + n).

(** A page of the workspaces of an organization is short when it has
    strictly fewer items than the page size asked for. *)
Definition shortPage (pageSize : Z) (page : list WorkspaceReadResponse) : Prop :=
  Z.of_nat (length page) < pageSize.

(** The workspaces the loop of [getAllWorkspacesWithParentOrganizationID]
    appends for a page. *)
Definition workspacesOfPage (page : list WorkspaceReadResponse) : list Workspace :=
  map (fun workspaceReadResponse =>
         {| Workspace_ID := WorkspaceRead_WorkspaceId workspaceReadResponse;
            Workspace_OrganizationId := WorkspaceRead_OrganizationId workspaceReadResponse;
            Workspace_Name := WorkspaceRead_Name workspaceReadResponse |})
      page.

(** The resource [workspaceBuilder.List] builds for a listed workspace. *)
Definition workspaceResourceOf `{Externals} (index : gmap string string)
    (ws : WorkspaceResponse) : Resource :=
  {| Resource_Id := {| ResourceId_ResourceType := ResourceType_Id workspaceResourceType;
                       ResourceId_Resource := WorkspaceResponse_ID ws |};
     Resource_ParentResourceId := parentOf index (WorkspaceResponse_ID ws);
     Resource_DisplayName := WorkspaceResponse_Name ws;
     Resource_Annotations := [ChildResourceType (ResourceType_Id userResourceType)] |}.

(** The id of the user resource of an access record. *)
Definition principalOf `{Externals} (u : WorkspaceUserAccessInfoReadResponse)
    : ResourceId :=
  {| ResourceId_ResourceType := ResourceType_Id userResourceType;
     ResourceId_Resource := AccessInfo_UserID u |}.

(** The grant [workspaceBuilder.Grants] emits for an access record, if it
    emits one. *)
Definition workspaceGrantOf `{Externals} (resource : Resource)
    (u : WorkspaceUserAccessInfoReadResponse) : option Grant :=
  let permissionType := resolvePermissionType u in
  if GoStrings.Contains PublicWorkspacePermissionsTypes permissionType
     || GoStrings.Contains PublicOrganizationPermissionsTypes permissionType
  then Some (grant.NewGrant resource permissionType (principalOf u))
  else None.

(** The world goes on answering the calls for the workspaces of an
    organization so that a short page comes after any number of pages. *)
Definition shortPagesRecur (s : State) : Prop :=
  forall k : nat, exists n resp,
    replies (st_world s) listWorkspacesByOrganizationPath (k + n)%nat = Ok resp
    /\ shortPage ResourcesPageSize (Workspaces resp).

(** The most elements a Go slice holds: its length is an [int], of 64
    bits at most. *)
Definition maxSliceLen : Z := 2 ^ 63 - 1.

(** A token whose expiry cannot be read: it does not split into exactly
    three parts at the dots, or its middle part is not decoded, or the
    decoded claims are not parsed. *)
Definition malformed `{Externals} (t : TokenResponse) : Prop :=
  let parts := GoStrings.Split "." (AccessToken t) in
  length parts <> 3%nat
  \/ (exists e, base64_RawURLEncoding_DecodeString (nth 1 parts "") = Fail e)
  \/ (exists claimsJSON e,
         base64_RawURLEncoding_DecodeString (nth 1 parts "") = Ok claimsJSON
         /\ json_Unmarshal_JWTClaims claimsJSON = Fail e).

(* ===================================================================== *)
(** * Scenarios *)
(* ===================================================================== *)

(** Concrete clients and worlds, on which the code is run with the
    library functions of [GoModel]. *)
Module Scenario.

(** A path on which every request fails. *)
Definition noReply {A : Type} : nat -> Res A :=
  fun _ => Fail (Err "no reply").

(** A world given by its replies on each path. *)
Definition answers
    (tokens : nat -> Res TokenResponse)
    (workspaces : nat -> Res (APIResponse (list WorkspaceResponse)))
    (users : nat -> Res (APIResponse (list User)))
    (organizations : nat -> Res (APIResponse (list Organization)))
    (permissions : nat -> Res (APIResponse (list Permission)))
    (byOrganization : nat -> Res WorkspaceReadListResponse)
    (access : nat -> Res WorkspaceUserAccessInfoReadListResponse)
    : forall e : Endpoint, nat -> Res (RespT e) :=
  fun e =>
    match e with
    | getAccessTokenPath => tokens
    | listWorkspacesPath => workspaces
    | listUsersPath => users
    | listOrganizationsPath => organizations
    | listPermissionsPath => permissions
    | listWorkspacesByOrganizationPath => byOrganization
    | listUsersWithAccessInfoPath => access
    end.

(** The clock stands at 1600000000 seconds after the epoch. *)
Definition clockTime : Z := time_Unix 1600000000.

(** A token of three parts whose claims are [{"exp":1700000000}], and a
    token of two parts. *)
Definition tokenText : string := "h.eyJleHAiOjE3MDAwMDAwMDB9.s".
Definition twoParts : string := "h.eyJleHAiOjE3MDAwMDAwMDB9".

Definition clientWith (token : string) (expiry : Z) : Client :=
  {| baseURL := "https://airbyte.example"; accessToken := token;
     clientID := "id"; clientSecret := "secret"; tokenExpiry := expiry |}.

(** A client that holds no token, and one that holds a token that expires
    long after [clockTime]. *)
Definition signedOut : Client := clientWith "" 0.
Definition signedIn : Client := clientWith tokenText (time_Unix 1700000000).

Definition start (c : Client) (world : forall e : Endpoint, nat -> Res (RespT e))
    : State :=
  {| st_client := c;
     st_world := {| replies := world; clock := fun _ => clockTime;
                    sent := []; ticks := 0 |};
     workspacesWithOrgIDMap := ∅ |}.

Definition tokenWorld (token : string) : forall e : Endpoint, nat -> Res (RespT e) :=
  answers (fun _ => Ok {| AccessToken := token |})
          noReply noReply noReply noReply noReply noReply.

Definition readWorkspace (id org : string) : WorkspaceReadResponse :=
  {| WorkspaceRead_WorkspaceId := id; WorkspaceRead_CustomerId := "";
     WorkspaceRead_OrganizationId := org; WorkspaceRead_Name := id;
     WorkspaceRead_Slug := id; WorkspaceRead_Tombstone := false |}.

(** A world whose replies for the workspaces of an organization are the
    given pages, one after the other, and empty pages after them. *)
Definition pagesWorld (pages : list (list WorkspaceReadResponse))
    : forall e : Endpoint, nat -> Res (RespT e) :=
  answers (fun _ => Ok {| AccessToken := tokenText |})
          noReply noReply noReply noReply
          (fun k => Ok {| Workspaces := nth k pages [] |})
          noReply.

Definition fullPage : list WorkspaceReadResponse :=
  repeat (readWorkspace "W" "O1") 50.

Definition shortPageOf3 : list WorkspaceReadResponse :=
  repeat (readWorkspace "W" "O1") 3.

(** Two organizations; the first has the workspace W1, the second has
    none; the listing of all workspaces has W1 and W2. *)
Definition twoOrganizations : forall e : Endpoint, nat -> Res (RespT e) :=
  answers (fun _ => Ok {| AccessToken := tokenText |})
          (fun _ => Ok {| Data := [{| WorkspaceResponse_ID := "W1";
                                      WorkspaceResponse_Name := "one";
                                      WorkspaceResponse_DataResidency := "" |};
                                   {| WorkspaceResponse_ID := "W2";
                                      WorkspaceResponse_Name := "two";
                                      WorkspaceResponse_DataResidency := "" |}];
                          Previous := ""; Next := "" |})
          noReply
          (fun _ => Ok {| Data := [{| Organization_ID := "O1";
                                      Organization_Name := "first";
                                      Organization_Email := "" |};
                                   {| Organization_ID := "O2";
                                      Organization_Name := "second";
                                      Organization_Email := "" |}];
                          Previous := ""; Next := "" |})
          noReply
          (fun k => Ok {| Workspaces := nth k [[readWorkspace "W1" "O1"]] [] |})
          noReply.

Definition accessRecord (user : string) (workspacePermission organizationPermission
    : option string) : WorkspaceUserAccessInfoReadResponse :=
  let permission t :=
    {| PermissionRead_PermissionID := ""; PermissionRead_PermissionType := t;
       PermissionRead_UserID := user; PermissionRead_WorkspaceID := "";
       PermissionRead_OrganizationID := "" |} in
  {| AccessInfo_UserID := user; AccessInfo_UserEmail := user ++ "@example.com";
     AccessInfo_UserName := user; AccessInfo_WorkspaceID := "W1";
     WorkspacePermission := permission <$> workspacePermission;
     OrganizationPermission := permission <$> organizationPermission |}.

(** A world whose reply for the users of a workspace is the given list of
    access records. *)
Definition accessWorld (records : list WorkspaceUserAccessInfoReadResponse)
    : forall e : Endpoint, nat -> Res (RespT e) :=
  answers (fun _ => Ok {| AccessToken := tokenText |})
          noReply noReply noReply noReply noReply
          (fun _ => Ok {| UsersWithAccess := records |}).

(** A world with one user in an organization, whose permission there is
    of the given type. *)
Definition memberWorld (permissionType : string)
    : forall e : Endpoint, nat -> Res (RespT e) :=
  answers (fun _ => Ok {| AccessToken := tokenText |})
          noReply
          (fun _ => Ok {| Data := [{| User_ID := "u1"; User_Email := "u1@example.com";
                                      User_Name := "u1" |}];
                          Previous := ""; Next := "" |})
          noReply
          (fun _ => Ok {| Data := [{| Permission_ID := "p1";
                                      Permission_PermissionType := permissionType;
                                      Permission_UserID := "u1";
                                      Permission_ScopeID := "O1";
                                      Permission_Scope := "organization" |}];
                          Previous := ""; Next := "" |})
          noReply noReply.

Definition resourceOf (resourceType id : string) : Resource :=
  {| Resource_Id := {| ResourceId_ResourceType := resourceType;
                       ResourceId_Resource := id |};
     Resource_ParentResourceId := None;
     Resource_DisplayName := id;
     Resource_Annotations := [] |}.

Definition firstPage : Token := {| Token_Size := 0; Token_Token := "" |}.

Definition organizationParent (org : string) : option ResourceId :=
  Some {| ResourceId_ResourceType := "organization"; ResourceId_Resource := org |}.

End Scenario.

(* ===================================================================== *)
(** * Further vocabulary and scenarios *)
(* ===================================================================== *)

(** The resource [orgBuilder.List] builds for an organization. *)
Definition orgResourceOf `{Externals} (org : Organization) : Resource :=
  {| Resource_Id := {| ResourceId_ResourceType := ResourceType_Id organizationResourceType;
                       ResourceId_Resource := Organization_ID org |};
     Resource_ParentResourceId := None;
     Resource_DisplayName := Organization_Name org;
     Resource_Annotations := [] |}.

(** The id of the user resource of a user. *)
Definition userIdOf `{Externals} (user : User) : ResourceId :=
  {| ResourceId_ResourceType := ResourceType_Id userResourceType;
     ResourceId_Resource := User_ID user |}.

(** A permission that [getOrganizationPermissionType] takes for the
    organization: its scope is an organization, and it is this one. *)
Definition scopedTo (organizationID : string) (permission : Permission) : Prop :=
  Permission_Scope permission = "organization"
  /\ Permission_ScopeID permission = organizationID.

(** The request [ListAllWorkspaces] makes, but for its authorization. *)
Definition listingQuery (limit : Z) (offset : string) : list (string * Param) :=
  [("limit", PUint limit); ("offset", PStr offset)].

(** ** The path of a request *)

(** [strings.ReplaceAll] for a pattern that is not empty: the occurrences
    of [old] are replaced from left to right and do not overlap. [skip]
    counts the bytes of the occurrence just replaced that are still to be
    passed over. *)
Fixpoint ReplaceAll_from (skip : nat) (s old new : string) : string :=
  match s with
  | EmptyString => EmptyString
  | String c rest =>
      match skip with
      | S k => ReplaceAll_from k rest old new
      | O =>
          if String.prefix old s
          then (new ++ ReplaceAll_from (String.length old - 1) rest old new)%string
          else String c (ReplaceAll_from 0 rest old new)
      end
  end.

Definition ReplaceAll (s old new : string) : string := ReplaceAll_from 0 s old new.

(** The path [buildResourceURL] resolves against the base URL: the
    placeholder of each path parameter is replaced by the escaped value.
    The range over a Go map has no fixed order: [pathParams] lists the
    parameters in the order the range visits them. [url_PathEscape] is
    [url.PathEscape]. *)
Definition finalPath (url_PathEscape : string -> string) (pathTemplate : string)
    (pathParams : list (string * string)) : string :=
  fold_left (fun finalPath param =>
               ReplaceAll finalPath ("{" ++ fst param ++ "}")
                 (url_PathEscape (snd param)))
            pathParams pathTemplate.

(** The path templates of the requests the client makes. *)
Definition pathOf (e : Endpoint) : string :=
  match e with
  | getAccessTokenPath => "/api/v1/applications/token"
  | listWorkspacesPath => "/api/public/v1/workspaces"
  | listUsersPath => "/api/public/v1/users"
  | listOrganizationsPath => "/api/public/v1/organizations"
  | listPermissionsPath => "/api/public/v1/permissions"
  | listWorkspacesByOrganizationPath => "/api/v1/workspaces/list_by_organization_id"
  | listUsersWithAccessInfoPath => "/api/v1/users/list_access_info_by_workspace_id"
  end.

(** The template of the one path with a placeholder; no function of the
    client uses it. *)
Definition getWorkspacePath : string := "/api/public/v1/workspaces/{workspaceId}".

Module MoreScenarios.

Import Scenario.

(** A token that is already expired at [clockTime]: its claims are
    [{"exp":1}]. *)
Definition expiredTokenText : string := "h.eyJleHAiOjF9.s".

(** One organization is listed, and the requests for its workspaces
    fail. *)
Definition brokenListing : forall e : Endpoint, nat -> Res (RespT e) :=
  answers (fun _ => Ok {| AccessToken := tokenText |})
          noReply noReply
          (fun _ => Ok {| Data := [{| Organization_ID := "O1";
                                      Organization_Name := "first";
                                      Organization_Email := "" |}];
                          Previous := ""; Next := "" |})
          noReply noReply noReply.

(** The listing of all workspaces has a next page at offset 50. *)
Definition longListing : forall e : Endpoint, nat -> Res (RespT e) :=
  answers (fun _ => Ok {| AccessToken := tokenText |})
          (fun _ => Ok {| Data := [{| WorkspaceResponse_ID := "W1";
                                      WorkspaceResponse_Name := "one";
                                      WorkspaceResponse_DataResidency := "" |}];
                          Previous := "";
                          Next := "https://api.airbyte.com/v1/workspaces?limit=50&offset=50" |})
          noReply noReply noReply noReply noReply.

(** A world with one user in an organization and the given permissions in
    the reply for that user. *)
Definition permissionsWorld (permissions : list Permission)
    : forall e : Endpoint, nat -> Res (RespT e) :=
  answers (fun _ => Ok {| AccessToken := tokenText |})
          noReply
          (fun _ => Ok {| Data := [{| User_ID := "u1"; User_Email := "u1@example.com";
                                      User_Name := "u1" |}];
                          Previous := ""; Next := "" |})
          noReply
          (fun _ => Ok {| Data := permissions; Previous := ""; Next := "" |})
          noReply noReply.

Definition permissionOn (scope scopeID permissionType : string) : Permission :=
  {| Permission_ID := ""; Permission_PermissionType := permissionType;
     Permission_UserID := "u1"; Permission_ScopeID := scopeID;
     Permission_Scope := scope |}.

Definition laterPage : Token := {| Token_Size := 0; Token_Token := "50" |}.

Definition linkedWorkspace (id org : string) : Workspace :=
  {| Workspace_ID := id; Workspace_OrganizationId := org; Workspace_Name := id |}.

End MoreScenarios.

(* ===================================================================== *)
(** * Properties *)
(* ===================================================================== *)

(** ** Running monadic code *)

Section Running.

Context {A B : Type}.

Lemma bind_Ok (m : M A) (k : A -> M B) (s s' : State) (b : B) :
  bind m k s = (Ok b, s') ->
  exists a s1, m s = (Ok a, s1) /\ k a s1 = (Ok b, s').
Proof.
  unfold bind. destruct (m s) as [[a|e] s1]; [eauto|discriminate].
Qed.

Lemma wrapping_Ok (context : string) (m : M A) (s s' : State) (a : A) :
  wrapping context m s = (Ok a, s') -> m s = (Ok a, s').
Proof.
  unfold wrapping. destruct (m s) as [[a1|e] s1]; [|discriminate].
  now intros [= <- <-].
Qed.

Lemma bindF_Ok (m : MF A) (k : A -> MF B) (s s' : State) (b : B) :
  bindF m k s = Some (Ok b, s') ->
  exists a s1, m s = Some (Ok a, s1) /\ k a s1 = Some (Ok b, s').
Proof.
  unfold bindF. destruct (m s) as [[[a|e] s1]|]; [eauto|discriminate..].
Qed.

Lemma wrappingF_Ok (context : string) (m : MF A) (s s' : State) (a : A) :
  wrappingF context m s = Some (Ok a, s') -> m s = Some (Ok a, s').
Proof.
  unfold wrappingF. destruct (m s) as [[[a1|e] s1]|]; [|discriminate..].
  now intros [= <- <-].
Qed.

End Running.

(** ** Query strings and the next-page offset *)

Section NextPageOffset.

Context `{Externals}.

Import URL GoStrings.

Lemma QueryUnescape_plain (v : string) :
  ContainsByte "%" v = false -> ContainsByte "+" v = false ->
  QueryUnescape v = Some v.
Proof.
  induction v as [|c v IH]; simpl; [reflexivity|].
  intros Hp Hq.
  apply orb_false_elim in Hp as [Hc Hp].
  apply orb_false_elim in Hq as [Hd Hq].
  rewrite Hc, Hd, (IH Hp Hq). reflexivity.
Qed.

(** A piece [offset=v] without a semicolon is read as the pair of
    [offset] and the unescaped [v]. *)
Lemma parsePair_offset (v : string) :
  ContainsByte ";" v = false ->
  parsePair ("offset=" ++ v) = (fun v' => ("offset", v')) <$> QueryUnescape v.
Proof.
  intros Hv.
  change ("offset=" ++ v)
    with (String "o" (String "f" (String "f" (String "s" (String "e"
           (String "t" (String "=" v))))))).
  unfold parsePair. cbn. rewrite Hv.
  destruct (QueryUnescape v); reflexivity.
Qed.

(** [Get] passes over the pieces that are not read as an offset. *)
Lemma Get_offset_skip (before rest : list string) :
  Forall (fun piece => forall x, parsePair piece <> Some ("offset", x)) before ->
  Get (omap parsePair (before ++ rest)%list) "offset"
  = Get (omap parsePair rest) "offset".
Proof.
  induction 1 as [|piece before Hpiece _ IH]; [reflexivity|].
  simpl. destruct (parsePair piece) as [[k x]|] eqn:Hp; [|exact IH].
  simpl. destruct (String.eqb k "offset") eqn:Hk; [|exact IH].
  apply String.eqb_eq in Hk. subst k. destruct (Hpiece x eq_refl).
Qed.


Lemma GetOffset_parsed (link : string) (u : URL) :
  link <> "" -> url_Parse link = Some u ->
  GetOffsetForTheNextPageFromURL link = Get (Query u) "offset".
Proof.
  intros Hne Hu. unfold GetOffsetForTheNextPageFromURL.
  destruct (String.eqb link "") eqn:He.
  - apply String.eqb_eq in He. contradiction.
  - rewrite Hu. destruct (String.eqb (Get (Query u) "offset") "") eqn:Hg;
      [|reflexivity].
    apply String.eqb_eq in Hg. now rewrite Hg.
Qed.

(** C7, as amended. For a next link that [url.Parse] accepts and whose
    query has a first piece [offset=v] (the pieces before it are not read
    as an offset, and [v] has no semicolon),
    [GetOffsetForTheNextPageFromURL] returns the value [v] as
    [url.QueryUnescape] decodes it; when [v] has neither [%] nor [+] this
    is the text [v] itself. For the link
    [.../workspaces?limit=10&offset=10] it returns [10], and for the empty
    link it returns the empty string. *)
Theorem next_offset_is_decoded_value :
  (forall (link : string) (u : URL) (before after : list string) (v : string),
      link <> "" ->
      url_Parse link = Some u ->
      Split "&" (RawQuery u) = (before ++ ("offset=" ++ v)%string :: after)%list ->
      Forall (fun piece => forall x, parsePair piece <> Some ("offset", x)) before ->
      ContainsByte ";" v = false ->
      (forall v', QueryUnescape v = Some v' ->
                  GetOffsetForTheNextPageFromURL link = v')
      /\ (ContainsByte "%" v = false -> ContainsByte "+" v = false ->
          GetOffsetForTheNextPageFromURL link = v))
  /\ (forall u, url_Parse ".../workspaces?limit=10&offset=10" = Some u ->
                RawQuery u = "limit=10&offset=10" ->
                GetOffsetForTheNextPageFromURL ".../workspaces?limit=10&offset=10"
                = "10")
  /\ GetOffsetForTheNextPageFromURL "" = "".
Proof.
  split; [|split].
  - intros link u before after v Hne Hu Hsplit Hbefore Hsemi.
    assert (Hdec : forall v', QueryUnescape v = Some v' ->
                              GetOffsetForTheNextPageFromURL link = v').
    { intros v' Hv'. rewrite (GetOffset_parsed link u Hne Hu).
      unfold Query. rewrite Hsplit, (Get_offset_skip _ _ Hbefore).
      simpl. rewrite (parsePair_offset v Hsemi), Hv'. reflexivity. }
    split; [exact Hdec|].
    intros Hp Hq. apply Hdec, QueryUnescape_plain; assumption.
  - intros u Hu Hq. rewrite (GetOffset_parsed _ u); [|discriminate|exact Hu].
    unfold Query. rewrite Hq. reflexivity.
  - reflexivity.
Qed.

End NextPageOffset.

(** ** The token manager *)

Section TokenManager.

Context `{Externals}.

(** The token request is [doRequest] with authentication skipped. *)
Lemma GetAccessToken_request (s : State) :
  httpDo (tokenRequest (st_client s)) s
  = doRequest "POST" getAccessTokenPath []
      (Request_Body (tokenRequest (st_client s))) true s.
Proof. reflexivity. Qed.

Lemma GetAccessToken_run (s : State) :
  GetAccessToken s
  = (match nextReply getAccessTokenPath s with
     | Ok t => parseJWTExpiry t
     | Fail e => Fail e
     end,
     snd (httpDo (tokenRequest (st_client s)) s)).
Proof.
  unfold GetAccessToken, bind, lift, httpDo, nextReply. simpl.
  destruct (replies (st_world s) getAccessTokenPath _); reflexivity.
Qed.

Lemma malformed_not_parsed (t : TokenResponse) :
  malformed t -> exists e, parseJWTExpiry t = Fail e.
Proof.
  unfold malformed, parseJWTExpiry.
  intros [Hlen | [[e He] | (claimsJSON & e & Hd & Hj)]].
  - apply Nat.eqb_neq in Hlen. rewrite Hlen. simpl. eauto.
  - destruct (negb _); [eauto|]. rewrite He. eauto.
  - destruct (negb _); [eauto|]. rewrite Hd, Hj. eauto.
Qed.

(** What [ensureValidToken] does when it keeps the token it holds. *)
Lemma ensureValidToken_keep (s : State) :
  accessToken (st_client s) <> "" ->
  currentTime s + 30 * Second <= tokenExpiry (st_client s) ->
  ensureValidToken s = (Ok tt, snd (time_Now s)).
Proof.
  intros Htok Hexp. unfold ensureValidToken.
  destruct (String.eqb_spec (accessToken (st_client s)) ""); [contradiction|].
  simpl. fold (currentTime s).
  destruct (Z.ltb_spec (tokenExpiry (st_client s)) (currentTime s + 30 * Second)); [lia|].
  reflexivity.
Qed.

(** What [ensureValidToken] does when it asks for a new token: from the
    state [s0], which is [s] with at most the clock read once more. *)
Lemma ensureValidToken_renew (s : State) :
  accessToken (st_client s) = "" \/ tokenExpiry (st_client s) < currentTime s + 30 * Second ->
  exists s0,
    (s0 = s \/ s0 = snd (time_Now s))
    /\ st_client s0 = st_client s
    /\ requests s0 = requests s
    /\ nextReply getAccessTokenPath s0 = nextReply getAccessTokenPath s
    /\ ensureValidToken s
       = match GetAccessToken s0 with
         | (Ok (token, expiry), s1) =>
             (Ok tt,
              set_client {| baseURL := baseURL (st_client s1);
                            accessToken := token;
                            clientID := clientID (st_client s1);
                            clientSecret := clientSecret (st_client s1);
                            tokenExpiry := expiry |} s1)
         | (Fail e, s1) => (Fail e, s1)
         end.
Proof.
  intros Hcond. unfold ensureValidToken.
  destruct (String.eqb_spec (accessToken (st_client s)) "") as [Heq|Hne].
  - exists s. split; [now left|]. do 3 (split; [reflexivity|]). unfold bind.
    destruct (GetAccessToken s) as [[[token expiry]|e] s1]; reflexivity.
  - destruct Hcond as [Heq|Hlt]; [contradiction|].
    simpl. fold (currentTime s).
    destruct (Z.ltb_spec (tokenExpiry (st_client s)) (currentTime s + 30 * Second)); [|lia].
    exists (snd (time_Now s)). split; [now right|].
    do 3 (split; [reflexivity|]). unfold bind.
    destruct (GetAccessToken _) as [[[token expiry]|e] s1]; reflexivity.
Qed.

(** C5, as amended. [ensureValidToken] makes no token request when a
    token is held and the stored expiry is at least 30 seconds after the
    current time: the requests made and the client stay as they were. It
    makes exactly one token request when no token is held or the stored
    expiry is less than 30 seconds after the current time (or already
    past); when that request succeeds with a token whose expiry is read,
    the stored token and expiry are replaced by the new values. *)
Theorem token_refreshed_only_when_due (s : State) :
  (accessToken (st_client s) <> "" ->
   currentTime s + 30 * Second <= tokenExpiry (st_client s) ->
   fst (ensureValidToken s) = Ok tt
   /\ requests (snd (ensureValidToken s)) = requests s
   /\ st_client (snd (ensureValidToken s)) = st_client s)
  /\ (accessToken (st_client s) = ""
      \/ tokenExpiry (st_client s) < currentTime s + 30 * Second ->
      requests (snd (ensureValidToken s))
      = (requests s ++ [tokenRequest (st_client s)])%list
      /\ (forall t token expiry,
             nextReply getAccessTokenPath s = Ok t ->
             parseJWTExpiry t = Ok (token, expiry) ->
             fst (ensureValidToken s) = Ok tt
             /\ credential (snd (ensureValidToken s)) = (token, expiry))
      /\ (fst (ensureValidToken s) = Ok tt ->
          exists t expiry,
            nextReply getAccessTokenPath s = Ok t
            /\ parseJWTExpiry t = Ok (AccessToken t, expiry)
            /\ credential (snd (ensureValidToken s)) = (AccessToken t, expiry))).
Proof.
  split.
  - intros Htok Hexp. rewrite (ensureValidToken_keep s Htok Hexp). auto.
  - intros Hcond.
    destruct (ensureValidToken_renew s Hcond) as (s0 & _ & Hc & Hr & Hn & ->).
    rewrite (GetAccessToken_run s0), Hn, Hc.
    assert (Hsent : requests (snd (httpDo (tokenRequest (st_client s)) s0))
                    = (requests s ++ [tokenRequest (st_client s)])%list).
    { unfold requests in *. simpl. now rewrite Hr. }
    split; [|split].
    + destruct (nextReply getAccessTokenPath s) as [t|e]; [|exact Hsent].
      destruct (parseJWTExpiry t) as [[token expiry]|e]; exact Hsent.
    + intros t token expiry -> ->. auto.
    + destruct (nextReply getAccessTokenPath s) as [t|e]; [|discriminate].
      destruct (parseJWTExpiry t) as [[token expiry]|e] eqn:Hp; [|discriminate].
      intros _. exists t, expiry.
      assert (token = AccessToken t) as ->.
      { unfold parseJWTExpiry in Hp.
        destruct (negb _); [discriminate|].
        destruct (base64_RawURLEncoding_DecodeString _); [|discriminate].
        destruct (json_Unmarshal_JWTClaims _); [|discriminate].
        now injection Hp. }
      auto.
Qed.

(** C4. When the token request is answered with a token that does not
    split into exactly three parts at the dots, or whose middle part is
    not decoded, or whose claims are not parsed, [GetAccessToken] returns
    an error, and [ensureValidToken] leaves the stored token and expiry
    as they were (and fails itself when it had to ask for a token). On
    every failure of [ensureValidToken] the stored credential is
    unchanged. *)
Theorem malformed_token_stores_nothing :
  (forall (s : State) (t : TokenResponse),
      nextReply getAccessTokenPath s = Ok t ->
      malformed t ->
      (exists e, fst (GetAccessToken s) = Fail e)
      /\ credential (snd (GetAccessToken s)) = credential s
      /\ credential (snd (ensureValidToken s)) = credential s
      /\ (accessToken (st_client s) = ""
          \/ tokenExpiry (st_client s) < currentTime s + 30 * Second ->
          exists e, fst (ensureValidToken s) = Fail e))
  /\ (forall (s : State) (e : Error),
         fst (ensureValidToken s) = Fail e ->
         credential (snd (ensureValidToken s)) = credential s).
Proof.
  assert (Hrenew : forall s,
             accessToken (st_client s) = ""
             \/ tokenExpiry (st_client s) < currentTime s + 30 * Second ->
             forall e, match nextReply getAccessTokenPath s with
                       | Ok t => parseJWTExpiry t
                       | Fail e => Fail e
                       end = Fail e ->
             fst (ensureValidToken s) = Fail e
             /\ credential (snd (ensureValidToken s)) = credential s).
  { intros s Hcond e He.
    destruct (ensureValidToken_renew s Hcond) as (s0 & _ & Hc & _ & Hn & ->).
    rewrite (GetAccessToken_run s0), Hn, He. simpl.
    unfold credential. simpl. now rewrite Hc. }
  assert (Hdue : forall s,
             (accessToken (st_client s) <> ""
              /\ currentTime s + 30 * Second <= tokenExpiry (st_client s))
             \/ (accessToken (st_client s) = ""
                 \/ tokenExpiry (st_client s) < currentTime s + 30 * Second)).
  { intros s. destruct (String.eqb_spec (accessToken (st_client s)) ""); [auto|].
    destruct (Z.lt_ge_cases (tokenExpiry (st_client s)) (currentTime s + 30 * Second));
      [auto|left; split; [assumption|lia]]. }
  split.
  - intros s t Hreply Hbad.
    destruct (malformed_not_parsed t Hbad) as [e He].
    rewrite (GetAccessToken_run s), Hreply, He.
    split; [eauto|]. split; [reflexivity|].
    assert (Hfail : match nextReply getAccessTokenPath s with
                    | Ok t => parseJWTExpiry t
                    | Fail e => Fail e
                    end = Fail e) by now rewrite Hreply.
    split.
    + destruct (Hdue s) as [[Htok Hexp]|Hcond].
      * now rewrite (ensureValidToken_keep s Htok Hexp).
      * apply (Hrenew s Hcond e Hfail).
    + intros Hcond. exists e. apply (Hrenew s Hcond e Hfail).
  - intros s e Hfail.
    destruct (Hdue s) as [[Htok Hexp]|Hcond].
    + now rewrite (ensureValidToken_keep s Htok Hexp).
    + destruct (ensureValidToken_renew s Hcond) as (s0 & _ & Hc & _ & Hn & Heq).
      rewrite Heq in Hfail |- *. rewrite (GetAccessToken_run s0), Hn in Hfail |- *.
      destruct (match nextReply getAccessTokenPath s with
                | Ok t => parseJWTExpiry t
                | Fail e0 => Fail e0
                end) as [[token expiry]|e0]; [discriminate|].
      unfold credential. simpl. now rewrite Hc.
Qed.

End TokenManager.

(** ** Requests and the replies of the world *)

Section Requests.

Context `{Externals}.

Lemma calls_after_send (e : Endpoint) (req : Request) (s : State) :
  calls e (st_world (snd (httpDo req s)))
  = (calls e (st_world s) + (if decide (Request_Path req = e) then 1 else 0))%nat.
Proof.
  unfold calls. simpl. rewrite filter_app, length_app. simpl.
  rewrite filter_cons, filter_nil. simpl.
  destruct (decide (Request_Path req = e)); reflexivity.
Qed.

(** [ensureValidToken] leaves the replies and the clock of the world and
    the workspace index alone, and makes no request on another path than
    the token path. *)
Lemma ensureValidToken_frame (s : State) (e : Endpoint) :
  e <> getAccessTokenPath ->
  replies (st_world (snd (ensureValidToken s))) = replies (st_world s)
  /\ clock (st_world (snd (ensureValidToken s))) = clock (st_world s)
  /\ workspacesWithOrgIDMap (snd (ensureValidToken s)) = workspacesWithOrgIDMap s
  /\ calls e (st_world (snd (ensureValidToken s))) = calls e (st_world s).
Proof.
  intros He.
  assert (Hrenew : accessToken (st_client s) = ""
                   \/ tokenExpiry (st_client s) < currentTime s + 30 * Second ->
                   replies (st_world (snd (ensureValidToken s))) = replies (st_world s)
                   /\ clock (st_world (snd (ensureValidToken s))) = clock (st_world s)
                   /\ workspacesWithOrgIDMap (snd (ensureValidToken s))
                      = workspacesWithOrgIDMap s
                   /\ calls e (st_world (snd (ensureValidToken s)))
                      = calls e (st_world s)).
  { intros Hcond.
    destruct (ensureValidToken_renew s Hcond) as (s0 & Hs0 & _ & _ & _ & ->).
    rewrite GetAccessToken_run.
    pose proof (calls_after_send e (tokenRequest (st_client s0)) s0) as Hcalls.
    destruct (decide _) as [Heq|_]; [simpl in Heq; congruence|].
    rewrite Nat.add_0_r in Hcalls.
    assert (Hsame : replies (st_world s0) = replies (st_world s)
                    /\ clock (st_world s0) = clock (st_world s)
                    /\ workspacesWithOrgIDMap s0 = workspacesWithOrgIDMap s
                    /\ calls e (st_world s0) = calls e (st_world s))
      by (destruct Hs0 as [->| ->]; auto).
    destruct Hsame as (Hr & Hc & Hi & Hn). rewrite <- Hr, <- Hc, <- Hi, <- Hn.
    destruct (nextReply getAccessTokenPath s0) as [t|err];
      [destruct (parseJWTExpiry t) as [[token expiry]|err]|]; simpl; auto. }
  destruct (String.eqb_spec (accessToken (st_client s)) "") as [Htok|Htok];
    [auto|].
  destruct (Z.lt_ge_cases (tokenExpiry (st_client s)) (currentTime s + 30 * Second))
    as [Hexp|Hexp]; [auto|].
  rewrite (ensureValidToken_keep s Htok); [|lia]. simpl. auto.
Qed.

(** An authenticated request on a path: when it succeeds, its result is
    the next reply of the world on that path; whether it succeeds or
    fails, the replies that follow on that path are the ones that were to
    follow, except that a failure may have used up no reply. *)
Lemma doRequest_run (method : string) (e : Endpoint)
    (query body : list (string * Param)) (s : State) :
  e <> getAccessTokenPath ->
  let r := doRequest method e query body false s in
  replies (st_world (snd r)) = replies (st_world s)
  /\ clock (st_world (snd r)) = clock (st_world s)
  /\ workspacesWithOrgIDMap (snd r) = workspacesWithOrgIDMap s
  /\ match fst r with
     | Ok a =>
         nextReply e s = Ok a
         /\ calls e (st_world (snd r)) = S (calls e (st_world s))
     | Fail err =>
         calls e (st_world (snd r)) = calls e (st_world s)
         \/ (nextReply e s = Fail err
             /\ calls e (st_world (snd r)) = S (calls e (st_world s)))
     end.
Proof.
  intros He. unfold doRequest. simpl. unfold bind.
  destruct (ensureValidToken_frame s e He) as (Hr & Hc & Hi & Hn).
  destruct (ensureValidToken s) as [[[]|err] s1]; simpl in *; [|auto].
  pose proof (calls_after_send e
    {| Request_Method := method; Request_Path := e; Request_Query := query;
       Request_Body := body;
       Request_Authorization := Some ("Bearer " ++ accessToken (st_client s1)) |}
    s1) as Hcalls.
  simpl in Hcalls. destruct (decide (e = e)); [|contradiction].
  rewrite Nat.add_1_r in Hcalls.
  unfold nextReply. rewrite <- Hr, <- Hn.
  split; [reflexivity|]. do 2 (split; [assumption|]).
  destruct (replies (st_world s1) e (calls e (st_world s1)));
    rewrite Hcalls; auto.
Qed.

(** With a token that is not due for renewal, an authenticated request
    is the reading of the clock followed by the request itself. *)
Lemma doRequest_fresh (method : string) (e : Endpoint)
    (query body : list (string * Param)) (s : State) :
  accessToken (st_client s) <> "" ->
  currentTime s + 30 * Second <= tokenExpiry (st_client s) ->
  doRequest method e query body false s
  = httpDo {| Request_Method := method; Request_Path := e;
              Request_Query := query; Request_Body := body;
              Request_Authorization :=
                Some ("Bearer " ++ accessToken (st_client s)) |}
      (snd (time_Now s)).
Proof.
  intros Htok Hexp. unfold doRequest. simpl. unfold bind.
  now rewrite (ensureValidToken_keep s Htok Hexp).
Qed.

(** An authenticated request that succeeds is the last request made. *)
Lemma doRequest_request (method : string) (e : Endpoint)
    (query body : list (string * Param)) (s s' : State) (a : RespT e) :
  doRequest method e query body false s = (Ok a, s') ->
  last (requests s')
  = Some {| Request_Method := method; Request_Path := e;
            Request_Query := query; Request_Body := body;
            Request_Authorization :=
              Some ("Bearer " ++ accessToken (st_client s')) |}.
Proof.
  unfold doRequest. simpl. unfold bind.
  destruct (ensureValidToken s) as [[[]|err] s1]; [|discriminate].
  unfold httpDo. intros [= _ <-]. unfold requests. simpl. apply last_snoc.
Qed.

End Requests.

(** ** The end of the listing of all workspaces *)

Section EndOfListing.

Context `{Externals}.

Import URL.


End EndOfListing.

(** ** Pagination by row offset *)

Section RowOffsetPagination.

Context `{Externals}.

(** One call of [ListWorkspacesByOrganization]: the page is the next
    reply of the world, and the next row offset follows from its length. *)
Lemma ListWorkspacesByOrganization_run (orgId : string) (pageSize rowOffset : Z)
    (s : State) :
  let r := ListWorkspacesByOrganization orgId pageSize rowOffset s in
  replies (st_world (snd r)) = replies (st_world s)
  /\ match fst r with
     | Ok (page, next) =>
         (exists resp, nextReply listWorkspacesByOrganizationPath s = Ok resp /\ page = Workspaces resp)
         /\ calls listWorkspacesByOrganizationPath (st_world (snd r))
            = S (calls listWorkspacesByOrganizationPath (st_world s))
         /\ next = (if Z.of_nat (length page) <? pageSize then 0
                    else uint64_add rowOffset pageSize)
     | Fail err => True
     end.
Proof.
  unfold ListWorkspacesByOrganization. cbv zeta. unfold bind.
  match goal with
  | |- context [doRequest ?m ?e ?q ?b false s] =>
      pose proof (doRequest_run m e q b s ltac:(discriminate)) as Hrun;
      destruct (doRequest m e q b false s) as [[resp|err] s1]
  end; cbv zeta in Hrun; simpl in Hrun;
    destruct Hrun as (Hr & _ & _ & Hcall); [|simpl; auto].
  destruct Hcall as [Hreply Hcalls].
  destruct (Z.of_nat (length (Workspaces resp)) <? pageSize) eqn:Hlen;
    simpl; rewrite ?Hlen; eauto 10.
Qed.

(** In the state after a successful call, the replies to come are the
    ones that were to come after the next. *)
Lemma replyAhead_after_call (orgId : string) (pageSize rowOffset : Z)
    (s s' : State) (page : list WorkspaceReadResponse) (next : Z) (n : nat) :
  ListWorkspacesByOrganization orgId pageSize rowOffset s = (Ok (page, next), s') ->
  replyAhead listWorkspacesByOrganizationPath n s' = replyAhead listWorkspacesByOrganizationPath (S n) s.
Proof.
  intros Hcall.
  pose proof (ListWorkspacesByOrganization_run orgId pageSize rowOffset s) as Hrun.
  cbv zeta in Hrun. rewrite Hcall in Hrun. simpl in Hrun.
  destruct Hrun as (Hr & _ & Hcalls & _).
  unfold replyAhead. rewrite Hr, Hcalls. f_equal. lia.
Qed.

(** The next row offset of a call that succeeds. *)
Lemma reported_next_row_offset (orgId : string) (pageSize rowOffset : Z) (s s' : State)
    (page : list WorkspaceReadResponse) (next : Z) :
  ListWorkspacesByOrganization orgId pageSize rowOffset s = (Ok (page, next), s') ->
  (shortPage pageSize page -> next = 0)
  /\ (~ shortPage pageSize page -> next = (rowOffset + pageSize) mod 2 ^ 64).
Proof.
  intros Hcall.
  pose proof (ListWorkspacesByOrganization_run orgId pageSize rowOffset s) as Hrun.
  cbv zeta in Hrun. rewrite Hcall in Hrun. simpl in Hrun.
  destruct Hrun as (_ & _ & _ & ->). unfold shortPage.
  destruct (Z.ltb_spec (Z.of_nat (length page)) pageSize); split; intros; try lia;
    reflexivity.
Qed.

(** One round of the inner loop of
    [getAllWorkspacesWithParentOrganizationID]. *)
Lemma listOrganizationWorkspaces_round (fuel : nat) (orgID : string)
    (rowOffset : Z) (all : list Workspace) (s : State) :
  listOrganizationWorkspaces (S fuel) orgID rowOffset all s
  = match ListWorkspacesByOrganization orgID ResourcesPageSize rowOffset s with
    | (Ok (page, next), s') =>
        if next =? 0 then Some (Ok (all ++ workspacesOfPage page)%list, s')
        else listOrganizationWorkspaces fuel orgID next
               (all ++ workspacesOfPage page)%list s'
    | (Fail e, s') =>
        Some (Fail (Wrap "airbyte-connector: failed to list workspaces" e), s')
    end.
Proof.
  simpl. unfold bindF, liftM, wrapping.
  destruct (ListWorkspacesByOrganization orgID ResourcesPageSize rowOffset s)
    as [[[page next]|e] s']; [|reflexivity].
  destruct (next =? 0); reflexivity.
Qed.

(** The loop stops exactly when the next row offset is 0: then it returns
    without another call; otherwise it goes on with a call at the next
    row offset. *)
Lemma loop_stops_at_zero (fuel : nat) (orgID : string) (rowOffset : Z)
    (all : list Workspace) (s s' : State)
    (page : list WorkspaceReadResponse) (next : Z) :
  ListWorkspacesByOrganization orgID ResourcesPageSize rowOffset s
  = (Ok (page, next), s') ->
  (next = 0 ->
   listOrganizationWorkspaces (S fuel) orgID rowOffset all s
   = Some (Ok (all ++ workspacesOfPage page)%list, s'))
  /\ (next <> 0 ->
      listOrganizationWorkspaces (S fuel) orgID rowOffset all s
      = listOrganizationWorkspaces fuel orgID next
          (all ++ workspacesOfPage page)%list s').
Proof.
  intros Hcall. rewrite listOrganizationWorkspaces_round, Hcall.
  split; intros Hnext.
  - now rewrite Hnext.
  - apply Z.eqb_neq in Hnext. now rewrite Hnext.
Qed.

(** With a short page among the coming replies, the loop returns: fuel
    for one round more than the calls before that page is enough. *)
Lemma pages_loop_returns (orgID : string) (n : nat) :
  forall (rowOffset : Z) (all : list Workspace) (s : State)
         (resp : WorkspaceReadListResponse),
    replyAhead listWorkspacesByOrganizationPath n s = Ok resp ->
    shortPage ResourcesPageSize (Workspaces resp) ->
    exists r, forall fuel, (S n <= fuel)%nat ->
      listOrganizationWorkspaces fuel orgID rowOffset all s = Some r.
Proof.
  induction n as [|n IH]; intros rowOffset all s resp Hreply Hshort;
    destruct (ListWorkspacesByOrganization orgID ResourcesPageSize rowOffset s)
      as [[[page next]|e] s'] eqn:Hcall.
  - pose proof (ListWorkspacesByOrganization_run orgID ResourcesPageSize
                  rowOffset s) as Hrun.
    cbv zeta in Hrun. rewrite Hcall in Hrun. simpl in Hrun.
    destruct Hrun as (_ & (resp' & Hnext & ->) & _ & _).
    unfold replyAhead in Hreply. rewrite Nat.add_0_r in Hreply.
    unfold nextReply in Hnext. rewrite Hreply in Hnext.
    injection Hnext as <-.
    destruct (reported_next_row_offset _ _ _ _ _ _ _ Hcall) as [Hzero _].
    exists (Ok (all ++ workspacesOfPage (Workspaces resp))%list, s').
    intros [|fuel] Hfuel; [lia|].
    now apply (loop_stops_at_zero fuel _ _ all _ _ _ _ Hcall), Hzero.
  - exists (Fail (Wrap "airbyte-connector: failed to list workspaces" e), s').
    intros [|fuel] Hfuel; [lia|].
    now rewrite listOrganizationWorkspaces_round, Hcall.
  - destruct (Z.eq_dec next 0) as [Hzero|Hnz].
    + exists (Ok (all ++ workspacesOfPage page)%list, s').
      intros [|fuel] Hfuel; [lia|].
      now apply (loop_stops_at_zero fuel _ _ all _ _ _ _ Hcall).
    + destruct (IH next (all ++ workspacesOfPage page)%list s' resp) as [r Hr].
      { now rewrite (replyAhead_after_call _ _ _ _ _ _ _ n Hcall). }
      { exact Hshort. }
      exists r. intros [|fuel] Hfuel; [lia|].
      rewrite (proj2 (loop_stops_at_zero fuel _ _ all _ _ _ _ Hcall) Hnz).
      apply Hr. lia.
  - exists (Fail (Wrap "airbyte-connector: failed to list workspaces" e), s').
    intros [|fuel] Hfuel; [lia|].
    now rewrite listOrganizationWorkspaces_round, Hcall.
Qed.

(** The loops leave the replies of the world and the workspace index as
    they were. *)
Lemma ListWorkspacesByOrganization_frame (orgId : string) (pageSize rowOffset : Z)
    (s : State) :
  let r := ListWorkspacesByOrganization orgId pageSize rowOffset s in
  replies (st_world (snd r)) = replies (st_world s)
  /\ workspacesWithOrgIDMap (snd r) = workspacesWithOrgIDMap s.
Proof.
  unfold ListWorkspacesByOrganization. cbv zeta. unfold bind.
  match goal with
  | |- context [doRequest ?m ?e ?q ?b false s] =>
      pose proof (doRequest_run m e q b s ltac:(discriminate)) as Hrun;
      destruct (doRequest m e q b false s) as [[resp|err] s1]
  end; cbv zeta in Hrun; simpl in Hrun; destruct Hrun as (Hr & _ & Hi & _);
    [destruct (_ <? _)|]; simpl; auto.
Qed.

Lemma listOrganizationWorkspaces_frame (orgID : string) (fuel : nat) :
  forall (rowOffset : Z) (all : list Workspace) (s s' : State)
         (r : Res (list Workspace)),
    listOrganizationWorkspaces fuel orgID rowOffset all s = Some (r, s') ->
    replies (st_world s') = replies (st_world s)
    /\ workspacesWithOrgIDMap s' = workspacesWithOrgIDMap s.
Proof.
  induction fuel as [|fuel IH]; intros rowOffset all s s' r Hloop; [discriminate|].
  rewrite listOrganizationWorkspaces_round in Hloop.
  pose proof (ListWorkspacesByOrganization_frame orgID ResourcesPageSize rowOffset s)
    as Hframe.
  cbv zeta in Hframe.
  destruct (ListWorkspacesByOrganization orgID ResourcesPageSize rowOffset s)
    as [[[page next]|e] s1]; simpl in Hframe.
  - destruct (next =? 0).
    + now injection Hloop as <- <-.
    + destruct (IH _ _ _ _ _ Hloop) as [Hr Hi]. destruct Hframe as [Hr1 Hi1].
      split; congruence.
  - now injection Hloop as <- <-.
Qed.

Lemma listAllOrganizationsWorkspaces_frame (fuel : nat) (orgs : list Organization) :
  forall (all : list Workspace) (s s' : State) (r : Res (list Workspace)),
    listAllOrganizationsWorkspaces fuel orgs all s = Some (r, s') ->
    replies (st_world s') = replies (st_world s)
    /\ workspacesWithOrgIDMap s' = workspacesWithOrgIDMap s.
Proof.
  induction orgs as [|org orgs IH]; intros all s s' r Hloop.
  - now injection Hloop as <- <-.
  - simpl in Hloop. unfold bindF in Hloop.
    destruct (listOrganizationWorkspaces fuel (Organization_ID org) 0 all s)
      as [[[all1|e] s1]|] eqn:Hinner; [| |discriminate].
    + destruct (listOrganizationWorkspaces_frame _ _ _ _ _ _ _ Hinner) as [Hr1 Hi1].
      destruct (IH _ _ _ _ Hloop) as [Hr Hi]. split; congruence.
    + injection Hloop as <- <-.
      exact (listOrganizationWorkspaces_frame _ _ _ _ _ _ _ Hinner).
Qed.

(** When short pages keep coming, the pages of every organization are
    read to their end: [getAllWorkspacesWithParentOrganizationID] returns,
    with any fuel from some amount on. *)
Lemma listAllOrganizationsWorkspaces_terminates (orgs : list Organization) :
  forall (all : list Workspace) (s : State),
    shortPagesRecur s ->
    exists enough r, forall fuel, (enough <= fuel)%nat ->
      listAllOrganizationsWorkspaces fuel orgs all s = Some r.
Proof.
  induction orgs as [|org orgs IH]; intros all s Hshort.
  - exists 0%nat, (Ok all, s). reflexivity.
  - destruct (Hshort (calls listWorkspacesByOrganizationPath (st_world s)))
      as (n & resp & Hreply & Hpage).
    destruct (pages_loop_returns (Organization_ID org) n 0 all s resp Hreply Hpage)
      as [[[all1|e] s1] Hinner].
    + assert (Hshort1 : shortPagesRecur s1).
      { destruct (listOrganizationWorkspaces_frame _ _ _ _ _ _ _
                    (Hinner (S n) (Nat.le_refl _))) as [Hr _].
        unfold shortPagesRecur. now rewrite Hr. }
      destruct (IH all1 s1 Hshort1) as (enough & r & Hrest).
      exists (Nat.max (S n) enough), r. intros fuel Hfuel.
      simpl. unfold bindF. rewrite Hinner by lia. apply Hrest. lia.
    + exists (S n), (Fail e, s1). intros fuel Hfuel.
      simpl. unfold bindF. now rewrite Hinner.
Qed.

Lemma getAllWorkspacesWithParentOrganizationID_terminates (s : State) :
  shortPagesRecur s ->
  exists enough r, forall fuel, (enough <= fuel)%nat ->
    getAllWorkspacesWithParentOrganizationID fuel s = Some r.
Proof.
  intros Hshort. unfold getAllWorkspacesWithParentOrganizationID, bindF, liftM, wrapping.
  unfold ListOrganizations, bind.
  match goal with
  | |- context [doRequest ?m ?e ?q ?b false s] =>
      pose proof (doRequest_run m e q b s ltac:(discriminate)) as Hrun;
      destruct (doRequest m e q b false s) as [[resp|err] s1]
  end; cbv zeta in Hrun; simpl in Hrun; destruct Hrun as (Hr & _).
  - simpl. apply listAllOrganizationsWorkspaces_terminates.
    unfold shortPagesRecur. now rewrite Hr.
  - simpl. exists 0%nat. eauto.
Qed.

(** C6, as amended. When [ListWorkspacesByOrganization] returns a page
    with strictly fewer items than the page size asked for, the next row
    offset it reports is 0, which is not the sum of the row offset and
    the page size. Otherwise the next row offset is that sum as a
    [uint64], that is modulo [2^64]: the sum itself whenever it is below
    [2^64]. The loop of [getAllWorkspacesWithParentOrganizationID] stops
    exactly when the next row offset is 0. *)
Theorem next_row_offset_rule :
  (forall (orgId : string) (pageSize rowOffset : Z) (s s' : State)
          (page : list WorkspaceReadResponse) (next : Z),
      ListWorkspacesByOrganization orgId pageSize rowOffset s
      = (Ok (page, next), s') ->
      (shortPage pageSize page ->
       next = 0 /\ (0 <= rowOffset -> next <> rowOffset + pageSize))
      /\ (~ shortPage pageSize page ->
          next = (rowOffset + pageSize) mod 2 ^ 64
          /\ (0 <= rowOffset -> 0 <= pageSize -> rowOffset + pageSize < 2 ^ 64 ->
              next = rowOffset + pageSize)))
  /\ (forall (fuel : nat) (orgID : string) (rowOffset : Z) (all : list Workspace)
             (s s' : State) (page : list WorkspaceReadResponse) (next : Z),
         ListWorkspacesByOrganization orgID ResourcesPageSize rowOffset s
         = (Ok (page, next), s') ->
         (next = 0 ->
          listOrganizationWorkspaces (S fuel) orgID rowOffset all s
          = Some (Ok (all ++ workspacesOfPage page)%list, s'))
         /\ (next <> 0 ->
             listOrganizationWorkspaces (S fuel) orgID rowOffset all s
             = listOrganizationWorkspaces fuel orgID next
                 (all ++ workspacesOfPage page)%list s')).
Proof.
  split.
  - intros orgId pageSize rowOffset s s' page next Hcall.
    destruct (reported_next_row_offset _ _ _ _ _ _ _ Hcall) as [Hshort Hfull].
    split.
    + intros Hs. split; [auto|]. intros Hoff. rewrite (Hshort Hs).
      unfold shortPage in Hs. lia.
    + intros Hs. split; [auto|]. intros Hoff Hsize Hsum. rewrite (Hfull Hs).
      apply Z.mod_small. lia.
  - intros. now apply loop_stops_at_zero.
Qed.

(** The row offsets of the loop, [50 * j] modulo [2^64], are not 0 before
    the round [2^63]. *)
Lemma no_wrap_before (j : Z) :
  0 < j < 2 ^ 63 -> (ResourcesPageSize * j) mod 2 ^ 64 <> 0.
Proof.
  unfold ResourcesPageSize. intros Hj Hmod.
  apply Z.mod_divide in Hmod; [|discriminate].
  destruct Hmod as [q Hq].
  assert (Hdiv : (2 ^ 63 | 25 * j)).
  { exists q. change (2 ^ 64) with (2 * 2 ^ 63) in Hq. lia. }
  apply Z.gauss in Hdiv; [|reflexivity].
  apply Z.divide_pos_le in Hdiv; lia.
Qed.

(** The loop in its round [j], when the workspaces collected so far are
    those of [j] full pages at least and the workspaces it returns fit a
    slice: it reads the coming replies up to the first short page, and
    returns there. *)
Lemma loop_exits_on_short_page (orgID : string) (fuel : nat) :
  forall (j : Z) (all result : list Workspace) (s s' : State),
    0 <= j ->
    ResourcesPageSize * j <= Z.of_nat (length all) ->
    listOrganizationWorkspaces fuel orgID
      ((ResourcesPageSize * j) mod 2 ^ 64) all s
    = Some (Ok result, s') ->
    Z.of_nat (length result) <= maxSliceLen ->
    exists (front : list WorkspaceReadListResponse)
           (final : WorkspaceReadListResponse),
      (forall k p, (front ++ [final])%list !! k = Some p ->
                   replyAhead listWorkspacesByOrganizationPath k s = Ok p)
      /\ calls listWorkspacesByOrganizationPath (st_world s')
         = (calls listWorkspacesByOrganizationPath (st_world s)
            + S (length front))%nat
      /\ Forall (fun p => ~ shortPage ResourcesPageSize (Workspaces p)) front
      /\ shortPage ResourcesPageSize (Workspaces final).
Proof.
  induction fuel as [|fuel IH]; intros j all result s s' Hj Hall Hloop Hfits;
    [discriminate|].
  rewrite listOrganizationWorkspaces_round in Hloop.
  destruct (ListWorkspacesByOrganization orgID ResourcesPageSize
              ((ResourcesPageSize * j) mod 2 ^ 64) s)
    as [[[page next]|e] s1] eqn:Hcall; [|discriminate].
  pose proof (ListWorkspacesByOrganization_run orgID ResourcesPageSize
                ((ResourcesPageSize * j) mod 2 ^ 64) s) as Hrun.
  cbv zeta in Hrun. rewrite Hcall in Hrun. simpl in Hrun.
  destruct Hrun as (_ & (resp & Hreply & Hpage) & Hcalls & _).
  destruct (reported_next_row_offset _ _ _ _ _ _ _ Hcall) as [Hshort Hfull].
  assert (Hnext : ~ shortPage ResourcesPageSize page ->
                  next = (ResourcesPageSize * (j + 1)) mod 2 ^ 64).
  { intros Hf. rewrite (Hfull Hf), Zplus_mod_idemp_l. f_equal. lia. }
  assert (Hfirst : replyAhead listWorkspacesByOrganizationPath 0 s = Ok resp).
  { unfold replyAhead. rewrite Nat.add_0_r. exact Hreply. }
  assert (Hlen : length (all ++ workspacesOfPage page)%list
                 = (length all + length page)%nat).
  { unfold workspacesOfPage. now rewrite length_app, length_map. }
  destruct (next =? 0) eqn:Hz.
  - injection Hloop as <- <-. apply Z.eqb_eq in Hz.
    exists [], resp. rewrite <- Hpage, Hcalls.
    split; [|split; [simpl; lia|split; [constructor|]]].
    + intros [|k] p Hk; [|discriminate]. now injection Hk as <-.
    + destruct (Z.lt_ge_cases (Z.of_nat (length page)) ResourcesPageSize)
        as [Hs|Hs]; [exact Hs|exfalso].
      assert (Hf : ~ shortPage ResourcesPageSize page) by (unfold shortPage; lia).
      specialize (Hnext Hf). rewrite Hz in Hnext.
      destruct (Z.lt_ge_cases (j + 1) (2 ^ 63)) as [Hsmall|Hbig].
      * apply (no_wrap_before (j + 1)); [lia|congruence].
      * rewrite Hlen in Hfits. unfold maxSliceLen, ResourcesPageSize in *. lia.
  - apply Z.eqb_neq in Hz.
    assert (Hf : ~ shortPage ResourcesPageSize page)
      by (intros Hs; apply Hz, Hshort, Hs).
    rewrite (Hnext Hf) in Hloop.
    destruct (IH (j + 1) _ _ _ _ ltac:(lia)
                ltac:(rewrite Hlen; unfold shortPage in Hf; lia) Hloop Hfits)
      as (front & final & Hpages & Hcount & Hfront & Hfinal).
    exists (resp :: front), final.
    split; [|split; [rewrite Hcount, Hcalls; simpl; lia|split; [|exact Hfinal]]].
    + intros [|k] p Hk.
      * now injection Hk as <-.
      * rewrite <- (replyAhead_after_call _ _ _ _ _ _ _ k Hcall).
        now apply Hpages.
    + constructor; [now rewrite <- Hpage|exact Hfront].
Qed.

(** C8. The page size of the loop is positive. When the world answers one
    of the coming calls for the workspaces of an organization with a short
    page, the inner loop of [getAllWorkspacesWithParentOrganizationID]
    terminates, from any row offset and for any organization: with fuel
    for one round more than the calls before that page, it returns. When
    short pages keep coming, the function returns, having gone through the
    loop for every organization. The loop starts every organization at the
    row offset 0 and appends every page to one slice: when the workspaces
    it returns fit a slice, the loop has read the coming replies up to the
    first short page and has returned there, so every page before the last
    is not short and the last is short. The next row offset of a call whose
    row offset and page size do not add up to [2^64] is 0 exactly on a
    short page, and the loop stops exactly when the next row offset is
    0. *)
Theorem workspace_pages_loop_terminates :
  0 < ResourcesPageSize
  /\ (forall (orgID : string) (rowOffset : Z) (all : list Workspace) (s : State)
             (n : nat) (resp : WorkspaceReadListResponse),
         replyAhead listWorkspacesByOrganizationPath n s = Ok resp ->
         shortPage ResourcesPageSize (Workspaces resp) ->
         exists r, forall fuel, (S n <= fuel)%nat ->
           listOrganizationWorkspaces fuel orgID rowOffset all s = Some r)
  /\ (forall s : State,
         shortPagesRecur s ->
         exists enough r, forall fuel, (enough <= fuel)%nat ->
           getAllWorkspacesWithParentOrganizationID fuel s = Some r)
  /\ (forall (orgID : string) (fuel : nat) (all result : list Workspace)
             (s s' : State),
         listOrganizationWorkspaces fuel orgID 0 all s = Some (Ok result, s') ->
         Z.of_nat (length result) <= maxSliceLen ->
         exists (front : list WorkspaceReadListResponse)
                (final : WorkspaceReadListResponse),
           (forall k p, (front ++ [final])%list !! k = Some p ->
                        replyAhead listWorkspacesByOrganizationPath k s = Ok p)
           /\ calls listWorkspacesByOrganizationPath (st_world s')
              = (calls listWorkspacesByOrganizationPath (st_world s)
                 + S (length front))%nat
           /\ Forall (fun p => ~ shortPage ResourcesPageSize (Workspaces p)) front
           /\ shortPage ResourcesPageSize (Workspaces final))
  /\ (forall (orgID : string) (rowOffset : Z) (s s' : State)
             (page : list WorkspaceReadResponse) (next : Z),
         ListWorkspacesByOrganization orgID ResourcesPageSize rowOffset s
         = (Ok (page, next), s') ->
         0 <= rowOffset -> rowOffset + ResourcesPageSize < 2 ^ 64 ->
         (next = 0 <-> shortPage ResourcesPageSize page))
  /\ (forall (fuel : nat) (orgID : string) (rowOffset : Z) (all : list Workspace)
             (s s' : State) (page : list WorkspaceReadResponse) (next : Z),
         ListWorkspacesByOrganization orgID ResourcesPageSize rowOffset s
         = (Ok (page, next), s') ->
         (next = 0 ->
          listOrganizationWorkspaces (S fuel) orgID rowOffset all s
          = Some (Ok (all ++ workspacesOfPage page)%list, s'))
         /\ (next <> 0 ->
             listOrganizationWorkspaces (S fuel) orgID rowOffset all s
             = listOrganizationWorkspaces fuel orgID next
                 (all ++ workspacesOfPage page)%list s')).
Proof.
  split; [reflexivity|]. split; [|split; [|split; [|split]]].
  - intros orgID rowOffset all s n resp. apply pages_loop_returns.
  - exact getAllWorkspacesWithParentOrganizationID_terminates.
  - intros orgID fuel all result s s' Hloop Hfits.
    apply (loop_exits_on_short_page orgID fuel 0 all result s s');
      [lia|unfold ResourcesPageSize; lia|exact Hloop|exact Hfits].
  - intros orgID rowOffset s s' page next Hcall Hoff Hsum.
    destruct (reported_next_row_offset _ _ _ _ _ _ _ Hcall) as [Hshort Hfull].
    split; [|exact Hshort].
    intros Hzero.
    destruct (Z.lt_ge_cases (Z.of_nat (length page)) ResourcesPageSize) as [Hs|Hs];
      [exact Hs|exfalso].
    rewrite Hfull in Hzero by (unfold shortPage; lia).
    rewrite Z.mod_small in Hzero; unfold ResourcesPageSize in *; lia.
  - intros. now apply loop_stops_at_zero.
Qed.

End RowOffsetPagination.

(** ** The resource builders *)

Section Builders.

Context `{Externals}.

Lemma lift_run {A} (r : Res A) (s s' : State) (x : Res A) :
  lift r s = (x, s') -> x = r /\ s' = s.
Proof. unfold lift. now intros [= <- <-]. Qed.

Lemma Contains_In (l : list string) (x : string) :
  GoStrings.Contains l x = true <-> In x l.
Proof.
  unfold GoStrings.Contains. rewrite existsb_exists. split.
  - intros (y & Hy & Heq). apply String.eqb_eq in Heq. now subst.
  - intros Hx. exists x. split; [assumption|apply String.eqb_refl].
Qed.

(** A loop that appends keeps what holds of the elements it starts with
    and of the elements its body yields. *)
Lemma rangeAppend_Forall {A B} (P : B -> Prop) (body : A -> M (option B)) :
  (forall x s b s', body x s = (Ok (Some b), s') -> P b) ->
  forall (l : list A) (rv rv' : list B) (s s' : State),
    Forall P rv -> rangeAppend body l rv s = (Ok rv', s') -> Forall P rv'.
Proof.
  intros Hbody l. induction l as [|x l IH]; intros rv rv' s s' Hrv Hrun.
  - injection Hrun as <- <-. exact Hrv.
  - simpl in Hrun. apply bind_Ok in Hrun as (r & s1 & Hx & Hrest).
    refine (IH _ _ _ _ _ Hrest).
    destruct r as [b|]; [|exact Hrv].
    apply Forall_app. split; [exact Hrv|].
    constructor; [|constructor]. exact (Hbody _ _ _ _ Hx).
Qed.

(** A loop whose body touches no state and never fails. *)
Lemma rangeAppend_pure {A B} (body : A -> M (option B)) (f : A -> option B) :
  (forall x s, body x s = (Ok (f x), s)) ->
  forall (l : list A) (rv : list B) (s : State),
    rangeAppend body l rv s = (Ok (rv ++ omap f l)%list, s).
Proof.
  intros Hbody l. induction l as [|x l IH]; intros rv s; simpl.
  - now rewrite app_nil_r.
  - unfold bind. rewrite Hbody, IH. destruct (f x) as [b|]; [|reflexivity].
    now rewrite <- app_assoc.
Qed.

Lemma userResource_run (user : User) :
  userResource user
  = Ok {| Resource_Id := {| ResourceId_ResourceType := ResourceType_Id userResourceType;
                            ResourceId_Resource := User_ID user |};
          Resource_ParentResourceId := None;
          Resource_DisplayName := User_Email user;
          Resource_Annotations :=
            [UserTrait (User_Email user)
               [("name", User_Name user); ("email", User_Email user)]] |}.
Proof. reflexivity. Qed.

(** *** Users *)



(** *** Workspace permissions *)

Lemma workspaceGrant_run (resource : Resource)
    (u : WorkspaceUserAccessInfoReadResponse) (s : State) :
  workspaceGrant resource u s = (Ok (workspaceGrantOf resource u), s).
Proof.
  unfold workspaceGrant, workspaceGrantOf. cbv zeta.
  rewrite <- negb_orb.
  destruct (_ || _); reflexivity.
Qed.

(** The grants of [workspaceBuilder.Grants] are the grants of the access
    records the world replies with, in their order. *)
Lemma workspaceBuilder_Grants_run (resource : Resource) (pToken : Token)
    (s s' : State) (grants : list Grant) (next : string) :
  workspaceBuilder_Grants resource pToken s = (Ok (grants, next), s') ->
  exists resp,
    nextReply listUsersWithAccessInfoPath s = Ok resp
    /\ grants = omap (workspaceGrantOf resource) (UsersWithAccess resp).
Proof.
  intros Hrun. unfold workspaceBuilder_Grants in Hrun. cbv zeta in Hrun.
  apply bind_Ok in Hrun as (users & s1 & Hlist & Hrun).
  apply bind_Ok in Hrun as (rv & s2 & Hloop & Hret).
  injection Hret as <- <- <-.
  rewrite (rangeAppend_pure _ _ (workspaceGrant_run resource)) in Hloop.
  injection Hloop as <- <-.
  apply wrapping_Ok in Hlist. unfold ListUsersWithAccessInfoByWorkspace in Hlist.
  apply bind_Ok in Hlist as (resp & s3 & Hreq & Hret).
  injection Hret as <- <-.
  match type of Hreq with
  | doRequest ?m ?e ?q ?b false s = _ =>
      pose proof (doRequest_run m e q b s ltac:(discriminate)) as Hdo
  end.
  cbv zeta in Hdo. rewrite Hreq in Hdo. simpl in Hdo.
  destruct Hdo as (_ & _ & _ & Hreply & _).
  exists resp. split; [exact Hreply|reflexivity].
Qed.

Lemma table_lookup_other (p : string) :
  p <> "organization_admin" -> p <> "organization_editor" ->
  p <> "organization_runner" -> p <> "organization_reader" ->
  orgToWorkspacePermMap !! p = None.
Proof.
  intros Ha He Hr Hd. unfold orgToWorkspacePermMap.
  rewrite !lookup_insert_ne by congruence. apply lookup_empty.
Qed.

(** The permission type the loop of [workspaceBuilder.Grants] resolves
    for an access record without a workspace permission and with an
    organization permission, and the grant the body of the loop makes of
    it. *)
Lemma organization_permission_resolved
    (u : WorkspaceUserAccessInfoReadResponse) (op : PermissionRead) :
  WorkspacePermission u = None ->
  OrganizationPermission u = Some op ->
  let p := strings_ToLower (PermissionRead_PermissionType op) in
  (forall source target,
      In (source, target)
         [("organization_admin", "workspace_admin");
          ("organization_editor", "workspace_editor");
          ("organization_runner", "workspace_runner");
          ("organization_reader", "workspace_reader")] ->
      p = source ->
      resolvePermissionType u = target
      /\ forall resource s,
           workspaceGrant resource u s
           = (Ok (Some (grant.NewGrant resource target (principalOf u))), s))
  /\ (p = "organization_member"
      \/ (p <> "organization_admin" /\ p <> "organization_editor"
          /\ p <> "organization_runner" /\ p <> "organization_reader") ->
      resolvePermissionType u = ""
      /\ forall resource s, workspaceGrant resource u s = (Ok None, s)).
Proof.
  intros Hw Ho p. split.
  - intros source target Hin Hp.
    assert (Hres : resolvePermissionType u = target).
    { unfold resolvePermissionType. rewrite Hw, Ho. fold p. rewrite Hp.
      simpl in Hin.
      destruct Hin as [[= <- <-]|[[= <- <-]|[[= <- <-]|[[= <- <-]|[]]]]];
        reflexivity. }
    split; [exact Hres|].
    intros resource s. rewrite workspaceGrant_run. unfold workspaceGrantOf.
    rewrite Hres. simpl in Hin.
    destruct Hin as [[= <- <-]|[[= <- <-]|[[= <- <-]|[[= <- <-]|[]]]]];
      reflexivity.
  - intros Hp.
    assert (Hres : resolvePermissionType u = "").
    { unfold resolvePermissionType. rewrite Hw, Ho. fold p.
      destruct Hp as [->|(Ha & He & Hr & Hd)]; [reflexivity|].
      now rewrite table_lookup_other. }
    split; [exact Hres|].
    intros resource s. rewrite workspaceGrant_run. unfold workspaceGrantOf.
    now rewrite Hres.
Qed.

(** C2. In [workspaceBuilder.Grants], for every access record of the
    reply without a workspace permission and with an organization
    permission, the permission type resolved is the image of the
    lower-cased organization permission type under the table:
    [organization_admin] gives [workspace_admin], [organization_editor]
    gives [workspace_editor], [organization_runner] gives
    [workspace_runner] and [organization_reader] gives [workspace_reader],
    and the grants returned have, between the grants of the records before
    and those of the records after, the grant of that permission to the
    user of the record. For [organization_member], and for any other type
    that is not in the table, the resolved type is empty and the grants
    returned have no grant for the record: they are the grants of the
    records before followed by those of the records after. *)
Theorem organization_permission_translated
    (resource : Resource) (pToken : Token) (s s' : State)
    (grants : list Grant) (next : string) :
  workspaceBuilder_Grants resource pToken s = (Ok (grants, next), s') ->
  exists resp,
    nextReply listUsersWithAccessInfoPath s = Ok resp
    /\ forall (before after : list WorkspaceUserAccessInfoReadResponse)
              (u : WorkspaceUserAccessInfoReadResponse) (op : PermissionRead),
         UsersWithAccess resp = (before ++ u :: after)%list ->
         WorkspacePermission u = None ->
         OrganizationPermission u = Some op ->
         let p := strings_ToLower (PermissionRead_PermissionType op) in
         (forall source target,
             In (source, target)
                [("organization_admin", "workspace_admin");
                 ("organization_editor", "workspace_editor");
                 ("organization_runner", "workspace_runner");
                 ("organization_reader", "workspace_reader")] ->
             p = source ->
             resolvePermissionType u = target
             /\ grants
                = (omap (workspaceGrantOf resource) before
                   ++ grant.NewGrant resource target (principalOf u)
                   :: omap (workspaceGrantOf resource) after)%list)
         /\ (p = "organization_member"
             \/ (p <> "organization_admin" /\ p <> "organization_editor"
                 /\ p <> "organization_runner" /\ p <> "organization_reader") ->
             resolvePermissionType u = ""
             /\ grants
                = (omap (workspaceGrantOf resource) before
                   ++ omap (workspaceGrantOf resource) after)%list).
Proof.
  intros Hrun.
  destruct (workspaceBuilder_Grants_run _ _ _ _ _ _ Hrun) as (resp & Hreply & ->).
  exists resp. split; [exact Hreply|].
  intros before after u op Hsplit Hw Ho p.
  destruct (organization_permission_resolved u op Hw Ho) as [Htable Hother].
  rewrite Hsplit, omap_app. cbn [omap list_omap]. split.
  - intros source target Hin Hp.
    destruct (Htable source target Hin Hp) as [Hres Hgrant].
    split; [exact Hres|].
    specialize (Hgrant resource s). rewrite workspaceGrant_run in Hgrant.
    injection Hgrant as ->. reflexivity.
  - intros Hp. destruct (Hother Hp) as [Hres Hgrant].
    split; [exact Hres|].
    specialize (Hgrant resource s). rewrite workspaceGrant_run in Hgrant.
    injection Hgrant as ->. reflexivity.
Qed.

End Builders.

Section GrantsAndParents.

Context `{Externals}.

Lemma table_values (p m : string) :
  orgToWorkspacePermMap !! p = Some m -> In m PublicWorkspacePermissionsTypes.
Proof.
  unfold orgToWorkspacePermMap. intros Hp.
  repeat (apply lookup_insert_Some in Hp as [[_ <-]|[_ Hp]]; [simpl; tauto|]).
  now rewrite lookup_empty in Hp.
Qed.

(** A grant of [workspaceBuilder.Grants] carries a workspace permission,
    unless the access record has a workspace permission whose lower-cased
    type is an organization permission. *)
Lemma workspaceGrantOf_permission (resource : Resource)
    (u : WorkspaceUserAccessInfoReadResponse) (g : Grant) :
  workspaceGrantOf resource u = Some g ->
  In (Grant_Entitlement g) PublicWorkspacePermissionsTypes
  \/ (exists wp, WorkspacePermission u = Some wp
                 /\ Grant_Entitlement g
                    = strings_ToLower (PermissionRead_PermissionType wp)
                 /\ In (Grant_Entitlement g) PublicOrganizationPermissionsTypes).
Proof.
  unfold workspaceGrantOf. cbv zeta.
  destruct (GoStrings.Contains PublicWorkspacePermissionsTypes _) eqn:Hws.
  - intros [= <-]. left. now apply Contains_In.
  - destruct (GoStrings.Contains PublicOrganizationPermissionsTypes _) eqn:Horg;
      [|discriminate].
    intros [= <-]. simpl. apply Contains_In in Horg.
    unfold resolvePermissionType in *.
    destruct (WorkspacePermission u) as [wp|]; [right; eauto|].
    left. destruct (OrganizationPermission u) as [op|]; [|destruct Horg as [|[|[|[|[|[]]]]]]; discriminate].
    destruct (orgToWorkspacePermMap !! _) as [m|] eqn:Hm;
      [exact (table_values _ _ Hm)|destruct Horg as [|[|[|[|[|[]]]]]]; discriminate].
Qed.

Lemma orgGrant_permission (resource : Resource) (user : User) (s s' : State)
    (g : Grant) :
  orgGrant resource user s = (Ok (Some g), s') ->
  In (Grant_Entitlement g) PublicOrganizationPermissionsTypes.
Proof.
  unfold orgGrant. cbv zeta. intros Hrun.
  apply bind_Ok in Hrun as (permissionType & s1 & _ & Hrun).
  destruct (GoStrings.Contains PublicOrganizationPermissionsTypes permissionType)
    eqn:Hin; simpl in Hrun; [|discriminate].
  apply bind_Ok in Hrun as (ur & s2 & _ & Hret).
  injection Hret as <- <-. now apply Contains_In.
Qed.

(** C3, as amended. Every grant [workspaceBuilder.Grants] emits carries a
    permission type of the workspace permission set or of the organization
    permission set; it is of the workspace set whenever the access record
    has no workspace permission of its own, and of the organization set
    only when the lower-cased type of the record's workspace permission is
    an organization permission. Every grant [orgBuilder.Grants] emits
    carries a permission type of the organization permission set. *)
Theorem grants_carry_known_permissions :
  (forall (resource : Resource) (pToken : Token) (s s' : State)
          (grants : list Grant) (next : string),
      workspaceBuilder_Grants resource pToken s = (Ok (grants, next), s') ->
      Forall (fun g =>
                In (Grant_Entitlement g) PublicWorkspacePermissionsTypes
                \/ In (Grant_Entitlement g) PublicOrganizationPermissionsTypes)
             grants
      /\ exists resp,
           nextReply listUsersWithAccessInfoPath s = Ok resp
           /\ grants = omap (workspaceGrantOf resource) (UsersWithAccess resp))
  /\ (forall (resource : Resource) (u : WorkspaceUserAccessInfoReadResponse)
             (g : Grant),
         workspaceGrantOf resource u = Some g ->
         In (Grant_Entitlement g) PublicWorkspacePermissionsTypes
         \/ (exists wp, WorkspacePermission u = Some wp
                        /\ Grant_Entitlement g
                           = strings_ToLower (PermissionRead_PermissionType wp)
                        /\ In (Grant_Entitlement g)
                              PublicOrganizationPermissionsTypes))
  /\ (forall (resource : Resource) (pToken : Token) (s s' : State)
             (grants : list Grant) (next : string),
         orgBuilder_Grants resource pToken s = (Ok (grants, next), s') ->
         Forall (fun g => In (Grant_Entitlement g) PublicOrganizationPermissionsTypes)
                grants).
Proof.
  split; [|split].
  - intros resource pToken s s' grants next Hrun.
    destruct (workspaceBuilder_Grants_run _ _ _ _ _ _ Hrun) as (resp & Hreply & ->).
    split; [|eauto].
    apply Forall_forall. intros g Hg.
    apply list_elem_of_omap in Hg as (u & _ & Hu).
    destruct (workspaceGrantOf_permission _ _ _ Hu) as [|(wp & _ & _ & Horg)]; auto.
  - exact workspaceGrantOf_permission.
  - intros resource pToken s s' grants next Hrun.
    unfold orgBuilder_Grants in Hrun. cbv zeta in Hrun.
    apply bind_Ok in Hrun as (users & s1 & _ & Hrun).
    apply bind_Ok in Hrun as (rv & s2 & Hloop & Hret).
    injection Hret as <- <- <-.
    refine (rangeAppend_Forall _ _ _ _ _ _ _ _ _ Hloop); [|constructor].
    intros user s0 g s0'. apply orgGrant_permission.
Qed.

(** *** Workspaces and their parents *)

Lemma workspaceResources_run (index : gmap string string)
    (l : list WorkspaceResponse) (resources : list Resource) :
  workspaceResources index l resources
  = Ok (resources ++ map (workspaceResourceOf index) l)%list.
Proof.
  revert resources. induction l as [|ws l IH]; intros resources.
  - simpl. now rewrite app_nil_r.
  - cbn [workspaceResources map]. unfold workspaceResource, rs.NewResource.
    cbn. rewrite IH, <- app_assoc. reflexivity.
Qed.

(** The parent [workspaceBuilder.List] gives a workspace: the organization
    of the index entry when there is a non-empty one, else the sentinel. *)
Lemma parentOf_cases (index : gmap string string) (wsID : string) :
  exists org,
    parentOf index wsID
    = Some {| ResourceId_ResourceType := ResourceType_Id organizationResourceType;
              ResourceId_Resource := org |}
    /\ match index !! wsID with
       | Some orgID => if String.eqb orgID "" then org = "unknown-parent"
                       else org = orgID
       | None => org = "unknown-parent"
       end.
Proof.
  unfold parentOf. destruct (index !! wsID) as [orgID|]; [|eauto].
  destruct (String.eqb orgID ""); simpl; eauto.
Qed.

(** The resources of a successful [workspaceBuilder.List] are built from
    the listed workspaces and the workspace index the call leaves. *)
Lemma workspaceBuilder_List_resources (fuel : nat) (parent : option ResourceId)
    (pToken : Token) (s s' : State) (resources : list Resource) (next : string) :
  workspaceBuilder_List fuel parent pToken s = Some (Ok (resources, next), s') ->
  exists listed,
    resources = map (workspaceResourceOf (workspacesWithOrgIDMap s')) listed.
Proof.
  intros Hrun. unfold workspaceBuilder_List in Hrun.
  apply bindF_Ok in Hrun as ([] & s1 & _ & Hrun).
  unfold liftM in Hrun. injection Hrun as Hrun.
  apply bind_Ok in Hrun as ([bag offsetForCurrentPage] & s2 & _ & Hrun).
  apply bind_Ok in Hrun as ([listed offsetForNextPage] & s3 & _ & Hrun).
  apply bind_Ok in Hrun as (next' & s4 & _ & Hrun).
  apply bind_Ok in Hrun as (rs & s5 & Hres & Hret).
  injection Hret as <- <- <-.
  apply lift_run in Hres as [Hres ->].
  rewrite workspaceResources_run in Hres. injection Hres as ->.
  now exists listed.
Qed.

(** C1. Every resource [workspaceBuilder.List] returns has a parent
    resource id, of the organization resource type: its resource is the
    organization the workspace index holds for the id of the workspace when
    that entry is not empty, and ["unknown-parent"] when the index has no
    entry or an empty one. No returned resource is without a parent. *)
Theorem listed_workspaces_have_a_parent (fuel : nat) (parent : option ResourceId)
    (pToken : Token) (s s' : State) (resources : list Resource) (next : string) :
  workspaceBuilder_List fuel parent pToken s = Some (Ok (resources, next), s') ->
  Forall (fun r =>
            exists org,
              Resource_ParentResourceId r
              = Some {| ResourceId_ResourceType :=
                          ResourceType_Id organizationResourceType;
                        ResourceId_Resource := org |}
              /\ match workspacesWithOrgIDMap s'
                       !! ResourceId_Resource (Resource_Id r) with
                 | Some orgID => if String.eqb orgID "" then org = "unknown-parent"
                                 else org = orgID
                 | None => org = "unknown-parent"
                 end)
         resources.
Proof.
  intros Hrun.
  destruct (workspaceBuilder_List_resources _ _ _ _ _ _ _ Hrun) as [listed ->].
  apply List.Forall_map, List.Forall_forall. intros ws _.
  apply parentOf_cases.
Qed.

(** *** The index built on the first page *)

(** The index has no entry for a workspace id that no listed workspace
    with an organization carries. *)
Lemma populateIndex_absent (all : list Workspace) (wsID : string) :
  forall m : gmap string string,
    (forall w, In w all -> Workspace_ID w = wsID -> Workspace_OrganizationId w = "") ->
    populateIndex all m !! wsID = m !! wsID.
Proof.
  unfold populateIndex.
  induction all as [|w all IH]; intros m Habsent; [reflexivity|].
  simpl. rewrite IH by (intros w' Hw'; apply Habsent; now right).
  destruct (String.eqb_spec (Workspace_OrganizationId w) "") as [Horg|Horg];
    [reflexivity|].
  simpl. apply lookup_insert_ne. intros Heq.
  apply Horg, (Habsent w); [now left|exact Heq].
Qed.

Lemma getAllWorkspacesWithParentOrganizationID_frame (fuel : nat) (s s' : State)
    (r : Res (list Workspace)) :
  getAllWorkspacesWithParentOrganizationID fuel s = Some (r, s') ->
  workspacesWithOrgIDMap s' = workspacesWithOrgIDMap s.
Proof.
  unfold getAllWorkspacesWithParentOrganizationID, bindF, liftM, wrapping.
  unfold ListOrganizations, bind.
  match goal with
  | |- context [doRequest ?m ?e ?q ?b false s] =>
      pose proof (doRequest_run m e q b s ltac:(discriminate)) as Hrun;
      destruct (doRequest m e q b false s) as [[resp|err] s1]
  end; cbv zeta in Hrun; simpl in Hrun; destruct Hrun as (_ & _ & Hi & _); simpl.
  - intros Hloop.
    destruct (listAllOrganizationsWorkspaces_frame _ _ _ _ _ _ Hloop) as [_ Hi'].
    congruence.
  - now intros [= <- <-].
Qed.

(** On the first page (an empty page token) the index
    [workspaceBuilder.List] leaves is the one built from the workspaces of
    the organizations; a listed workspace that is under no organization in
    those listings gets the sentinel as parent. *)
Lemma unlisted_workspace_gets_sentinel (fuel : nat) (parent : option ResourceId)
    (pToken : Token) (s s' : State) (resources : list Resource) (next : string) :
  Token_Token pToken = "" ->
  workspaceBuilder_List fuel parent pToken s = Some (Ok (resources, next), s') ->
  exists all s1,
    getAllWorkspacesWithParentOrganizationID fuel (set_index ∅ s) = Some (Ok all, s1)
    /\ workspacesWithOrgIDMap s' = populateIndex all ∅
    /\ Forall (fun r =>
                 (forall w, In w all ->
                            Workspace_ID w = ResourceId_Resource (Resource_Id r) ->
                            Workspace_OrganizationId w = "") ->
                 Resource_ParentResourceId r
                 = Some {| ResourceId_ResourceType :=
                             ResourceType_Id organizationResourceType;
                           ResourceId_Resource := "unknown-parent" |})
              resources.
Proof.
  intros Htoken Hrun.
  destruct (workspaceBuilder_List_resources _ _ _ _ _ _ _ Hrun) as [listed Hres].
  unfold workspaceBuilder_List in Hrun. rewrite Htoken in Hrun.
  apply bindF_Ok in Hrun as ([] & s1 & Hbuild & Hrun).
  apply bindF_Ok in Hbuild as ([] & sa & Hreset & Hbuild).
  injection Hreset as <-.
  apply bindF_Ok in Hbuild as (all & sb & Hall & Hfill).
  apply wrappingF_Ok in Hall. injection Hfill as <-.
  pose proof (getAllWorkspacesWithParentOrganizationID_frame _ _ _ _ Hall) as Hi.
  simpl in Hi.
  unfold liftM in Hrun. injection Hrun as Hrun.
  apply bind_Ok in Hrun as ([bag offsetForCurrentPage] & s2 & Hparse & Hrun).
  apply lift_run in Hparse as [_ ->].
  apply bind_Ok in Hrun as ([ws offsetForNextPage] & s3 & Hlist & Hrun).
  apply bind_Ok in Hrun as (next' & s4 & Hnext & Hrun).
  apply lift_run in Hnext as [_ ->].
  apply bind_Ok in Hrun as (rs & s5 & Hrs & Hret).
  apply lift_run in Hrs as [_ ->].
  injection Hret as _ _ <-.
  apply wrapping_Ok in Hlist. unfold ListAllWorkspaces in Hlist.
  apply bind_Ok in Hlist as (resp & s6 & Hreq & Hret).
  injection Hret as _ _ <-.
  match type of Hreq with
  | doRequest ?m ?e ?q ?b false ?s0 = _ =>
      pose proof (doRequest_run m e q b s0 ltac:(discriminate)) as Hdo
  end.
  cbv zeta in Hdo. rewrite Hreq in Hdo. simpl in Hdo.
  destruct Hdo as (_ & _ & Hindex & _).
  assert (Hfinal : workspacesWithOrgIDMap s6 = populateIndex all ∅)
    by (rewrite Hindex, Hi; reflexivity).
  exists all, sb. split; [exact Hall|]. split; [exact Hfinal|].
  rewrite Hres. apply List.Forall_map, List.Forall_forall. intros w _ Habsent.
  simpl in *. unfold parentOf. rewrite Hfinal, (populateIndex_absent _ _ _ Habsent).
  now rewrite lookup_empty.
Qed.

End GrantsAndParents.

(* ===================================================================== *)
(** * The properties on the scenarios *)
(* ===================================================================== *)

Import Scenario.

Ltac page_length :=
  cbv [shortPage ResourcesPageSize fullPage shortPageOf3 Workspaces];
  rewrite ?repeat_length; simpl; lia.

(** The scenario of two organizations: W1 is listed under the first
    organization and gets it as parent, W2 is listed under none and gets
    the sentinel. *)
Lemma listed_workspaces_have_a_parent_witness :
  match workspaceBuilder_List 3 None firstPage (start signedOut twoOrganizations) with
  | Some (Ok (resources, next), s') =>
      map Resource_ParentResourceId resources
      = [organizationParent "O1"; organizationParent "unknown-parent"]
      /\ Forall (fun r =>
                   exists org,
                     Resource_ParentResourceId r = organizationParent org
                     /\ match workspacesWithOrgIDMap s'
                              !! ResourceId_Resource (Resource_Id r) with
                        | Some orgID =>
                            if String.eqb orgID "" then org = "unknown-parent"
                            else org = orgID
                        | None => org = "unknown-parent"
                        end)
                resources
  | _ => False
  end.
Proof.
  destruct (workspaceBuilder_List 3 None firstPage (start signedOut twoOrganizations))
    as [[[[resources next]|e] s']|] eqn:Hrun.
  - split.
    + vm_compute in Hrun. injection Hrun as <- _ _. reflexivity.
    + exact (listed_workspaces_have_a_parent _ _ _ _ _ _ _ Hrun).
  - vm_compute in Hrun. discriminate.
  - vm_compute in Hrun. discriminate.
Defined.

(** ** Workspace permissions *)

(** An organization administrator without a workspace permission is a
    workspace administrator; an organization member without a workspace
    permission gets no grant: of the two records of the reply, only the
    first has a grant. *)
Lemma organization_permission_translated_witness :
  match workspaceBuilder_Grants (resourceOf "workspace" "W1") firstPage
          (start signedIn
             (accessWorld [accessRecord "u2" None (Some "Organization_Admin");
                           accessRecord "u3" None (Some "organization_member")]))
  with
  | (Ok (grants, _), _) =>
      grants
      = [grant.NewGrant (resourceOf "workspace" "W1") "workspace_admin"
           (principalOf (accessRecord "u2" None (Some "Organization_Admin")))]
      /\ resolvePermissionType (accessRecord "u2" None (Some "Organization_Admin"))
         = "workspace_admin"
      /\ resolvePermissionType (accessRecord "u3" None (Some "organization_member"))
         = ""
  | _ => False
  end.
Proof.
  destruct (workspaceBuilder_Grants _ _ _) as [[[grants next]|e] s'] eqn:Hrun;
    [|vm_compute in Hrun; discriminate].
  destruct (organization_permission_translated _ _ _ _ _ _ Hrun)
    as (resp & Hreply & Hrecords).
  vm_compute in Hreply. injection Hreply as <-.
  destruct (proj1 (Hrecords []
                     [accessRecord "u3" None (Some "organization_member")]
                     (accessRecord "u2" None (Some "Organization_Admin")) _
                     eq_refl eq_refl eq_refl)
                  "organization_admin" "workspace_admin")
    as [Hadmin Hgrants]; [simpl; tauto|reflexivity|].
  destruct (proj2 (Hrecords [accessRecord "u2" None (Some "Organization_Admin")] []
                     (accessRecord "u3" None (Some "organization_member")) _
                     eq_refl eq_refl eq_refl))
    as [Hmember _]; [left; reflexivity|].
  split; [exact Hgrants|]. split; [exact Hadmin|exact Hmember].
Defined.

(** C3 as stated fails: an access record whose workspace permission has
    the type [organization_member] gets a grant on the workspace with the
    permission [organization_member], which is not a workspace
    permission. *)
Lemma workspace_grant_outside_workspace_set :
  fst (workspaceBuilder_Grants (resourceOf "workspace" "W1") firstPage
         (start signedOut
            (accessWorld [accessRecord "u1" (Some "organization_member") None])))
  = Ok ([grant.NewGrant (resourceOf "workspace" "W1") "organization_member"
           {| ResourceId_ResourceType := "user"; ResourceId_Resource := "u1" |}],
        "")
  /\ ~ In "organization_member" PublicWorkspacePermissionsTypes.
Proof.
  split; [vm_compute; reflexivity|].
  intros Hin. repeat (destruct Hin as [Hin|Hin]; [discriminate|]). exact Hin.
Qed.

Lemma grants_carry_known_permissions_witness :
  match workspaceBuilder_Grants (resourceOf "workspace" "W1") firstPage
          (start signedOut
             (accessWorld [accessRecord "u1" (Some "organization_member") None;
                           accessRecord "u2" None (Some "Organization_Admin");
                           accessRecord "u3" None (Some "organization_member")]))
  with
  | (Ok (grants, _), _) =>
      map Grant_Entitlement grants = ["organization_member"; "workspace_admin"]
      /\ Forall (fun g =>
                   In (Grant_Entitlement g) PublicWorkspacePermissionsTypes
                   \/ In (Grant_Entitlement g) PublicOrganizationPermissionsTypes)
                grants
  | _ => False
  end
  /\ match orgBuilder_Grants (resourceOf "organization" "O1") firstPage
             (start signedOut (memberWorld "ORGANIZATION_ADMIN"))
     with
     | (Ok (grants, _), _) =>
         map Grant_Entitlement grants = ["organization_admin"]
         /\ Forall (fun g =>
                      In (Grant_Entitlement g) PublicOrganizationPermissionsTypes)
                   grants
     | _ => False
     end.
Proof.
  split.
  - destruct (workspaceBuilder_Grants _ _ _) as [[[grants next]|e] s'] eqn:Hrun.
    + split.
      * vm_compute in Hrun. injection Hrun as <- _ _. reflexivity.
      * exact (proj1 (proj1 grants_carry_known_permissions _ _ _ _ _ _ Hrun)).
    + vm_compute in Hrun. discriminate.
  - destruct (orgBuilder_Grants _ _ _) as [[[grants next]|e] s'] eqn:Hrun.
    + split.
      * vm_compute in Hrun. injection Hrun as <- _ _. reflexivity.
      * exact (proj2 (proj2 grants_carry_known_permissions) _ _ _ _ _ _ Hrun).
    + vm_compute in Hrun. discriminate.
Defined.

(** ** Users *)


(** ** The token manager *)

(** A client without a token asks for one and stores it with the expiry of
    its claims; a client whose token expires long after the current time
    makes no request. *)
Lemma token_refreshed_only_when_due_witness :
  (fst (ensureValidToken (start signedIn (tokenWorld tokenText))) = Ok tt
   /\ requests (snd (ensureValidToken (start signedIn (tokenWorld tokenText)))) = []
   /\ st_client (snd (ensureValidToken (start signedIn (tokenWorld tokenText))))
      = signedIn)
  /\ (requests (snd (ensureValidToken (start signedOut (tokenWorld tokenText))))
      = [tokenRequest signedOut]
      /\ fst (ensureValidToken (start signedOut (tokenWorld tokenText))) = Ok tt
      /\ credential (snd (ensureValidToken (start signedOut (tokenWorld tokenText))))
         = (tokenText, time_Unix 1700000000)).
Proof.
  split.
  - refine (proj1 (token_refreshed_only_when_due
                     (start signedIn (tokenWorld tokenText))) _ _).
    + discriminate.
    + vm_compute. discriminate.
  - destruct (proj2 (token_refreshed_only_when_due
                       (start signedOut (tokenWorld tokenText))))
      as (Hsent & Hnew & _).
    + left. reflexivity.
    + split; [exact Hsent|].
      refine (Hnew {| AccessToken := tokenText |} tokenText (time_Unix 1700000000) _ _).
      * reflexivity.
      * vm_compute. reflexivity.
Defined.

(** C5 as stated fails on the boundary: with a token held whose stored
    expiry is exactly 30 seconds after the current time, so within 30
    seconds of it, [ensureValidToken] makes no token request. *)
Lemma token_kept_at_30_seconds :
  accessToken (clientWith tokenText (clockTime + 30 * Second)) <> ""
  /\ tokenExpiry (clientWith tokenText (clockTime + 30 * Second))
     - currentTime (start (clientWith tokenText (clockTime + 30 * Second))
                  (tokenWorld tokenText))
     = 30 * Second
  /\ fst (ensureValidToken
            (start (clientWith tokenText (clockTime + 30 * Second))
                   (tokenWorld tokenText)))
     = Ok tt
  /\ requests (snd (ensureValidToken
                      (start (clientWith tokenText (clockTime + 30 * Second))
                             (tokenWorld tokenText))))
     = [].
Proof.
  split; [discriminate|]. split; [reflexivity|].
  split; vm_compute; reflexivity.
Qed.

(** Tokens that are rejected: one of two parts, one whose middle part is
    not base64url text, and one whose middle part decodes to text that is
    not JSON. Nothing is stored. *)
Lemma malformed_token_stores_nothing_witness :
  Forall (fun token =>
            (exists e, fst (GetAccessToken (start signedOut (tokenWorld token)))
                       = Fail e)
            /\ credential (snd (ensureValidToken (start signedOut (tokenWorld token))))
               = credential (start signedOut (tokenWorld token))
            /\ exists e, fst (ensureValidToken (start signedOut (tokenWorld token)))
                         = Fail e)
         [twoParts; "h.!.s"; "h.eA.s"].
Proof.
  assert (Hall : forall token,
             malformed {| AccessToken := token |} ->
             (exists e, fst (GetAccessToken (start signedOut (tokenWorld token)))
                        = Fail e)
             /\ credential (snd (ensureValidToken (start signedOut (tokenWorld token))))
                = credential (start signedOut (tokenWorld token))
             /\ exists e, fst (ensureValidToken (start signedOut (tokenWorld token)))
                          = Fail e).
  { intros token Hbad.
    destruct (proj1 malformed_token_stores_nothing
                (start signedOut (tokenWorld token))
                {| AccessToken := token |} eq_refl Hbad)
      as (Hget & _ & Hkeep & Hfail).
    split; [exact Hget|]. split; [exact Hkeep|]. apply Hfail. left. reflexivity. }
  constructor; [|constructor; [|constructor; [|constructor]]]; apply Hall.
  - left. vm_compute. discriminate.
  - right. left. eexists. vm_compute. reflexivity.
  - right. right. eexists _, _. split; vm_compute; reflexivity.
Defined.

(** ** Pagination by row offset *)

(** A full page at row offset 100 gives 150 as next row offset; a short
    page gives 0, and the loop stops there. *)
Lemma next_row_offset_rule_witness :
  match ListWorkspacesByOrganization "O1" 50 100
          (start signedIn (pagesWorld [fullPage]))
  with
  | (Ok (page, next), _) => next = 150
  | _ => False
  end
  /\ match ListWorkspacesByOrganization "O1" 50 100
             (start signedIn (pagesWorld [shortPageOf3]))
     with
     | (Ok (page, next), s') =>
         next = 0
         /\ listOrganizationWorkspaces 1 "O1" 100 []
              (start signedIn (pagesWorld [shortPageOf3]))
            = Some (Ok (workspacesOfPage page), s')
     | _ => False
     end.
Proof.
  split.
  - destruct (ListWorkspacesByOrganization _ _ _ _) as [[[page next]|e] s'] eqn:Hrun.
    + assert (Hfull : ~ shortPage 50 page).
      { vm_compute in Hrun. injection Hrun as <- _ _. unfold shortPage. simpl. lia. }
      refine (proj2 (proj2 (proj1 next_row_offset_rule _ _ _ _ _ _ _ Hrun) Hfull)
                _ _ _); lia.
    + vm_compute in Hrun. discriminate.
  - destruct (ListWorkspacesByOrganization _ _ _ _) as [[[page next]|e] s'] eqn:Hrun.
    + assert (Hshort : shortPage 50 page).
      { vm_compute in Hrun. injection Hrun as <- _ _. unfold shortPage. simpl. lia. }
      pose proof (proj1 (proj1 (proj1 next_row_offset_rule _ _ _ _ _ _ _ Hrun) Hshort))
        as Hzero.
      split; [exact Hzero|].
      exact (proj1 (proj2 next_row_offset_rule 0%nat _ _ [] _ _ _ _ Hrun) Hzero).
    + vm_compute in Hrun. discriminate.
Defined.

(** C6 as stated fails when the sum of row offset and page size reaches
    [2^64]. On a page that is not short, the next row offset is not the sum
    but 0: a page of one item, asked for with page size 1 at row offset
    [2^64 - 1]. And on a short page the next row offset 0 is the [uint64]
    sum of row offset and page size: an empty page, asked for with page
    size 50 at row offset [2^64 - 50]. *)
Lemma next_row_offset_wraps :
  (fst (ListWorkspacesByOrganization "O1" 1 (2 ^ 64 - 1)
          (start signedIn (pagesWorld [[readWorkspace "W1" "O1"]])))
   = Ok ([readWorkspace "W1" "O1"], 0)
   /\ ~ shortPage 1 [readWorkspace "W1" "O1"]
   /\ 0 <> (2 ^ 64 - 1) + 1)
  /\ (fst (ListWorkspacesByOrganization "O1" 50 (2 ^ 64 - 50)
             (start signedIn (pagesWorld [[]])))
      = Ok ([], 0)
      /\ shortPage 50 []
      /\ 0 = uint64_add (2 ^ 64 - 50) 50).
Proof.
  split; (split; [vm_compute; reflexivity|split]).
  - unfold shortPage. simpl. lia.
  - vm_compute. discriminate.
  - unfold shortPage. simpl. lia.
  - vm_compute. reflexivity.
Qed.

(** After a full page and a page of three, the loop returns with fuel for
    two rounds or more: it has made two calls, and the page it stopped on
    is the short one. *)
Lemma workspace_pages_loop_terminates_witness :
  (exists r, forall fuel, (2 <= fuel)%nat ->
     listOrganizationWorkspaces fuel "O1" 0 []
       (start signedIn (pagesWorld [fullPage; shortPageOf3]))
     = Some r)
  /\ match listOrganizationWorkspaces 3 "O1" 0 []
             (start signedIn (pagesWorld [fullPage; shortPageOf3]))
     with
     | Some (Ok result, s') =>
         length result = 53%nat
         /\ calls listWorkspacesByOrganizationPath (st_world s') = 2%nat
         /\ exists front final,
              length front = 1%nat
              /\ Forall (fun p => ~ shortPage ResourcesPageSize (Workspaces p)) front
              /\ shortPage ResourcesPageSize (Workspaces final)
     | _ => False
     end.
Proof.
  split.
  - refine (proj1 (proj2 workspace_pages_loop_terminates) "O1" 0 []
              (start signedIn (pagesWorld [fullPage; shortPageOf3]))
              1%nat {| Workspaces := shortPageOf3 |} _ _).
    + reflexivity.
    + page_length.
  - destruct (listOrganizationWorkspaces 3 "O1" 0 [] _)
      as [[[result|e] s']|] eqn:Hrun;
      [|vm_compute in Hrun; discriminate|vm_compute in Hrun; discriminate].
    assert (Hlength : length result = 53%nat)
      by (vm_compute in Hrun; injection Hrun as <- _; reflexivity).
    assert (Hcalls : calls listWorkspacesByOrganizationPath (st_world s') = 2%nat)
      by (vm_compute in Hrun; injection Hrun as _ <-; reflexivity).
    destruct (proj1 (proj2 (proj2 (proj2 workspace_pages_loop_terminates)))
                "O1" 3%nat [] result _ s' Hrun)
      as (front & final & _ & Hcount & Hfront & Hfinal).
    + rewrite Hlength. unfold maxSliceLen. lia.
    + split; [exact Hlength|]. split; [exact Hcalls|].
      exists front, final. split; [|split; [exact Hfront|exact Hfinal]].
      rewrite Hcalls in Hcount. simpl in Hcount. lia.
Defined.

(** ** The next-page offset *)

(** The offset of the link in the comment of the source. *)
Lemma next_offset_is_decoded_value_witness :
  GetOffsetForTheNextPageFromURL
    "https://api.airbyte.com/v1/workspaces?includeDeleted=false&limit=10&offset=10"
  = "10"
  /\ GetOffsetForTheNextPageFromURL ".../workspaces?limit=10&offset=10" = "10".
Proof.
  split.
  - refine (proj2 (proj1 next_offset_is_decoded_value
              "https://api.airbyte.com/v1/workspaces?includeDeleted=false&limit=10&offset=10"
              {| URL.Scheme := "https"; URL.Opaque := ""; URL.Host := "api.airbyte.com";
                 URL.Path := "/v1/workspaces";
                 URL.RawQuery := "includeDeleted=false&limit=10&offset=10";
                 URL.Fragment := "" |}
              ["includeDeleted=false"; "limit=10"] [] "10" _ _ _ _ _) _ _).
    + discriminate.
    + vm_compute. reflexivity.
    + reflexivity.
    + repeat constructor; intros x; vm_compute; discriminate.
    + reflexivity.
    + reflexivity.
    + reflexivity.
  - refine (proj1 (proj2 next_offset_is_decoded_value)
              {| URL.Scheme := ""; URL.Opaque := ""; URL.Host := "";
                 URL.Path := ".../workspaces"; URL.RawQuery := "limit=10&offset=10";
                 URL.Fragment := "" |} _ _).
    + vm_compute. reflexivity.
    + reflexivity.
Defined.

(** C7 as stated fails: the value returned is the decoded value of the
    parameter, not its text. For the offset written [1%300] the function
    returns [100], for [a+b] it returns [a b]; and for a link that
    [url.Parse] rejects it returns the empty string though the link has an
    offset parameter. *)
Lemma next_offset_not_literal :
  GetOffsetForTheNextPageFromURL
    "https://api.airbyte.com/v1/workspaces?limit=10&offset=1%300" = "100"
  /\ GetOffsetForTheNextPageFromURL
       "https://api.airbyte.com/v1/workspaces?limit=10&offset=a+b" = "a b"
  /\ GetOffsetForTheNextPageFromURL
       "://api.airbyte.com/v1/workspaces?limit=10&offset=10" = "".
Proof. repeat split; vm_compute; reflexivity. Qed.


(* ===================================================================== *)
(** * Further properties of the client *)
(* ===================================================================== *)

Section AuthenticatedRequests.

Context `{Externals}.

(** A token whose expiry is read is the token of the reply, and it is not
    empty: the empty text has one part, not three. *)
Lemma parsed_token_not_empty (t : TokenResponse) (token : string) (expiry : Z) :
  parseJWTExpiry t = Ok (token, expiry) ->
  token = AccessToken t /\ token <> "".
Proof.
  unfold parseJWTExpiry. destruct t as [text]. cbn [AccessToken].
  destruct text as [|c text]; [discriminate|].
  destruct (negb _); [discriminate|].
  destruct (base64_RawURLEncoding_DecodeString _); [|discriminate].
  destruct (json_Unmarshal_JWTClaims _); [|discriminate].
  intros [= <- _]. split; [reflexivity|discriminate].
Qed.

(** The three ways [ensureValidToken] ends: the token is kept; a token
    was asked for and the call failed; a token was asked for and stored. *)
Lemma ensureValidToken_outcome (s : State) :
  (accessToken (st_client s) <> ""
   /\ fst (ensureValidToken s) = Ok tt
   /\ requests (snd (ensureValidToken s)) = requests s
   /\ st_client (snd (ensureValidToken s)) = st_client s)
  \/ (requests (snd (ensureValidToken s))
      = (requests s ++ [tokenRequest (st_client s)])%list
      /\ ((exists e, fst (ensureValidToken s) = Fail e
                     /\ st_client (snd (ensureValidToken s)) = st_client s)
          \/ (fst (ensureValidToken s) = Ok tt
              /\ accessToken (st_client (snd (ensureValidToken s))) <> ""))).
Proof.
  destruct (String.eqb_spec (accessToken (st_client s)) "") as [Htok|Htok];
    [|destruct (Z.lt_ge_cases (tokenExpiry (st_client s))
                  (currentTime s + 30 * Second)) as [Hexp|Hexp]].
  3: { left. rewrite (ensureValidToken_keep s Htok) by lia. auto. }
  all: right;
    (destruct (ensureValidToken_renew s) as (s0 & _ & Hc & Hr & Hn & ->);
     [tauto|]);
    rewrite (GetAccessToken_run s0), Hn, Hc;
    (assert (Hsent : requests (snd (httpDo (tokenRequest (st_client s)) s0))
                     = (requests s ++ [tokenRequest (st_client s)])%list)
       by (unfold requests in *; simpl; now rewrite Hr));
    (destruct (nextReply getAccessTokenPath s) as [t|e];
     [destruct (parseJWTExpiry t) as [[token expiry]|e] eqn:Hparse|]);
    simpl; (split; [exact Hsent|]);
    try (left; eexists; split; [reflexivity|exact Hc]).
  all: right; split; [reflexivity|];
    apply (parsed_token_not_empty _ _ _ Hparse).
Qed.

(** X1. An authenticated [doRequest] runs [ensureValidToken], which makes
    no request or the one token request. When that step fails,
    [doRequest] fails with the same error and its own request is not made:
    the token request is the only request added, and the client is as it
    was. When the step succeeds, the own request is made next, with the
    token the client holds after the step in its header, and the outcome
    of [doRequest] is the reply to it. *)
Theorem authenticated_request_accounting (method : string) (e : Endpoint)
    (query body : list (string * Param)) (s : State) :
  let t := ensureValidToken s in
  let r := doRequest method e query body false s in
  let own := {| Request_Method := method; Request_Path := e;
                Request_Query := query; Request_Body := body;
                Request_Authorization :=
                  Some ("Bearer " ++ accessToken (st_client (snd t))) |} in
  (requests (snd t) = requests s
   \/ requests (snd t) = (requests s ++ [tokenRequest (st_client s)])%list)
  /\ match fst t with
     | Fail err =>
         r = (Fail err, snd t)
         /\ requests (snd r) = (requests s ++ [tokenRequest (st_client s)])%list
         /\ st_client (snd r) = st_client s
     | Ok _ =>
         fst r = nextReply e (snd t)
         /\ requests (snd r) = (requests (snd t) ++ [own])%list
         /\ st_client (snd r) = st_client (snd t)
     end.
Proof.
  cbv zeta. unfold doRequest. cbn [negb]. unfold bind.
  destruct (ensureValidToken_outcome s)
    as [(_ & Hok & Hsent & Hclient)|[Hsent [(err & Hfail & Hclient)|[Hok _]]]];
    destruct (ensureValidToken s) as [[[]|err'] s1]; simpl in *;
    try discriminate.
  - split; [now left|]. repeat split.
  - split; [now right|]. repeat split; assumption.
  - split; [now right|]. repeat split.
Qed.

(** X2. When [ensureValidToken] succeeds the client holds a token that is
    not empty. So every request that an authenticated [doRequest] adds to
    the requests made, and that has an authorization header, carries a
    token that is not empty. *)
Theorem bearer_token_never_empty :
  (forall s : State,
      fst (ensureValidToken s) = Ok tt ->
      accessToken (st_client (snd (ensureValidToken s))) <> "")
  /\ (forall (method : string) (e : Endpoint) (query body : list (string * Param))
             (s : State) (req : Request) (header : string),
         In req (requests (snd (doRequest method e query body false s))) ->
         Request_Authorization req = Some header ->
         In req (requests s)
         \/ exists token, token <> "" /\ header = ("Bearer " ++ token)%string).
Proof.
  assert (Hheld : forall s : State,
             fst (ensureValidToken s) = Ok tt ->
             accessToken (st_client (snd (ensureValidToken s))) <> "").
  { intros s Hok.
    destruct (ensureValidToken_outcome s)
      as [(Htok & _ & _ & ->)|[_ [(err & Hfail & _)|[_ Htok]]]];
      [exact Htok|congruence|exact Htok]. }
  split; [exact Hheld|].
  intros method e query body s req header Hin Hheader.
  unfold doRequest in Hin. cbn [negb] in Hin. unfold bind in Hin.
  pose proof (Hheld s) as Htok.
  destruct (ensureValidToken_outcome s)
    as [(_ & _ & Hsent & _)|[Hsent _]];
    destruct (ensureValidToken s) as [[[]|err] s1]; simpl in *;
    unfold requests in *; simpl in Hin; rewrite Hsent in Hin;
    repeat (apply in_app_or in Hin as [Hin|Hin]); auto;
    repeat (destruct Hin as [<-|Hin]; [|try contradiction]);
    try discriminate Hheader.
  all: right; exists (accessToken (st_client s1)); split; [now apply Htok|];
    simpl in Hheader; congruence.
Qed.

End AuthenticatedRequests.

Section TokenParts.

Context `{Externals}.

Import GoStrings.

Lemma Split_one_part (s : string) :
  ContainsByte "." s = false -> Split "." s = [s].
Proof.
  induction s as [|c s IH]; [reflexivity|].
  simpl. intros Hdot. apply orb_false_elim in Hdot as [Hc Hs].
  now rewrite Hc, (IH Hs).
Qed.

Lemma Split_first_part (part rest : string) :
  ContainsByte "." part = false ->
  Split "." (part ++ String "." rest) = part :: Split "." rest.
Proof.
  induction part as [|c part IH]; [reflexivity|].
  simpl. intros Hdot. apply orb_false_elim in Hdot as [Hc Hs].
  change (String c part ++ String "." rest)%string
    with (String c (part ++ String "." rest)).
  simpl. now rewrite Hc, (IH Hs).
Qed.

(** [time.Unix] on the seconds an [int64] holds: the instant [sec] seconds
    after the epoch as long as the seconds since the year 1 fit an
    [int64], and the instant [2^64] seconds earlier from there on. *)
Lemma time_Unix_value (sec : Z) :
  (- 2 ^ 63 <= sec < 2 ^ 63 - unixToInternal -> time_Unix sec = sec * Second)
  /\ (2 ^ 63 - unixToInternal <= sec < 2 ^ 63 ->
      time_Unix sec = (sec - 2 ^ 64) * Second).
Proof.
  unfold time_Unix, int64_wrap, unixToInternal. split; intros Hsec.
  - rewrite Z.mod_small by lia. f_equal. lia.
  - replace (sec + 62135596800 + 2 ^ 63)
      with (sec + 62135596800 - 2 ^ 63 + 1 * 2 ^ 64) by lia.
    rewrite Z_mod_plus_full, Z.mod_small by lia. f_equal. lia.
Qed.

(** X3. [GetAccessToken] reads the expiry from the middle part of the
    token alone: for a token of three parts whose middle part decodes to
    claims that are parsed, whatever its first and last part, it returns
    the token as it came and [time.Unix] of the [exp] claim. It makes the
    one token request and leaves the client as it was. The expiry is the
    instant [exp] seconds after the epoch as long as [exp] is below
    [2^63 - 62135596800]; for a greater [exp] the seconds of [time.Unix]
    wrap around and the expiry is [2^64] seconds earlier, long before the
    epoch. *)
Theorem token_expiry_read_from_middle_part
    (header middle signature : string) (claimsJSON : list Byte.byte)
    (claims : JWTClaims) :
  ContainsByte "." header = false ->
  ContainsByte "." middle = false ->
  ContainsByte "." signature = false ->
  base64_RawURLEncoding_DecodeString middle = Ok claimsJSON ->
  json_Unmarshal_JWTClaims claimsJSON = Ok claims ->
  let token := (header ++ "." ++ middle ++ "." ++ signature)%string in
  forall s : State,
    nextReply getAccessTokenPath s = Ok {| AccessToken := token |} ->
    fst (GetAccessToken s) = Ok (token, time_Unix (ExpiresAt claims))
    /\ st_client (snd (GetAccessToken s)) = st_client s
    /\ requests (snd (GetAccessToken s))
       = (requests s ++ [tokenRequest (st_client s)])%list
    /\ (- 2 ^ 63 <= ExpiresAt claims < 2 ^ 63 - unixToInternal ->
        time_Unix (ExpiresAt claims) = ExpiresAt claims * Second)
    /\ (2 ^ 63 - unixToInternal <= ExpiresAt claims < 2 ^ 63 ->
        time_Unix (ExpiresAt claims) = (ExpiresAt claims - 2 ^ 64) * Second
        /\ time_Unix (ExpiresAt claims) < 0).
Proof.
  intros Hh Hm Hs Hdecode Hparse token s Hreply.
  rewrite GetAccessToken_run, Hreply. cbn [fst snd].
  split; [|split; [reflexivity|split; [reflexivity|]]].
  - unfold parseJWTExpiry. cbn [AccessToken].
    assert (Hparts : Split "." token = [header; middle; signature]).
    { unfold token.
      change (header ++ "." ++ middle ++ "." ++ signature)%string
        with (header ++ String "." (middle ++ String "." signature))%string.
      now rewrite !Split_first_part, Split_one_part. }
    rewrite Hparts. cbn [length Nat.eqb negb nth]. now rewrite Hdecode, Hparse.
  - destruct (time_Unix_value (ExpiresAt claims)) as [Hplain Hwrapped].
    split; [exact Hplain|]. intros Hexp. rewrite (Hwrapped Hexp).
    split; [reflexivity|]. unfold Second. lia.
Qed.

(** X4. The request [ListAllWorkspaces] makes is a [GET] on the path of
    the workspaces whose query has the limit and the offset: the offset
    [0] when the offset given is empty, and else the offset given, as it
    is. So the offset one call returns is the offset the next call asks
    for. *)
Theorem listing_offset_passed_on (limit : Z) (offset : string) (s s' : State)
    (data : list WorkspaceResponse) (next : string) :
  ListAllWorkspaces limit offset s = (Ok (data, next), s') ->
  (exists req,
      last (requests s') = Some req
      /\ Request_Method req = "GET"
      /\ Request_Path req = listWorkspacesPath
      /\ Request_Query req
         = listingQuery limit (if String.eqb offset "" then "0" else offset)
      /\ Request_Body req = [])
  /\ forall (s2 : State) (data2 : list WorkspaceResponse) (next2 : string),
       next <> "" ->
       ListAllWorkspaces limit next s' = (Ok (data2, next2), s2) ->
       exists req,
         last (requests s2) = Some req
         /\ Request_Path req = listWorkspacesPath
         /\ Request_Query req = listingQuery limit next.
Proof.
  assert (Hsent : forall off s0 s1 d n,
             ListAllWorkspaces limit off s0 = (Ok (d, n), s1) ->
             exists req,
               last (requests s1) = Some req
               /\ Request_Method req = "GET"
               /\ Request_Path req = listWorkspacesPath
               /\ Request_Query req
                  = listingQuery limit (if String.eqb off "" then "0" else off)
               /\ Request_Body req = []).
  { intros off s0 s1 d n Hrun. unfold ListAllWorkspaces in Hrun.
    apply bind_Ok in Hrun as (resp & s2 & Hreq & Hret).
    injection Hret as _ _ <-.
    eexists. split; [exact (doRequest_request _ _ _ _ _ _ _ Hreq)|].
    repeat split. }
  intros Hrun. split; [exact (Hsent _ _ _ _ _ Hrun)|].
  intros s2 data2 next2 Hnext Hrun2.
  destruct (Hsent _ _ _ _ _ Hrun2) as (req & Hlast & _ & Hpath & Hquery & _).
  exists req. split; [exact Hlast|]. split; [exact Hpath|].
  apply String.eqb_neq in Hnext. now rewrite Hnext in Hquery.
Qed.

End TokenParts.

(* ===================================================================== *)
(** * Further properties of the workspace builder *)
(* ===================================================================== *)

Section WorkspaceIndex.

Context `{Externals}.

Lemma populateIndex_app (all1 all2 : list Workspace) (m : gmap string string) :
  populateIndex (all1 ++ all2)%list m = populateIndex all2 (populateIndex all1 m).
Proof. unfold populateIndex. apply fold_left_app. Qed.

(** An entry of the index is an entry it had, or the organization of a
    collected workspace, which is not empty. *)
Lemma populateIndex_origin (all : list Workspace) :
  forall (m : gmap string string) (wsID org : string),
    populateIndex all m !! wsID = Some org ->
    m !! wsID = Some org
    \/ (org <> ""
        /\ exists w, In w all /\ Workspace_ID w = wsID
                     /\ Workspace_OrganizationId w = org).
Proof.
  induction all as [|w all IH]; intros m wsID org Hlook; [now left|].
  change (populateIndex (w :: all) m)
    with (populateIndex all
            (if negb (String.eqb (Workspace_OrganizationId w) "")
             then <[Workspace_ID w := Workspace_OrganizationId w]> m else m))
    in Hlook.
  apply IH in Hlook as [Hlook|(Horg & w' & Hin & Hid & Hw')].
  - destruct (String.eqb_spec (Workspace_OrganizationId w) "") as [Hempty|Hlinked];
      simpl in Hlook; [now left|].
    apply lookup_insert_Some in Hlook as [[Hid Horg]|[_ Hlook]]; [|now left].
    right. split; [congruence|]. exists w. split; [now left|]. now split.
  - right. split; [exact Horg|]. exists w'. split; [now right|]. now split.
Qed.

(** The index holds, for a workspace id, the organization of the last
    collected workspace with that id and an organization. *)
Lemma populateIndex_last_linked (before after : list Workspace) (w : Workspace)
    (m : gmap string string) :
  Workspace_OrganizationId w <> "" ->
  (forall w', In w' after -> Workspace_ID w' = Workspace_ID w ->
              Workspace_OrganizationId w' = "") ->
  populateIndex (before ++ w :: after)%list m !! Workspace_ID w
  = Some (Workspace_OrganizationId w).
Proof.
  intros Hlinked Hlast.
  rewrite populateIndex_app.
  change (populateIndex (w :: after) (populateIndex before m))
    with (populateIndex after
            (if negb (String.eqb (Workspace_OrganizationId w) "")
             then <[Workspace_ID w := Workspace_OrganizationId w]>
                    (populateIndex before m)
             else populateIndex before m)).
  rewrite (populateIndex_absent _ _ _ Hlast).
  apply String.eqb_neq in Hlinked. rewrite Hlinked. simpl.
  apply lookup_insert_eq.
Qed.

(** X5. The workspace index [workspaceBuilder.List] fills: an entry comes
    from a collected workspace with that id and that organization, and an
    organization in the index is never empty; and the index holds for a
    workspace id the organization of the last collected workspace with
    that id and an organization. *)
Theorem index_holds_last_linked_organization :
  (forall (all : list Workspace) (wsID org : string),
      populateIndex all ∅ !! wsID = Some org ->
      org <> ""
      /\ exists w, In w all /\ Workspace_ID w = wsID
                   /\ Workspace_OrganizationId w = org)
  /\ (forall (before after : list Workspace) (w : Workspace)
             (m : gmap string string),
         Workspace_OrganizationId w <> "" ->
         (forall w', In w' after -> Workspace_ID w' = Workspace_ID w ->
                     Workspace_OrganizationId w' = "") ->
         populateIndex (before ++ w :: after)%list m !! Workspace_ID w
         = Some (Workspace_OrganizationId w)).
Proof.
  split.
  - intros all wsID org Hlook.
    apply populateIndex_origin in Hlook as [Hlook|Hfound]; [|exact Hfound].
    now rewrite lookup_empty in Hlook.
  - intros before after w m. apply populateIndex_last_linked.
Qed.

(** X6. On the first page (an empty page token), the parent of every
    resource [workspaceBuilder.List] returns follows the workspaces
    [getAllWorkspacesWithParentOrganizationID] collected: the organization
    of the last collected workspace with the id of the resource and an
    organization, and the sentinel when no collected workspace with that id
    has an organization. *)
Theorem first_page_parents (fuel : nat) (parent : option ResourceId)
    (pToken : Token) (s s' : State) (resources : list Resource) (next : string) :
  Token_Token pToken = "" ->
  workspaceBuilder_List fuel parent pToken s = Some (Ok (resources, next), s') ->
  exists all s1,
    getAllWorkspacesWithParentOrganizationID fuel (set_index ∅ s) = Some (Ok all, s1)
    /\ forall r, In r resources ->
         (forall before w after,
             all = (before ++ w :: after)%list ->
             Workspace_ID w = ResourceId_Resource (Resource_Id r) ->
             Workspace_OrganizationId w <> "" ->
             (forall w', In w' after -> Workspace_ID w' = Workspace_ID w ->
                         Workspace_OrganizationId w' = "") ->
             Resource_ParentResourceId r
             = Some {| ResourceId_ResourceType :=
                         ResourceType_Id organizationResourceType;
                       ResourceId_Resource := Workspace_OrganizationId w |})
         /\ ((forall w, In w all ->
                        Workspace_ID w = ResourceId_Resource (Resource_Id r) ->
                        Workspace_OrganizationId w = "") ->
             Resource_ParentResourceId r
             = Some {| ResourceId_ResourceType :=
                         ResourceType_Id organizationResourceType;
                       ResourceId_Resource := "unknown-parent" |}).
Proof.
  intros Htoken Hrun.
  destruct (unlisted_workspace_gets_sentinel _ _ _ _ _ _ _ Htoken Hrun)
    as (all & s1 & Hall & Hindex & Hunlisted).
  destruct (workspaceBuilder_List_resources _ _ _ _ _ _ _ Hrun) as [listed Hres].
  exists all, s1. split; [exact Hall|].
  intros r Hr. split.
  - intros before w after Hsplit Hid Hlinked Hlast.
    rewrite Hres in Hr. apply in_map_iff in Hr as (ws & <- & _).
    simpl in *. unfold parentOf. rewrite Hindex, Hsplit, <- Hid.
    rewrite (populateIndex_last_linked _ _ _ _ Hlinked Hlast).
    apply String.eqb_neq in Hlinked. now rewrite Hlinked.
  - apply (proj1 (List.Forall_forall _ _) Hunlisted r Hr).
Qed.

End WorkspaceIndex.

Section WorkspacePages.

Context `{Externals}.

(** An authenticated request on a path makes no request on another path,
    the token path apart. *)
Lemma doRequest_other_calls (method : string) (e e' : Endpoint)
    (query body : list (string * Param)) (s : State) :
  e' <> e -> e' <> getAccessTokenPath ->
  calls e' (st_world (snd (doRequest method e query body false s)))
  = calls e' (st_world s).
Proof.
  intros Hne He'. unfold doRequest. simpl. unfold bind.
  destruct (ensureValidToken_frame s e' He') as (_ & _ & _ & Hn).
  destruct (ensureValidToken s) as [[[]|err] s1]; simpl in Hn; [|exact Hn].
  rewrite <- Hn.
  pose proof (calls_after_send e'
    {| Request_Method := method; Request_Path := e; Request_Query := query;
       Request_Body := body;
       Request_Authorization := Some ("Bearer " ++ accessToken (st_client s1)) |}
    s1) as Hcalls.
  simpl in Hcalls. destruct (decide (e = e')); [congruence|].
  rewrite Nat.add_0_r in Hcalls. exact Hcalls.
Qed.

(** One call of [ListAllWorkspaces]. *)
Lemma ListAllWorkspaces_run (limit : Z) (offset : string) (s : State) :
  let r := ListAllWorkspaces limit offset s in
  workspacesWithOrgIDMap (snd r) = workspacesWithOrgIDMap s
  /\ (forall e', e' <> listWorkspacesPath -> e' <> getAccessTokenPath ->
                 calls e' (st_world (snd r)) = calls e' (st_world s))
  /\ match fst r with
     | Ok (listed, next) =>
         exists resp, nextReply listWorkspacesPath s = Ok resp
                      /\ listed = Data resp
                      /\ next = GetOffsetForTheNextPageFromURL (Next resp)
     | Fail _ => True
     end.
Proof.
  unfold ListAllWorkspaces. cbv zeta. unfold bind.
  match goal with
  | |- context [doRequest ?m ?e ?q ?b false s] =>
      pose proof (doRequest_run m e q b s ltac:(discriminate)) as Hrun;
      pose proof (fun e' => doRequest_other_calls m e e' q b s) as Hother;
      destruct (doRequest m e q b false s) as [[resp|err] s1]
  end; cbv zeta in Hrun; simpl in Hrun, Hother;
    destruct Hrun as (_ & _ & Hi & Hcall); simpl;
    (split; [exact Hi|]); (split; [exact Hother|]); [|exact I].
  destruct Hcall as [Hreply _]. now exists resp.
Qed.

(** X7. On a later page (a page token that is not empty)
    [workspaceBuilder.List] does not build the workspace index again: it
    returns whatever the bound on the pages of an organization, keeps the
    index it finds, makes no request for the organizations or for their
    workspaces, and, when it succeeds, builds its resources from the next
    reply to the listing of all workspaces and that index. *)
Theorem later_pages_keep_the_index (fuel : nat) (parent : option ResourceId)
    (pToken : Token) (s : State) :
  Token_Token pToken <> "" ->
  exists r s',
    workspaceBuilder_List fuel parent pToken s = Some (r, s')
    /\ workspacesWithOrgIDMap s' = workspacesWithOrgIDMap s
    /\ calls listOrganizationsPath (st_world s')
       = calls listOrganizationsPath (st_world s)
    /\ calls listWorkspacesByOrganizationPath (st_world s')
       = calls listWorkspacesByOrganizationPath (st_world s)
    /\ forall resources next,
         r = Ok (resources, next) ->
         exists resp,
           nextReply listWorkspacesPath s = Ok resp
           /\ resources
              = map (workspaceResourceOf (workspacesWithOrgIDMap s)) (Data resp).
Proof.
  intros Htok. apply String.eqb_neq in Htok.
  unfold workspaceBuilder_List. rewrite Htok.
  unfold bindF, liftM. unfold ret at 1. unfold bind, lift.
  destruct (parsePageToken pToken _) as [[bag offsetForCurrentPage]|e].
  2:{ do 2 eexists. split; [reflexivity|]. repeat split; try reflexivity.
      intros ? ? [=]. }
  unfold wrapping.
  pose proof (ListAllWorkspaces_run ResourcesPageSize offsetForCurrentPage s) as Hrun.
  cbv zeta in Hrun.
  destruct (ListAllWorkspaces ResourcesPageSize offsetForCurrentPage s)
    as [[[listed offsetForNextPage]|e] s1]; simpl in Hrun;
    destruct Hrun as (Hi & Hother & Hreply).
  2:{ do 2 eexists. split; [reflexivity|].
      split; [exact Hi|]. do 2 (split; [now apply Hother|]). intros ? ? [=]. }
  destruct (Bag_NextToken offsetForNextPage bag) as [next|e].
  2:{ do 2 eexists. split; [reflexivity|].
      split; [exact Hi|]. do 2 (split; [now apply Hother|]). intros ? ? [=]. }
  rewrite workspaceResources_run. unfold ret. simpl.
  do 2 eexists. split; [reflexivity|].
  split; [exact Hi|]. do 2 (split; [now apply Hother|]).
  intros resources next' [= <- <-].
  destruct Hreply as (resp & Hnext & -> & _). exists resp. rewrite Hi. now split.
Qed.

(** The calls that read the workspaces of the organizations make no
    request on another path, the token path apart. *)
Lemma ListWorkspacesByOrganization_other_calls (orgId : string)
    (pageSize rowOffset : Z) (e' : Endpoint) (s : State) :
  e' <> listWorkspacesByOrganizationPath -> e' <> getAccessTokenPath ->
  calls e' (st_world (snd (ListWorkspacesByOrganization orgId pageSize rowOffset s)))
  = calls e' (st_world s).
Proof.
  intros Hne He'. unfold ListWorkspacesByOrganization. cbv zeta. unfold bind.
  match goal with
  | |- context [doRequest ?m ?e ?q ?b false s] =>
      pose proof (doRequest_other_calls m e e' q b s Hne He') as Hother;
      destruct (doRequest m e q b false s) as [[resp|err] s1]
  end; simpl in Hother; [destruct (_ <? _)|]; exact Hother.
Qed.

Lemma listOrganizationWorkspaces_other_calls (orgID : string) (e' : Endpoint)
    (fuel : nat) :
  e' <> listWorkspacesByOrganizationPath -> e' <> getAccessTokenPath ->
  forall (rowOffset : Z) (all : list Workspace) (s s' : State)
         (r : Res (list Workspace)),
    listOrganizationWorkspaces fuel orgID rowOffset all s = Some (r, s') ->
    calls e' (st_world s') = calls e' (st_world s).
Proof.
  intros Hne He'.
  induction fuel as [|fuel IH]; intros rowOffset all s s' r Hloop; [discriminate|].
  rewrite listOrganizationWorkspaces_round in Hloop.
  pose proof (ListWorkspacesByOrganization_other_calls orgID ResourcesPageSize
                rowOffset e' s Hne He') as Hcall.
  destruct (ListWorkspacesByOrganization orgID ResourcesPageSize rowOffset s)
    as [[[page next]|e] s1]; simpl in Hcall.
  - destruct (next =? 0).
    + now injection Hloop as <- <-.
    + now rewrite (IH _ _ _ _ _ Hloop).
  - now injection Hloop as <- <-.
Qed.

Lemma listAllOrganizationsWorkspaces_other_calls (fuel : nat) (e' : Endpoint)
    (orgs : list Organization) :
  e' <> listWorkspacesByOrganizationPath -> e' <> getAccessTokenPath ->
  forall (all : list Workspace) (s s' : State) (r : Res (list Workspace)),
    listAllOrganizationsWorkspaces fuel orgs all s = Some (r, s') ->
    calls e' (st_world s') = calls e' (st_world s).
Proof.
  intros Hne He'.
  induction orgs as [|org orgs IH]; intros all s s' r Hloop.
  - now injection Hloop as <- <-.
  - simpl in Hloop. unfold bindF in Hloop.
    destruct (listOrganizationWorkspaces fuel (Organization_ID org) 0 all s)
      as [[[all1|e] s1]|] eqn:Hinner; [| |discriminate];
      pose proof (listOrganizationWorkspaces_other_calls _ _ _ Hne He'
                    _ _ _ _ _ Hinner) as Hcalls.
    + now rewrite (IH _ _ _ _ Hloop).
    + now injection Hloop as <- <-.
Qed.

Lemma getAllWorkspacesWithParentOrganizationID_other_calls (fuel : nat)
    (e' : Endpoint) (s s' : State) (r : Res (list Workspace)) :
  e' <> listOrganizationsPath -> e' <> listWorkspacesByOrganizationPath ->
  e' <> getAccessTokenPath ->
  getAllWorkspacesWithParentOrganizationID fuel s = Some (r, s') ->
  calls e' (st_world s') = calls e' (st_world s).
Proof.
  intros Hno Hne He'.
  unfold getAllWorkspacesWithParentOrganizationID, bindF, liftM, wrapping.
  unfold ListOrganizations, bind.
  match goal with
  | |- context [doRequest ?m ?e ?q ?b false s] =>
      pose proof (doRequest_other_calls m e e' q b s Hno He') as Hother;
      destruct (doRequest m e q b false s) as [[resp|err] s1]
  end; simpl in Hother |- *.
  - intros Hloop.
    now rewrite (listAllOrganizationsWorkspaces_other_calls _ _ _ Hne He'
                   _ _ _ _ Hloop).
  - now intros [= <- <-].
Qed.

(** X8. On the first page, when
    [getAllWorkspacesWithParentOrganizationID] fails, [workspaceBuilder.List]
    fails with that error in its context, without a request for the listing
    of all workspaces; the workspace index, emptied before the call, is
    left empty. *)
Theorem failed_index_build_fails_the_listing (fuel : nat)
    (parent : option ResourceId) (pToken : Token) (s s1 : State) (e : Error) :
  Token_Token pToken = "" ->
  getAllWorkspacesWithParentOrganizationID fuel (set_index ∅ s) = Some (Fail e, s1) ->
  workspaceBuilder_List fuel parent pToken s
  = Some (Fail (Wrap "airbyte-connector: getAllWorkspacesWithParentOrganizationID > failed to list workspaces" e), s1)
  /\ workspacesWithOrgIDMap s1 = ∅
  /\ calls listWorkspacesPath (st_world s1) = calls listWorkspacesPath (st_world s).
Proof.
  intros Htok Hbuild.
  split; [|split].
  - unfold workspaceBuilder_List. rewrite Htok. simpl.
    unfold bindF at 1. unfold bindF at 1. unfold liftM at 1.
    unfold bindF at 1. unfold wrappingF. now rewrite Hbuild.
  - now rewrite (getAllWorkspacesWithParentOrganizationID_frame _ _ _ _ Hbuild).
  - now rewrite (getAllWorkspacesWithParentOrganizationID_other_calls
                   _ listWorkspacesPath _ _ _ ltac:(discriminate)
                   ltac:(discriminate) ltac:(discriminate) Hbuild).
Qed.

(** X9. The pages of one organization are collected in the order of the
    replies: when the inner loop of
    [getAllWorkspacesWithParentOrganizationID] succeeds, it has made one
    request for each page, the pages are the replies that were to come,
    their workspaces are appended in that order to the workspaces collected
    before, and every page but the last is not short. *)
Theorem organization_pages_collected_in_order (orgID : string) (fuel : nat) :
  forall (rowOffset : Z) (all result : list Workspace) (s s' : State),
    listOrganizationWorkspaces fuel orgID rowOffset all s = Some (Ok result, s') ->
    exists pages : list WorkspaceReadListResponse,
      result
      = (all ++ concat (map (fun p => workspacesOfPage (Workspaces p)) pages))%list
      /\ calls listWorkspacesByOrganizationPath (st_world s')
         = (calls listWorkspacesByOrganizationPath (st_world s) + length pages)%nat
      /\ (0 < length pages)%nat
      /\ (forall k p, pages !! k = Some p ->
                      replyAhead listWorkspacesByOrganizationPath k s = Ok p)
      /\ (forall k p, pages !! k = Some p -> (S k < length pages)%nat ->
                      ~ shortPage ResourcesPageSize (Workspaces p)).
Proof.
  induction fuel as [|fuel IH]; intros rowOffset all result s s' Hloop;
    [discriminate|].
  rewrite listOrganizationWorkspaces_round in Hloop.
  destruct (ListWorkspacesByOrganization orgID ResourcesPageSize rowOffset s)
    as [[[page next]|e] s1] eqn:Hcall; [|discriminate].
  pose proof (ListWorkspacesByOrganization_run orgID ResourcesPageSize rowOffset s)
    as Hrun.
  cbv zeta in Hrun. rewrite Hcall in Hrun. simpl in Hrun.
  destruct Hrun as (_ & (resp & Hnext & Hpage) & Hcalls & _).
  assert (Hfirst : replyAhead listWorkspacesByOrganizationPath 0 s = Ok resp).
  { unfold replyAhead. rewrite Nat.add_0_r. exact Hnext. }
  destruct (next =? 0) eqn:Hz.
  - injection Hloop as <- <-. exists [resp]. simpl.
    rewrite app_nil_r, <- Hpage, Hcalls.
    split; [reflexivity|]. split; [lia|]. split; [lia|]. split.
    + intros [|k] p Hk; [|discriminate]. now injection Hk as <-.
    + intros [|k] p Hk Hlt; lia.
  - destruct (IH _ _ _ _ _ Hloop) as (pages & -> & Hcount & Hpos & Hpages & Hfull).
    exists (resp :: pages). simpl.
    rewrite <- app_assoc, <- Hpage, Hcount, Hcalls.
    split; [reflexivity|]. split; [lia|]. split; [lia|]. split.
    + intros [|k] p Hk.
      * now injection Hk as <-.
      * rewrite <- (replyAhead_after_call _ _ _ _ _ _ _ k Hcall).
        now apply Hpages.
    + intros [|k] p Hk Hlt.
      * injection Hk as <-. intros Hshort. rewrite <- Hpage in Hshort.
        destruct (reported_next_row_offset _ _ _ _ _ _ _ Hcall) as [Hzero _].
        apply Z.eqb_neq in Hz. now apply Hz, Hzero.
      * apply (Hfull k p Hk). lia.
Qed.

End WorkspacePages.

(* ===================================================================== *)
(** * Further properties: the paths of the requests *)
(* ===================================================================== *)

Section Paths.

Variable url_PathEscape : string -> string.

Import GoStrings.

Lemma append_assoc (a b c : string) : ((a ++ b) ++ c = a ++ b ++ c)%string.
Proof.
  induction a as [|x a IH]; [reflexivity|].
  change ((String x a ++ b) ++ c)%string with (String x ((a ++ b) ++ c)).
  change (String x a ++ b ++ c)%string with (String x (a ++ b ++ c)).
  now rewrite IH.
Qed.

Lemma prefix_append (x rest : string) : String.prefix x (x ++ rest) = true.
Proof.
  induction x as [|c x IH]; [now destruct rest|].
  change (String c x ++ rest)%string with (String c (x ++ rest)).
  cbn [String.prefix]. destruct (Ascii.ascii_dec c c); [exact IH|contradiction].
Qed.

Lemma prefix_placeholder (key : string) (c : ascii) (s : string) :
  Ascii.eqb c "{" = false ->
  String.prefix ("{" ++ key ++ "}") (String c s) = false.
Proof.
  intros Hc.
  change ("{" ++ key ++ "}")%string with (String "{" (key ++ "}")).
  cbn [String.prefix].
  destruct (Ascii.ascii_dec "{" c) as [<-|]; [discriminate|reflexivity].
Qed.

(** A text without an opening brace has no occurrence of a placeholder. *)
Lemma ReplaceAll_no_placeholder (key new s : string) :
  ContainsByte "{" s = false ->
  ReplaceAll_from 0 s ("{" ++ key ++ "}") new = s.
Proof.
  induction s as [|c s IH]; [reflexivity|].
  intros Hs. simpl in Hs. apply orb_false_elim in Hs as [Hc Hs].
  cbn [ReplaceAll_from]. now rewrite (prefix_placeholder key c s Hc), (IH Hs).
Qed.

Lemma ReplaceAll_pass_over (x rest old new : string) :
  ReplaceAll_from (String.length x) (x ++ rest) old new
  = ReplaceAll_from 0 rest old new.
Proof.
  induction x as [|c x IH]; [reflexivity|].
  change (String c x ++ rest)%string with (String c (x ++ rest)).
  simpl. exact IH.
Qed.

(** At an occurrence of the pattern, the replacement is put out and the
    occurrence is passed over. *)
Lemma ReplaceAll_at_occurrence (old new after : string) :
  old <> "" ->
  ReplaceAll_from 0 (old ++ after) old new
  = (new ++ ReplaceAll_from 0 after old new)%string.
Proof.
  intros Hold. pose proof (prefix_append old after) as Hprefix.
  destruct old as [|c x]; [contradiction|].
  change (String c x ++ after)%string with (String c (x ++ after)) in *.
  cbn [ReplaceAll_from]. rewrite Hprefix.
  cbn [String.length]. rewrite Nat.sub_succ, Nat.sub_0_r.
  now rewrite ReplaceAll_pass_over.
Qed.

Lemma ReplaceAll_one_placeholder (key new before after : string) :
  ContainsByte "{" before = false ->
  ContainsByte "{" after = false ->
  ReplaceAll_from 0 (before ++ "{" ++ key ++ "}" ++ after) ("{" ++ key ++ "}") new
  = (before ++ new ++ after)%string.
Proof.
  intros Hb Ha. induction before as [|c before IH].
  - change ("" ++ "{" ++ key ++ "}" ++ after)%string
      with ("{" ++ key ++ "}" ++ after)%string.
    rewrite <- (append_assoc key "}" after), <- (append_assoc "{" (key ++ "}") after).
    rewrite ReplaceAll_at_occurrence by discriminate.
    now rewrite (ReplaceAll_no_placeholder key new after Ha).
  - simpl in Hb. apply orb_false_elim in Hb as [Hc Hb].
    change (String c before ++ "{" ++ key ++ "}" ++ after)%string
      with (String c (before ++ "{" ++ key ++ "}" ++ after)).
    cbn [ReplaceAll_from].
    now rewrite (prefix_placeholder key c _ Hc), (IH Hb).
Qed.
(** X10. The path parameters [buildResourceURL] is given change a path
    only at their placeholders: a template without an opening brace is the
    final path whatever the parameters and the order of the range over
    them. No path the client asks for has a placeholder, so the user and
    the organization given to [ListPermissionsByUserAndOrganization] are in
    no path. In a template with one placeholder and no other brace, the
    placeholder is replaced by the escaped value of its parameter. *)
Theorem path_parameters_fill_placeholders_only :
  (forall (pathTemplate : string) (pathParams : list (string * string)),
      ContainsByte "{" pathTemplate = false ->
      finalPath url_PathEscape pathTemplate pathParams = pathTemplate)
  /\ (forall (e : Endpoint) (pathParams : list (string * string)),
         finalPath url_PathEscape (pathOf e) pathParams = pathOf e)
  /\ (forall before after key value : string,
         ContainsByte "{" before = false ->
         ContainsByte "{" after = false ->
         finalPath url_PathEscape (before ++ "{" ++ key ++ "}" ++ after)
           [(key, value)]
         = (before ++ url_PathEscape value ++ after)%string).
Proof.
  assert (Hplain : forall (pathTemplate : string)
                          (pathParams : list (string * string)),
             ContainsByte "{" pathTemplate = false ->
             finalPath url_PathEscape pathTemplate pathParams = pathTemplate).
  { intros pathTemplate pathParams Hplain. unfold finalPath.
    induction pathParams as [|[key value] pathParams IH]; [reflexivity|].
    cbn [fold_left fst snd]. unfold ReplaceAll at 2.
    now rewrite (ReplaceAll_no_placeholder key _ _ Hplain). }
  split; [exact Hplain|]. split.
  - intros e pathParams. apply Hplain. now destruct e.
  - intros before after key value Hb Ha. unfold finalPath.
    cbn [fold_left fst snd]. unfold ReplaceAll.
    now apply ReplaceAll_one_placeholder.
Qed.

End Paths.

(* ===================================================================== *)
(** * Further properties of the organization builder *)
(* ===================================================================== *)

Section Organizations.

Context `{Externals}.

Lemma orgResources_run (orgs : list Organization) (resources : list Resource) :
  orgResources orgs resources = Ok (resources ++ map orgResourceOf orgs)%list.
Proof.
  revert resources. induction orgs as [|org orgs IH]; intros resources.
  - simpl. now rewrite app_nil_r.
  - cbn [orgResources map]. unfold orgResource, rs.NewResource.
    cbn. rewrite IH, <- app_assoc. reflexivity.
Qed.

(** X11. [orgBuilder.List] lists the organizations in one page: it makes
    one request for the organizations; when it succeeds, its resources are
    those of the organizations of the reply, in their order, and the next
    page token is empty; when it fails, the error is the one of the request
    in the context of the listing. The workspace index is left as it was. *)
Theorem organizations_listed_in_one_page (parent : option ResourceId)
    (pToken : Token) (s : State) :
  let r := orgBuilder_List parent pToken s in
  workspacesWithOrgIDMap (snd r) = workspacesWithOrgIDMap s
  /\ match fst r with
     | Ok (resources, next) =>
         next = ""
         /\ calls listOrganizationsPath (st_world (snd r))
            = S (calls listOrganizationsPath (st_world s))
         /\ exists resp,
              nextReply listOrganizationsPath s = Ok resp
              /\ resources = map orgResourceOf (Data resp)
     | Fail e =>
         exists cause,
           e = Wrap "airbyte-connector: failed to list organizations" cause
           /\ fst (ListOrganizations s) = Fail cause
     end.
Proof.
  cbv zeta. unfold orgBuilder_List, bind, wrapping, lift.
  unfold ListOrganizations, bind.
  match goal with
  | |- context [doRequest ?m ?e ?q ?b false s] =>
      pose proof (doRequest_run m e q b s ltac:(discriminate)) as Hrun;
      destruct (doRequest m e q b false s) as [[resp|err] s1]
  end; cbv zeta in Hrun; simpl in Hrun; destruct Hrun as (_ & _ & Hi & Hcall).
  - simpl. rewrite orgResources_run. simpl.
    destruct Hcall as [Hreply Hcalls]. eauto 10.
  - simpl. eauto.
Qed.

(** The first permission of a list that is for the organization decides. *)
Lemma findOrganizationPermission_first (organizationID : string)
    (allPermissions : list Permission) :
  (exists before permission after,
      allPermissions = (before ++ permission :: after)%list
      /\ Forall (fun q => ~ scopedTo organizationID q) before
      /\ scopedTo organizationID permission
      /\ findOrganizationPermission organizationID allPermissions
         = strings_ToLower (Permission_PermissionType permission))
  \/ (Forall (fun q => ~ scopedTo organizationID q) allPermissions
      /\ findOrganizationPermission organizationID allPermissions = "").
Proof.
  induction allPermissions as [|q rest IH]; [right; split; [constructor|reflexivity]|].
  cbn [findOrganizationPermission].
  destruct (String.eqb_spec (Permission_Scope q) "organization") as [Hscope|Hscope];
    [destruct (String.eqb_spec (Permission_ScopeID q) organizationID) as [Hid|Hid]|];
    cbn [andb].
  - left. exists [], q, rest. repeat split; auto.
  - assert (Hq : ~ scopedTo organizationID q) by (intros [_ Hq]; contradiction).
    destruct IH as [(before & p & after & -> & Hbefore & Hp & Hfind)|[Hnone Hfind]].
    + left. exists (q :: before), p, after. repeat split; auto; apply Hp.
    + right. split; [now constructor|exact Hfind].
  - assert (Hq : ~ scopedTo organizationID q) by (intros [Hq _]; contradiction).
    destruct IH as [(before & p & after & -> & Hbefore & Hp & Hfind)|[Hnone Hfind]].
    + left. exists (q :: before), p, after. repeat split; auto; apply Hp.
    + right. split; [now constructor|exact Hfind].
Qed.

(** One successful call of [getOrganizationPermissionType]. *)
Lemma getOrganizationPermissionType_run (userID organizationID : string)
    (s s' : State) (p : string) :
  getOrganizationPermissionType userID organizationID s = (Ok p, s') ->
  exists resp,
    nextReply listPermissionsPath s = Ok resp
    /\ p = findOrganizationPermission organizationID (Data resp)
    /\ calls listPermissionsPath (st_world s')
       = S (calls listPermissionsPath (st_world s))
    /\ replies (st_world s') = replies (st_world s)
    /\ (forall e', e' <> listPermissionsPath -> e' <> getAccessTokenPath ->
                   calls e' (st_world s') = calls e' (st_world s)).
Proof.
  intros Hrun. unfold getOrganizationPermissionType in Hrun.
  apply bind_Ok in Hrun as (permissions & s1 & Hlist & Hret).
  injection Hret as <- <-.
  apply wrapping_Ok in Hlist. unfold ListPermissionsByUserAndOrganization in Hlist.
  apply bind_Ok in Hlist as (resp & s2 & Hreq & Hret).
  injection Hret as <- <-.
  match type of Hreq with
  | doRequest ?m ?e ?q ?b false s = _ =>
      pose proof (doRequest_run m e q b s ltac:(discriminate)) as Hdo;
      pose proof (fun e' => doRequest_other_calls m e e' q b s) as Hother
  end.
  cbv zeta in Hdo. rewrite Hreq in Hdo, Hother. simpl in Hdo, Hother.
  destruct Hdo as (Hr & _ & _ & Hreply & Hcalls).
  exists resp. do 4 (split; [assumption || reflexivity|]).
  exact Hother.
Qed.

(** X12. The permission type [getOrganizationPermissionType] returns is
    read from the next reply to the request for permissions: the
    lower-cased type of the first permission of the reply whose scope is an
    organization and whose scope id is the organization asked for, and the
    empty text when the reply has no such permission. *)
Theorem organization_permission_is_first_match (userID organizationID : string)
    (s s' : State) (p : string) :
  getOrganizationPermissionType userID organizationID s = (Ok p, s') ->
  exists resp,
    nextReply listPermissionsPath s = Ok resp
    /\ ((exists before permission after,
            Data resp = (before ++ permission :: after)%list
            /\ Forall (fun q => ~ scopedTo organizationID q) before
            /\ scopedTo organizationID permission
            /\ p = strings_ToLower (Permission_PermissionType permission))
        \/ (Forall (fun q => ~ scopedTo organizationID q) (Data resp) /\ p = "")).
Proof.
  intros Hrun.
  destruct (getOrganizationPermissionType_run _ _ _ _ _ Hrun)
    as (resp & Hreply & -> & _).
  exists resp. split; [exact Hreply|].
  destruct (findOrganizationPermission_first organizationID (Data resp))
    as [(before & q & after & Hsplit & Hbefore & Hq & Hfind)|[Hnone Hfind]].
  - left. exists before, q, after. auto.
  - right. auto.
Qed.

(** One successful round of the loop of [orgBuilder.Grants] that grants. *)
Lemma orgGrant_run (resource : Resource) (user : User) (s s' : State)
    (r : option Grant) :
  orgGrant resource user s = (Ok r, s') ->
  calls listPermissionsPath (st_world s')
  = S (calls listPermissionsPath (st_world s))
  /\ replies (st_world s') = replies (st_world s)
  /\ calls listUsersPath (st_world s') = calls listUsersPath (st_world s)
  /\ forall g, r = Some g ->
       Grant_Resource g = resource
       /\ Grant_Principal g = userIdOf user
       /\ In (Grant_Entitlement g) PublicOrganizationPermissionsTypes.
Proof.
  unfold orgGrant. cbv zeta. intros Hrun.
  apply bind_Ok in Hrun as (permissionType & s1 & Hperm & Hrun).
  apply wrapping_Ok in Hperm.
  destruct (getOrganizationPermissionType_run _ _ _ _ _ Hperm)
    as (_ & _ & _ & Hcalls & Hr & Hother).
  specialize (Hother listUsersPath ltac:(discriminate) ltac:(discriminate)).
  destruct (GoStrings.Contains PublicOrganizationPermissionsTypes permissionType)
    eqn:Hin; simpl in Hrun.
  - apply bind_Ok in Hrun as (ur & s2 & Hur & Hret).
    apply lift_run in Hur as [Hur ->]. injection Hret as <- <-.
    do 3 (split; [assumption|]). intros g [= <-].
    rewrite userResource_run in Hur. injection Hur as ->.
    repeat split. now apply Contains_In.
  - injection Hrun as <- <-. do 3 (split; [assumption|]). discriminate.
Qed.

(** What a loop that appends adds comes from the elements ranged over, in
    their order, at most once each. *)
Lemma rangeAppend_sublist {A B C} (f : B -> C) (g : A -> C)
    (body : A -> M (option B)) :
  (forall x s b s', body x s = (Ok (Some b), s') -> f b = g x) ->
  forall (l : list A) (rv rv' : list B) (s s' : State),
    rangeAppend body l rv s = (Ok rv', s') ->
    exists added, rv' = (rv ++ added)%list /\ sublist (map f added) (map g l).
Proof.
  intros Hbody l. induction l as [|x l IH]; intros rv rv' s s' Hrun.
  - injection Hrun as <- <-. exists []. rewrite app_nil_r.
    split; [reflexivity|constructor].
  - simpl in Hrun. apply bind_Ok in Hrun as (r & s1 & Hx & Hrest).
    destruct (IH _ _ _ _ Hrest) as (added & -> & Hsub).
    destruct r as [b|].
    + exists (b :: added). rewrite <- app_assoc. split; [reflexivity|].
      simpl. rewrite (Hbody _ _ _ _ Hx). now apply sublist_skip.
    + exists added. split; [reflexivity|]. simpl. now apply sublist_cons.
Qed.

(** A loop whose every successful round adds one to a count adds the
    number of the elements ranged over. *)
Lemma rangeAppend_count {A B} (count : State -> nat) (body : A -> M (option B)) :
  (forall x s r s', body x s = (Ok r, s') -> count s' = S (count s)) ->
  forall (l : list A) (rv rv' : list B) (s s' : State),
    rangeAppend body l rv s = (Ok rv', s') ->
    count s' = (count s + length l)%nat.
Proof.
  intros Hbody l. induction l as [|x l IH]; intros rv rv' s s' Hrun.
  - injection Hrun as _ <-. simpl. lia.
  - simpl in Hrun. apply bind_Ok in Hrun as (r & s1 & Hx & Hrest).
    rewrite (IH _ _ _ _ Hrest), (Hbody _ _ _ _ Hx). simpl. lia.
Qed.

(** X14. Every grant of [orgBuilder.Grants] is on the resource given, and
    [orgBuilder.Entitlements] has, for that resource, an entitlement for
    it: one whose slug is the permission of the grant, on the same
    resource, grantable to the user resource type, which is the type of the
    principal of the grant. *)
Theorem organization_grants_match_entitlements (resource : Resource)
    (pToken : Token) (s s' : State) (grants : list Grant) (next : string) :
  orgBuilder_Grants resource pToken s = (Ok (grants, next), s') ->
  Forall (fun g =>
            Grant_Resource g = resource
            /\ ResourceId_ResourceType (Grant_Principal g)
               = ResourceType_Id userResourceType
            /\ forall (pToken' : Token) (s0 : State),
                 exists entitlements en,
                   orgBuilder_Entitlements resource pToken' s0
                   = (Ok (entitlements, ""), s0)
                   /\ In en entitlements
                   /\ Entitlement_Slug en = Grant_Entitlement g
                   /\ Entitlement_Resource en = Grant_Resource g
                   /\ Entitlement_GrantableTo en = [userResourceType])
         grants.
Proof.
  intros Hrun. unfold orgBuilder_Grants in Hrun. cbv zeta in Hrun.
  apply bind_Ok in Hrun as (users & s1 & _ & Hrun).
  apply bind_Ok in Hrun as (rv & s2 & Hloop & Hret).
  injection Hret as <- <- <-.
  refine (rangeAppend_Forall _ _ _ _ _ _ _ _ _ Hloop); [|constructor].
  intros user s0 g s0' Hg.
  destruct (orgGrant_run _ _ _ _ _ Hg) as (_ & _ & _ & Hgrant).
  destruct (Hgrant g eq_refl) as (Hres & Hprincipal & Hin).
  split; [exact Hres|]. split; [now rewrite Hprincipal|].
  intros pToken' s3. unfold orgBuilder_Entitlements, ret.
  eexists. eexists. split; [reflexivity|].
  split; [apply in_map, Hin|]. rewrite Hres. repeat split.
Qed.

(** X15. [orgBuilder.Grants] asks once for the users of the organization
    and then once for the permissions for each user of the reply. Its
    grants go to users of that reply, in their order, at most one grant to
    each; the next page token is empty. *)
Theorem organization_grants_follow_users (resource : Resource)
    (pToken : Token) (s s' : State) (grants : list Grant) (next : string) :
  orgBuilder_Grants resource pToken s = (Ok (grants, next), s') ->
  next = ""
  /\ exists resp,
       nextReply listUsersPath s = Ok resp
       /\ calls listUsersPath (st_world s') = S (calls listUsersPath (st_world s))
       /\ calls listPermissionsPath (st_world s')
          = (calls listPermissionsPath (st_world s) + length (Data resp))%nat
       /\ sublist (map Grant_Principal grants) (map userIdOf (Data resp)).
Proof.
  intros Hrun. unfold orgBuilder_Grants in Hrun. cbv zeta in Hrun.
  apply bind_Ok in Hrun as (users & s1 & Hlist & Hrun).
  apply bind_Ok in Hrun as (rv & s2 & Hloop & Hret).
  injection Hret as <- <- <-. split; [reflexivity|].
  apply wrapping_Ok in Hlist. unfold ListUsersByOrganization in Hlist.
  apply bind_Ok in Hlist as (resp & s3 & Hreq & Hret).
  injection Hret as <- <-.
  match type of Hreq with
  | doRequest ?m ?e ?q ?b false s = _ =>
      pose proof (doRequest_run m e q b s ltac:(discriminate)) as Hdo;
      pose proof (doRequest_other_calls m e listPermissionsPath q b s
                    ltac:(discriminate) ltac:(discriminate)) as Hother
  end.
  cbv zeta in Hdo. rewrite Hreq in Hdo, Hother. simpl in Hdo, Hother.
  destruct Hdo as (_ & _ & _ & Hreply & Hcalls).
  exists resp. split; [exact Hreply|].
  pose proof (rangeAppend_count
                (fun st => calls listPermissionsPath (st_world st))
                (orgGrant resource)
                (fun x s0 r s0' Hx => proj1 (orgGrant_run _ _ _ _ _ Hx))
                _ _ _ _ _ Hloop) as Hcount.
  assert (Husers : calls listUsersPath (st_world s2)
                   = calls listUsersPath (st_world s3)).
  { clear - Hloop. revert Hloop. generalize (@nil Grant). revert s3.
    induction (Data resp) as [|x l IH]; intros s3 rv0 Hloop.
    - now injection Hloop as _ <-.
    - simpl in Hloop. apply bind_Ok in Hloop as (r & s1 & Hx & Hrest).
      rewrite (IH _ _ Hrest).
      now destruct (orgGrant_run _ _ _ _ _ Hx) as (_ & _ & -> & _). }
  split; [congruence|]. split; [simpl in Hcount; congruence|].
  destruct (rangeAppend_sublist Grant_Principal userIdOf (orgGrant resource))
    with (l := Data resp) (rv := @nil Grant) (rv' := rv) (s := s3) (s' := s2)
    as (added & -> & Hsub); [|exact Hloop|exact Hsub].
  intros x s0 g s0' Hx.
  destruct (orgGrant_run _ _ _ _ _ Hx) as (_ & _ & _ & Hgrant).
  now destruct (Hgrant g eq_refl) as (_ & -> & _).
Qed.

End Organizations.

(* ===================================================================== *)
(** * Further properties of the grants of a workspace *)
(* ===================================================================== *)

Section WorkspaceEntitlements.

Context `{Externals}.

(** X16. [workspaceBuilder.Entitlements] gives a workspace one entitlement
    for each workspace permission type, on that workspace and grantable to
    the workspace resource type. A grant of [workspaceBuilder.Grants] is on
    the workspace given and its principal is of the user resource type; the
    workspace has an entitlement for the permission of the grant when that
    permission is of the workspace set, and none when it is of the
    organization set. *)
Theorem workspace_grants_and_entitlements (resource : Resource) :
  exists entitlements : list Entitlement,
    (forall (pToken : Token) (s : State),
        workspaceBuilder_Entitlements resource pToken s
        = (Ok (entitlements, ""), s))
    /\ map Entitlement_Slug entitlements = PublicWorkspacePermissionsTypes
    /\ Forall (fun en => Entitlement_Resource en = resource
                         /\ Entitlement_GrantableTo en = [workspaceResourceType])
              entitlements
    /\ forall (u : WorkspaceUserAccessInfoReadResponse) (s s' : State) (g : Grant),
         workspaceGrant resource u s = (Ok (Some g), s') ->
         Grant_Resource g = resource
         /\ ResourceId_ResourceType (Grant_Principal g)
            = ResourceType_Id userResourceType
         /\ (In (Grant_Entitlement g) PublicWorkspacePermissionsTypes ->
             exists en, In en entitlements
                        /\ Entitlement_Slug en = Grant_Entitlement g)
         /\ (In (Grant_Entitlement g) PublicOrganizationPermissionsTypes ->
             ~ exists en, In en entitlements
                          /\ Entitlement_Slug en = Grant_Entitlement g).
Proof.
  eexists. split; [intros pToken s; reflexivity|].
  split; [reflexivity|]. split; [repeat constructor|].
  intros u s s' g Hrun. rewrite workspaceGrant_run in Hrun.
  injection Hrun as Hg _. unfold workspaceGrantOf in Hg. cbv zeta in Hg.
  destruct (_ || _); [|discriminate]. injection Hg as <-.
  cbn [grant.NewGrant Grant_Resource Grant_Principal Grant_Entitlement principalOf
       ResourceId_ResourceType].
  do 2 (split; [reflexivity|]).
  generalize (resolvePermissionType u). intros p. split.
  - intros Hin. eexists. split; [exact (in_map _ _ _ Hin)|reflexivity].
  - intros Horg (en & Hen & Hslug).
    apply (in_map Entitlement_Slug) in Hen. rewrite Hslug in Hen.
    rewrite map_map in Hen. simpl in Hen, Horg.
    destruct Horg as [<-|[<-|[<-|[<-|[<-|[]]]]]];
      destruct Hen as [Hen|[Hen|[Hen|[Hen|[]]]]]; discriminate.
Qed.

End WorkspaceEntitlements.

(* ===================================================================== *)
(** * The further properties on the scenarios *)
(* ===================================================================== *)

Import MoreScenarios.

(** A client without a token asks for one, and the request that follows
    carries it. *)
Lemma bearer_token_never_empty_witness :
  (fst (ensureValidToken (start signedOut (tokenWorld tokenText))) = Ok tt
   /\ accessToken
        (st_client (snd (ensureValidToken (start signedOut (tokenWorld tokenText)))))
      <> "")
  /\ Forall (fun req =>
               forall header,
                 Request_Authorization req = Some header ->
                 exists token, token <> "" /\ header = ("Bearer " ++ token)%string)
            (requests (snd (doRequest "GET" listOrganizationsPath [] [] false
                              (start signedOut twoOrganizations)))).
Proof.
  split.
  - assert (Hok : fst (ensureValidToken (start signedOut (tokenWorld tokenText)))
                  = Ok tt) by (vm_compute; reflexivity).
    split; [exact Hok|]. exact (proj1 bearer_token_never_empty _ Hok).
  - apply List.Forall_forall. intros req Hin header Hheader.
    destruct (proj2 bearer_token_never_empty _ _ _ _ _ _ _ Hin Hheader)
      as [Hold|Hnew]; [contradiction|exact Hnew].
Defined.

(** The token of the scenarios: its middle part holds the claims
    [{"exp":1700000000}], and the expiry is 1700000000 seconds after the
    epoch. *)
Lemma token_expiry_read_from_middle_part_witness :
  fst (GetAccessToken (start signedOut (tokenWorld tokenText)))
  = Ok (tokenText, 1700000000 * Second)
  /\ st_client (snd (GetAccessToken (start signedOut (tokenWorld tokenText))))
     = signedOut
  /\ requests (snd (GetAccessToken (start signedOut (tokenWorld tokenText))))
     = [tokenRequest signedOut].
Proof.
  assert (Hclaims : exists claimsJSON,
             base64_RawURLEncoding_DecodeString "eyJleHAiOjE3MDAwMDAwMDB9"
             = Ok claimsJSON
             /\ json_Unmarshal_JWTClaims claimsJSON
                = Ok {| Issuer := ""; Subject := ""; ExpiresAt := 1700000000;
                        Roles := [] |}).
  { eexists. split; vm_compute; reflexivity. }
  destruct Hclaims as (claimsJSON & Hdecode & Hparse).
  destruct (token_expiry_read_from_middle_part "h" "eyJleHAiOjE3MDAwMDAwMDB9" "s"
              claimsJSON _ eq_refl eq_refl eq_refl Hdecode Hparse
              (start signedOut (tokenWorld tokenText)) eq_refl)
    as (Hget & Hclient & Hsent & Hplain & _).
  split; [|split; [exact Hclient|exact Hsent]].
  rewrite Hget, Hplain; [reflexivity|].
  cbn [ExpiresAt]. unfold unixToInternal. lia.
Defined.

(** The first call asks for the offset 0 and is told of a next page at
    the offset 50; the second call asks for the offset 50. *)
Lemma listing_offset_passed_on_witness :
  match ListAllWorkspaces 50 "" (start signedIn longListing) with
  | (Ok (data, next), s') =>
      next = "50"
      /\ (exists req, last (requests s') = Some req
                      /\ Request_Query req = listingQuery 50 "0")
      /\ match ListAllWorkspaces 50 next s' with
         | (Ok _, s2) =>
             exists req, last (requests s2) = Some req
                         /\ Request_Query req = listingQuery 50 "50"
         | _ => False
         end
  | _ => False
  end.
Proof.
  destruct (ListAllWorkspaces 50 "" (start signedIn longListing))
    as [[[data next]|e] s'] eqn:Hrun; [|vm_compute in Hrun; discriminate].
  assert (Hnext : next = "50")
    by (vm_compute in Hrun; injection Hrun as _ <- _; reflexivity).
  split; [exact Hnext|]. split.
  - destruct (proj1 (listing_offset_passed_on _ _ _ _ _ _ Hrun))
      as (req & Hlast & _ & _ & Hquery & _).
    now exists req.
  - destruct (ListAllWorkspaces 50 next s') as [[[data2 next2]|e] s2] eqn:Hrun2.
    + destruct (proj2 (listing_offset_passed_on _ _ _ _ _ _ Hrun) _ _ _
                  ltac:(rewrite Hnext; discriminate) Hrun2)
        as (req & Hlast & _ & Hquery).
      exists req. split; [exact Hlast|]. now rewrite Hnext in Hquery.
    + vm_compute in Hrun. injection Hrun as _ <- <-.
      vm_compute in Hrun2. discriminate.
Defined.

(** A workspace collected under two organizations and then under none is
    indexed under the second. *)
Lemma index_holds_last_linked_organization_witness :
  populateIndex [linkedWorkspace "W1" "O1"; linkedWorkspace "W1" "O2";
                 linkedWorkspace "W1" ""] ∅ !! "W1"
  = Some "O2"
  /\ "O2" <> "".
Proof.
  assert (Hlook : populateIndex [linkedWorkspace "W1" "O1"; linkedWorkspace "W1" "O2";
                                 linkedWorkspace "W1" ""] ∅ !! "W1"
                  = Some "O2").
  { refine (proj2 index_holds_last_linked_organization
              [linkedWorkspace "W1" "O1"] [linkedWorkspace "W1" ""]
              (linkedWorkspace "W1" "O2") ∅ _ _).
    - discriminate.
    - intros w' [<-|[]] _. reflexivity. }
  split; [exact Hlook|].
  exact (proj1 (proj1 index_holds_last_linked_organization _ _ _ Hlook)).
Defined.

(** The scenario of two organizations: W1 is collected under the first
    organization, W2 under none. *)
Lemma first_page_parents_witness :
  match workspaceBuilder_List 3 None firstPage (start signedOut twoOrganizations) with
  | Some (Ok (resources, _), _) =>
      Forall (fun r =>
                (ResourceId_Resource (Resource_Id r) = "W1" ->
                 Resource_ParentResourceId r = organizationParent "O1")
                /\ (ResourceId_Resource (Resource_Id r) = "W2" ->
                    Resource_ParentResourceId r = organizationParent "unknown-parent"))
             resources
  | _ => False
  end.
Proof.
  destruct (workspaceBuilder_List 3 None firstPage (start signedOut twoOrganizations))
    as [[[[resources next]|e] s']|] eqn:Hrun;
    [|vm_compute in Hrun; discriminate|vm_compute in Hrun; discriminate].
  destruct (first_page_parents 3 None firstPage _ _ _ _ eq_refl Hrun)
    as (all & s1 & Hall & Hparents).
  vm_compute in Hall. injection Hall as Hall _. subst all.
  apply List.Forall_forall. intros r Hr.
  destruct (Hparents r Hr) as [Hlinked Hunlisted]. split; intros Hid.
  - refine (Hlinked [] {| Workspace_ID := "W1"; Workspace_OrganizationId := "O1";
                          Workspace_Name := "W1" |} [] eq_refl _ _ _).
    + now rewrite Hid.
    + discriminate.
    + intros w' [].
  - apply Hunlisted. intros w [<-|[]] Hw. rewrite Hid in Hw. discriminate.
Defined.

(** A later page of the listing: the index is kept, no organization is
    asked for, and the two workspaces of the reply are listed. *)
Lemma later_pages_keep_the_index_witness :
  match workspaceBuilder_List 0 None laterPage (start signedIn twoOrganizations) with
  | Some (Ok (resources, _), s') =>
      workspacesWithOrgIDMap s' = ∅
      /\ calls listOrganizationsPath (st_world s') = 0%nat
      /\ length resources = 2%nat
  | _ => False
  end.
Proof.
  destruct (later_pages_keep_the_index 0 None laterPage
              (start signedIn twoOrganizations) ltac:(discriminate))
    as (r & s' & Hrun & Hi & Ho & _ & Hres).
  rewrite Hrun. destruct r as [[resources next]|e].
  - split; [exact Hi|]. split; [exact Ho|].
    destruct (Hres _ _ eq_refl) as (resp & Hreply & ->).
    vm_compute in Hreply. injection Hreply as <-. reflexivity.
  - vm_compute in Hrun. discriminate.
Defined.

(** The requests for the workspaces of the organization fail: so does the
    listing. *)
Lemma failed_index_build_fails_the_listing_witness :
  match workspaceBuilder_List 3 None firstPage (start signedOut brokenListing) with
  | Some (Fail (Wrap context _), s') =>
      context = "airbyte-connector: getAllWorkspacesWithParentOrganizationID > failed to list workspaces"
      /\ workspacesWithOrgIDMap s' = ∅
      /\ calls listWorkspacesPath (st_world s') = 0%nat
  | _ => False
  end.
Proof.
  destruct (getAllWorkspacesWithParentOrganizationID 3
              (set_index ∅ (start signedOut brokenListing)))
    as [[[all|e] s1]|] eqn:Hbuild;
    [vm_compute in Hbuild; discriminate| |vm_compute in Hbuild; discriminate].
  destruct (failed_index_build_fails_the_listing 3 None firstPage _ _ _
              eq_refl Hbuild) as (Hrun & Hi & Hc).
  rewrite Hrun. split; [reflexivity|]. split; [exact Hi|exact Hc].
Defined.

(** A full page and then a page of three: the loop makes two requests
    and collects the 53 workspaces. *)
Lemma organization_pages_collected_in_order_witness :
  match listOrganizationWorkspaces 3 "O1" 0 []
          (start signedIn (pagesWorld [fullPage; shortPageOf3]))
  with
  | Some (Ok result, s') =>
      length result = 53%nat
      /\ exists pages : list WorkspaceReadListResponse,
           result = concat (map (fun p => workspacesOfPage (Workspaces p)) pages)
           /\ calls listWorkspacesByOrganizationPath (st_world s') = length pages
           /\ (0 < length pages)%nat
  | _ => False
  end.
Proof.
  destruct (listOrganizationWorkspaces 3 "O1" 0 []
              (start signedIn (pagesWorld [fullPage; shortPageOf3])))
    as [[[result|e] s']|] eqn:Hrun;
    [|vm_compute in Hrun; discriminate|vm_compute in Hrun; discriminate].
  split.
  - vm_compute in Hrun. injection Hrun as <- _. reflexivity.
  - destruct (organization_pages_collected_in_order _ _ _ _ _ _ _ Hrun)
      as (pages & Hresult & Hcalls & Hpos & _).
    exists pages. split; [exact Hresult|]. split; [exact Hcalls|exact Hpos].
Defined.

(** The path of the permissions is the same with the user and the
    organization as path parameters; the placeholder of the path of one
    workspace is replaced by the id of the workspace. *)
Lemma path_parameters_fill_placeholders_only_witness :
  finalPath (fun value => value) (pathOf listPermissionsPath)
    [("userId", "u1"); ("orgId", "O1")]
  = "/api/public/v1/permissions"
  /\ finalPath (fun value => value) getWorkspacePath [("workspaceId", "W1")]
     = "/api/public/v1/workspaces/W1".
Proof.
  split.
  - exact (proj1 (path_parameters_fill_placeholders_only (fun value => value))
             (pathOf listPermissionsPath) _ eq_refl).
  - exact (proj2 (proj2 (path_parameters_fill_placeholders_only (fun value => value)))
             "/api/public/v1/workspaces/" "" "workspaceId" "W1" eq_refl eq_refl).
Defined.

(** The reply has a permission on a workspace, one on another
    organization, and two on the organization asked for: the first of
    these two decides. *)
Lemma organization_permission_is_first_match_witness :
  match getOrganizationPermissionType "u1" "O1"
          (start signedIn
             (permissionsWorld
                [permissionOn "workspace" "O1" "workspace_admin";
                 permissionOn "organization" "O2" "organization_admin";
                 permissionOn "organization" "O1" "Organization_Editor";
                 permissionOn "organization" "O1" "organization_reader"]))
  with
  | (Ok p, _) =>
      p = "organization_editor"
      /\ exists before permission after,
           [permissionOn "workspace" "O1" "workspace_admin";
            permissionOn "organization" "O2" "organization_admin";
            permissionOn "organization" "O1" "Organization_Editor";
            permissionOn "organization" "O1" "organization_reader"]
           = (before ++ permission :: after)%list
           /\ Forall (fun q => ~ scopedTo "O1" q) before
           /\ scopedTo "O1" permission
           /\ p = strings_ToLower (Permission_PermissionType permission)
  | _ => False
  end.
Proof.
  destruct (getOrganizationPermissionType "u1" "O1" _) as [[p|e] s'] eqn:Hrun;
    [|vm_compute in Hrun; discriminate].
  assert (Hp : p = "organization_editor")
    by (vm_compute in Hrun; injection Hrun as <- _; reflexivity).
  split; [exact Hp|].
  destruct (organization_permission_is_first_match _ _ _ _ _ Hrun)
    as (resp & Hreply & [Hfound|[_ Hnone]]).
  - vm_compute in Hreply. injection Hreply as <-. exact Hfound.
  - rewrite Hp in Hnone. discriminate.
Defined.

(** One user who is an administrator of the organization: the grant has
    its entitlement among those of the organization. *)
Lemma organization_grants_match_entitlements_witness :
  match orgBuilder_Grants (resourceOf "organization" "O1") firstPage
          (start signedIn (memberWorld "organization_admin"))
  with
  | (Ok (grants, _), _) =>
      map Grant_Entitlement grants = ["organization_admin"]
      /\ Forall (fun g =>
                   exists entitlements en,
                     orgBuilder_Entitlements (resourceOf "organization" "O1") firstPage
                       (start signedIn (memberWorld "organization_admin"))
                     = (Ok (entitlements, ""),
                        start signedIn (memberWorld "organization_admin"))
                     /\ In en entitlements
                     /\ Entitlement_Slug en = Grant_Entitlement g)
                grants
  | _ => False
  end.
Proof.
  destruct (orgBuilder_Grants _ _ _) as [[[grants next]|e] s'] eqn:Hrun;
    [|vm_compute in Hrun; discriminate].
  split.
  - vm_compute in Hrun. injection Hrun as <- _ _. reflexivity.
  - refine (Forall_impl _ _ _
              (organization_grants_match_entitlements _ _ _ _ _ _ Hrun) _).
    intros g (_ & _ & Hents).
    destruct (Hents firstPage (start signedIn (memberWorld "organization_admin")))
      as (entitlements & en & Hrun' & Hin & Hslug & _).
    now exists entitlements, en.
Defined.

(** One user in the organization: one request for the users, one for the
    permissions, and the grant goes to that user. *)
Lemma organization_grants_follow_users_witness :
  match orgBuilder_Grants (resourceOf "organization" "O1") firstPage
          (start signedIn (memberWorld "organization_admin"))
  with
  | (Ok (grants, next), s') =>
      next = ""
      /\ calls listUsersPath (st_world s') = 1%nat
      /\ calls listPermissionsPath (st_world s') = 1%nat
      /\ map Grant_Principal grants
         = [{| ResourceId_ResourceType := "user"; ResourceId_Resource := "u1" |}]
  | _ => False
  end.
Proof.
  destruct (orgBuilder_Grants _ _ _) as [[[grants next]|e] s'] eqn:Hrun;
    [|vm_compute in Hrun; discriminate].
  destruct (organization_grants_follow_users _ _ _ _ _ _ Hrun)
    as (Hnext & resp & Hreply & Husers & Hpermissions & _).
  vm_compute in Hreply. injection Hreply as <-.
  split; [exact Hnext|]. split; [exact Husers|]. split; [exact Hpermissions|].
  vm_compute in Hrun. injection Hrun as <- _ _. reflexivity.
Defined.

(** A user whose workspace permission is of the organization set gets a
    grant for which the workspace has no entitlement. *)
Lemma workspace_grants_and_entitlements_witness :
  exists entitlements : list Entitlement,
    workspaceBuilder_Entitlements (resourceOf "workspace" "W1") firstPage
      (start signedIn (accessWorld []))
    = (Ok (entitlements, ""), start signedIn (accessWorld []))
    /\ match workspaceGrant (resourceOf "workspace" "W1")
               (accessRecord "u1" (Some "organization_admin") None)
               (start signedIn (accessWorld []))
       with
       | (Ok (Some g), _) =>
           Grant_Entitlement g = "organization_admin"
           /\ ~ exists en, In en entitlements
                           /\ Entitlement_Slug en = Grant_Entitlement g
       | _ => False
       end.
Proof.
  destruct (workspace_grants_and_entitlements (resourceOf "workspace" "W1"))
    as (entitlements & Hentitlements & _ & _ & Hgrants).
  exists entitlements. split; [apply Hentitlements|].
  destruct (workspaceGrant _ _ _) as [[[g|]|e] s'] eqn:Hrun;
    [|vm_compute in Hrun; discriminate|vm_compute in Hrun; discriminate].
  assert (Hg : Grant_Entitlement g = "organization_admin")
    by (vm_compute in Hrun; injection Hrun as <- _; reflexivity).
  split; [exact Hg|].
  apply (Hgrants _ _ _ _ Hrun). rewrite Hg. simpl. tauto.
Defined.
